(** * deadline-control: a shallow embedding of the list proxies and entity
      wrappers, and the properties of their specification

    The development follows the Python sources file by file:
    - [base.py]    : [DeadlineItem] (names compared ignoring case) and
                     [DeadlineList] (a mutable sequence with three hooks);
    - [slaves.py]  : [Status], [ExtraInfo], [Slave], [GroupSlaves];
    - [groups.py]  : [Group], [SlaveGroups];
    - [pools.py]   : [Pool], [SlavePools];
    - [utils.py]   : the [api] object, the boundary to the farm manager.

    Conventions of the embedding.
    - Names are ASCII strings; [str.lower] and [str.upper] are the ASCII case
      mappings (Python's Unicode case mapping outside ASCII is not modelled).
    - A Python computation is a function from the state it can touch to a
      result and the state it leaves.  An exception ends the computation but
      keeps the state reached so far, as in Python.
    - The farm manager is an arbitrary state machine answering requests; the
      requests issued are recorded in order. *)

From Stdlib Require Import ZArith Ascii String List Bool Lia DecimalString.
From stdpp Require Import base option list gmap strings.

Import ListNotations.
Local Open Scope string_scope.
Local Open Scope list_scope.

(** ** Python exceptions and computations *)

Inductive Exn : Type :=
  | IndexError
  | ValueError
  | TypeError
  | StopIteration
  | KeyError (key : string)
  | AttributeError (attr : string)
  | NameError (ident : string).

Inductive Result (A : Type) : Type :=
  | Ok (a : A)
  | Raise (e : Exn).

Arguments Ok {A} a.
Arguments Raise {A} e.

(** A computation over a state [W]: the state is kept when an exception is
    raised, because Python does not undo the mutations made before it. *)
Definition M (W A : Type) : Type := W -> Result A * W.

Definition ret {W A} (a : A) : M W A := fun w => (Ok a, w).

Definition raise {W A} (e : Exn) : M W A := fun w => (Raise e, w).

Definition bind {W A B} (c : M W A) (k : A -> M W B) : M W B :=
  fun w =>
    match c w with
    | (Ok a, w') => k a w'
    | (Raise e, w') => (Raise e, w')
    end.

Definition lift_result {W A} (r : Result A) : M W A := fun w => (r, w).

Definition gets {W A} (f : W -> A) : M W A := fun w => (Ok (f w), w).

Definition modify {W} (f : W -> W) : M W unit := fun w => (Ok tt, f w).

Declare Scope py_scope.
Delimit Scope py_scope with py.
Notation "x <- c ;; k" := (bind c (fun x => k))
  (at level 100, c at next level, right associativity) : py_scope.
Notation "c ;;; k" := (bind c (fun _ => k))
  (at level 100, right associativity) : py_scope.
Local Open Scope py_scope.

(** ** Strings: [str.lower], [str.upper], [repr], [split] and [join] *)

Definition is_upper (c : ascii) : bool :=
  let n := nat_of_ascii c in Nat.leb 65 n && Nat.leb n 90.

Definition is_lower (c : ascii) : bool :=
  let n := nat_of_ascii c in Nat.leb 97 n && Nat.leb n 122.

Definition lower_char (c : ascii) : ascii :=
  if is_upper c then ascii_of_nat (nat_of_ascii c + 32) else c.

Definition upper_char (c : ascii) : ascii :=
  if is_lower c then ascii_of_nat (nat_of_ascii c - 32) else c.

Fixpoint str_map (f : ascii -> ascii) (s : string) : string :=
  match s with
  | EmptyString => EmptyString
  | String c s' => String (f c) (str_map f s')
  end.

(** [s.lower()] and [s.upper()] *)
Definition str_lower (s : string) : string := str_map lower_char s.
Definition str_upper (s : string) : string := str_map upper_char s.

Fixpoint str_mem (c : ascii) (s : string) : bool :=
  match s with
  | EmptyString => false
  | String d s' => Ascii.eqb c d || str_mem c s'
  end.

Definition squote : ascii := "039"%char.
Definition dquote : ascii := "034"%char.
Definition backslash : ascii := "092"%char.

Definition hex_digit (n : nat) : ascii :=
  if Nat.ltb n 10 then ascii_of_nat (48 + n) else ascii_of_nat (87 + n).

(** One character of [repr(s)] for the quote character [q] chosen. *)
Definition repr_char (q c : ascii) : string :=
  let n := nat_of_ascii c in
  if Ascii.eqb c q || Ascii.eqb c backslash then String backslash (String c EmptyString)
  else if Nat.eqb n 9 then String backslash "t"
  else if Nat.eqb n 10 then String backslash "n"
  else if Nat.eqb n 13 then String backslash "r"
  else if Nat.ltb n 32 || Nat.leb 127 n then
    String backslash
      (String "x" (String (hex_digit (Nat.div n 16)) (String (hex_digit (Nat.modulo n 16)) EmptyString)))
  else String c EmptyString.

Fixpoint repr_body (q : ascii) (s : string) : string :=
  match s with
  | EmptyString => EmptyString
  | String c s' => repr_char q c ++ repr_body q s'
  end.

(** [repr(s)] of a string: single quotes, unless the string holds a single
    quote and no double quote. *)
Definition str_repr (s : string) : string :=
  let q := if str_mem squote s && negb (str_mem dquote s) then dquote else squote in
  String q (repr_body q s ++ String q EmptyString).

(** [s.split(',')]: never empty, [''.split(',') == ['']]. *)
Fixpoint str_split (sep : ascii) (s : string) : list string :=
  match s with
  | EmptyString => [EmptyString]
  | String c s' =>
      if Ascii.eqb c sep then EmptyString :: str_split sep s'
      else match str_split sep s' with
           | [] => [String c EmptyString]
           | piece :: rest => String c piece :: rest
           end
  end.

(** [sep.join(l)] *)
Fixpoint str_join (sep : string) (l : list string) : string :=
  match l with
  | [] => EmptyString
  | [x] => x
  | x :: rest => x ++ sep ++ str_join sep rest
  end.

(** ** base.py: [DeadlineItem] *)

(** The classes of items: [DeadlineItem] and its three subclasses. *)
Inductive Cls : Type := CDeadlineItem | CSlave | CPool | CGroup.

Definition Cls_eqb (a b : Cls) : bool :=
  match a, b with
  | CDeadlineItem, CDeadlineItem | CSlave, CSlave | CPool, CPool | CGroup, CGroup => true
  | _, _ => false
  end.

(** [type(self).__name__] *)
Definition cls_name (c : Cls) : string :=
  match c with
  | CDeadlineItem => "DeadlineItem"
  | CSlave => "Slave"
  | CPool => "Pool"
  | CGroup => "Group"
  end.

(** An item as the list proxies see it: its class and its [name].  The
    lazily filled fields of a [Slave], [Group] or [Pool] play no part in
    [str], [==], [hash] or the constructor call [item_type(x)], which copies
    the name only. *)
Record DeadlineItem : Type := mkItem { cls : Cls; name : string }.

(** What callers pass where an item is expected: a name or an item. *)
Inductive raw : Type :=
  | RStr (s : string)
  | RItem (i : DeadlineItem).

(** [str(value)] *)
Definition raw_str (v : raw) : string :=
  match v with
  | RStr s => s
  | RItem i => name i
  end.

(** [isinstance(value, DeadlineItem)] and [isinstance(value, c)] *)
Definition isinstance (v : raw) (c : Cls) : bool :=
  match v with
  | RStr _ => false
  | RItem i => Cls_eqb c CDeadlineItem || Cls_eqb (cls i) c
  end.

(** [DeadlineItem.__init__]: [c(value)], for [c] the class constructed. *)
Definition item_init (c : Cls) (value : raw) : DeadlineItem :=
  let n := if isinstance value CDeadlineItem
           then match value with RItem i => name i | RStr s => s end
           else raw_str value in
  mkItem c n.

(** [__repr__] *)
Definition item_repr (self : DeadlineItem) : string :=
  cls_name (cls self) ++ "(" ++ str_repr (str_lower (name self)) ++ ")".

(** [__str__] *)
Definition item_str (self : DeadlineItem) : string := name self.

(** [__eq__] *)
Definition item_eq (self : DeadlineItem) (value : raw) : bool :=
  if isinstance value (cls self)
  then match value with
       | RItem v => String.eqb (str_lower (name self)) (str_lower (name v))
       | RStr s => String.eqb (str_lower (name self)) (str_lower s)
       end
  else String.eqb (str_lower (name self)) (str_lower (raw_str value)).

(** [__ne__] *)
Definition item_ne (self : DeadlineItem) (value : raw) : bool := negb (item_eq self value).

(** [lower] and [upper] *)
Definition item_lower (self : DeadlineItem) : string := str_lower (item_str self).
Definition item_upper (self : DeadlineItem) : string := str_upper (item_str self).

Section Hashing.
(** [hash] on strings is fixed for the life of the process and otherwise
    arbitrary. *)
Variable str_hash : string -> Z.

(** [__hash__] *)
Definition item_hash (self : DeadlineItem) : Z := str_hash (item_repr self).
End Hashing.

(** ** Python lists: the operations [DeadlineList] forwards to [self.items] *)

Definition py_len {A} (l : list A) : Z := Z.of_nat (length l).

(** The position an integer index denotes: negative indices count from the
    end; [None] when the index is out of range. *)
Definition norm_index (len i : Z) : option nat :=
  let j := if (i <? 0)%Z then (i + len)%Z else i in
  if (0 <=? j)%Z && (j <? len)%Z then Some (Z.to_nat j) else None.


(** [del l[i]] *)
Definition py_list_delitem {A} (l : list A) (i : Z) : Result (list A) :=
  match norm_index (py_len l) i with
  | Some j => Ok (delete j l)
  | None => Raise IndexError
  end.

(** [l.pop(i)] *)
Definition py_list_pop {A} (l : list A) (i : Z) : Result (A * list A) :=
  match norm_index (py_len l) i with
  | Some j => match l !! j with
              | Some x => Ok (x, delete j l)
              | None => Raise IndexError
              end
  | None => Raise IndexError
  end.

(** [l.insert(i, v)]: the index is clamped, never refused. *)
Definition py_list_insert {A} (l : list A) (i : Z) (v : A) : list A :=
  let n := py_len l in
  let j := Z.to_nat (if (i <? 0)%Z then Z.max 0 (i + n) else Z.min i n) in
  take j l ++ v :: drop j l.

(** [slice(start, stop, step)]; [None] for an omitted part. *)
Record slice : Type := mkSlice { sl_start : option Z; sl_stop : option Z; sl_step : option Z }.

(** [l[:]] *)
Definition slice_all : slice := mkSlice None None None.

(** One bound of [slice.indices(len)] for a step that is not zero. *)
Definition adjust_bound (len step : Z) (is_start : bool) (b : option Z) : Z :=
  match b with
  | None =>
      if (step <? 0)%Z then (if is_start then len - 1 else -1)%Z
      else (if is_start then 0 else len)%Z
  | Some v =>
      if (v <? 0)%Z then
        if (v + len <? 0)%Z then (if (step <? 0)%Z then -1 else 0)%Z else (v + len)%Z
      else if (len <=? v)%Z then (if (step <? 0)%Z then len - 1 else len)%Z
      else v
  end.

(** The number of positions a slice selects. *)
Definition slice_length (start stop step : Z) : Z :=
  if (step <? 0)%Z
  then (if (stop <? start)%Z then (start - stop - 1) / (- step) + 1 else 0)%Z
  else (if (start <? stop)%Z then (stop - start - 1) / step + 1 else 0)%Z.

(** The positions [start, start + step, ...] of an extended slice. *)
Definition slice_positions (start stop step : Z) : list nat :=
  map (fun k => Z.to_nat (start + Z.of_nat k * step))
      (seq 0 (Z.to_nat (slice_length start stop step))).

Fixpoint assign_positions {A} (l : list A) (ps : list nat) (v : list A) : list A :=
  match ps, v with
  | p :: ps', x :: v' => assign_positions (<[p := x]> l) ps' v'
  | _, _ => l
  end.

Fixpoint drop_positions {A} (i : nat) (ps : list nat) (l : list A) : list A :=
  match l with
  | [] => []
  | x :: l' =>
      if existsb (Nat.eqb i) ps then drop_positions (S i) ps l'
      else x :: drop_positions (S i) ps l'
  end.

(** [l[s] = v]: a slice of step 1 is replaced by [v] whatever the lengths;
    an extended slice needs as many values as positions. *)
Definition py_list_setslice {A} (l : list A) (s : slice) (v : list A) : Result (list A) :=
  let step := default 1%Z (sl_step s) in
  if (step =? 0)%Z then Raise ValueError
  else
    let len := py_len l in
    let start := adjust_bound len step true (sl_start s) in
    let stop := adjust_bound len step false (sl_stop s) in
    if (step =? 1)%Z
    then Ok (take (Z.to_nat start) l ++ v ++ drop (Z.to_nat (Z.max start stop)) l)
    else if (py_len v =? slice_length start stop step)%Z
         then Ok (assign_positions l (slice_positions start stop step) v)
         else Raise ValueError.

(** [del l[s]] *)
Definition py_list_delslice {A} (l : list A) (s : slice) : Result (list A) :=
  let step := default 1%Z (sl_step s) in
  if (step =? 0)%Z then Raise ValueError
  else
    let len := py_len l in
    let start := adjust_bound len step true (sl_start s) in
    let stop := adjust_bound len step false (sl_stop s) in
    if (step =? 1)%Z
    then Ok (take (Z.to_nat start) l ++ drop (Z.to_nat (Z.max start stop)) l)
    else Ok (drop_positions 0 (slice_positions start stop step) l).

(** An index as [__delitem__] receives it. *)
Inductive index : Type :=
  | IInt (i : Z)
  | ISlice (s : slice).

(** [l.remove(v)]: the first element [e] with [e == v] goes; [ValueError]
    when there is none.  [same e] stands for [e == v]. *)
Fixpoint list_remove_first {A} (same : A -> bool) (l : list A) : Result (list A) :=
  match l with
  | [] => Raise ValueError
  | e :: l' =>
      if same e then Ok l'
      else match list_remove_first same l' with
           | Ok r => Ok (e :: r)
           | Raise x => Raise x
           end
  end.

(** [l.index(v)] *)
Fixpoint list_index_first {A} (same : A -> bool) (l : list A) : Result Z :=
  match l with
  | [] => Raise ValueError
  | e :: l' =>
      if same e then Ok 0%Z
      else match list_index_first same l' with
           | Ok r => Ok (r + 1)%Z
           | Raise x => Raise x
           end
  end.

(** On a list of items the comparison is [DeadlineItem.__eq__]; on a list
    of names it is the equality of strings. *)
Definition py_list_remove (l : list DeadlineItem) (v : DeadlineItem) : Result (list DeadlineItem) :=
  list_remove_first (fun e => item_eq e (RItem v)) l.

Definition py_list_index (l : list DeadlineItem) (v : DeadlineItem) : Result Z :=
  list_index_first (fun e => item_eq e (RItem v)) l.

Definition names_remove (l : list string) (v : string) : Result (list string) :=
  list_remove_first (fun e => String.eqb e v) l.

(** [v in l] *)
Definition py_list_contains (l : list DeadlineItem) (v : raw) : bool :=
  existsb (fun e => item_eq e v) l.

(** ** base.py: [DeadlineList] *)

(** The object: the element class, the owner and the elements.  The owner
    is held by reference in Python; here the list carries the owner's state,
    so a hook that patches the owner is seen by whoever reads the owner
    back from the list. *)
Record DeadlineList (S : Type) : Type :=
  mkList { item_type : Cls; source : S; items : list DeadlineItem }.

Arguments mkList {S} item_type source items.
Arguments item_type {S} d.
Arguments source {S} d.
Arguments items {S} d.

Definition with_items {S} (self : DeadlineList S) (l : list DeadlineItem) : DeadlineList S :=
  mkList (item_type self) (source self) l.

Definition with_source {S} (self : DeadlineList S) (s : S) : DeadlineList S :=
  mkList (item_type self) s (items self).

(** A method of a list: a computation on the state outside the list and on
    the list itself, so that the list keeps the mutations made before an
    exception. *)
Definition Method (W S A : Type) : Type := M (W * DeadlineList S) A.

(** The three overridable methods. *)
Record Hooks (W S : Type) : Type := mkHooks {
  trigger_add : DeadlineItem -> Method W S unit;
  trigger_remove : raw -> Method W S unit;
  trigger_set : list DeadlineItem -> Method W S unit
}.

Arguments mkHooks {W S}.
Arguments trigger_add {W S} h item.
Arguments trigger_remove {W S} h item.
Arguments trigger_set {W S} h previous.

(** [self.items], [self.item_type], [self.source] and the assignment of
    [self.items] inside a method. *)
Definition self_items {W S} : Method W S (list DeadlineItem) := gets (fun st => items (snd st)).
Definition self_item_type {W S} : Method W S Cls := gets (fun st => item_type (snd st)).
Definition self_source {W S} : Method W S S := gets (fun st => source (snd st)).

Definition set_items {W S} (l : list DeadlineItem) : Method W S unit :=
  modify (fun st => (fst st, with_items (snd st) l)).

Definition set_source {W S} (s : S) : Method W S unit :=
  modify (fun st => (fst st, with_source (snd st) s)).

(** A computation that does not touch the list, run from a method. *)
Definition outside {W S A} (c : M W A) : Method W S A :=
  fun st => let (r, w) := c (fst st) in (r, (w, snd st)).

(** A method called on the list [l]; the caller gets the list back when
    the method returns. *)
Definition on_list {W S A} (l : DeadlineList S) (m : Method W S A) : M W (A * DeadlineList S) :=
  fun w =>
    match m (w, l) with
    | (Ok a, (w', l')) => (Ok (a, l'), w')
    | (Raise e, (w', _)) => (Raise e, w')
    end.

Section DeadlineList.
Context {W S : Type}.
Variable h : Hooks W S.

(** [__init__] *)
Definition DeadlineList_init (c : Cls) (src : S) (xs : list raw) : DeadlineList S :=
  mkList c src (map (item_init c) xs).

(** [__getitem__] for an integer index *)
Definition DeadlineList_getitem (i : Z) : Method W S DeadlineItem :=
  l <- self_items ;;
  match norm_index (py_len l) i with
  | Some j => match l !! j with
              | Some x => ret x
              | None => raise IndexError
              end
  | None => raise IndexError
  end.

(** [__len__] *)
Definition DeadlineList_len : Method W S Z := l <- self_items ;; ret (py_len l).


(** [__setitem__], the branch [isinstance(index, slice)]: [child] is a
    list of values. *)
Definition DeadlineList_setitem_slice (s : slice) (child : list raw) : Method W S unit :=
  items_old <- self_items ;;
  c <- self_item_type ;;
  new <- lift_result (py_list_setslice items_old s (map (item_init c) child)) ;;
  set_items new ;;;
  trigger_set h items_old.

(** [__delitem__] *)
Definition DeadlineList_delitem (ix : index) : Method W S unit :=
  items_old <- self_items ;;
  new <- lift_result (match ix with
                      | IInt i => py_list_delitem items_old i
                      | ISlice s => py_list_delslice items_old s
                      end) ;;
  set_items new ;;;
  trigger_set h items_old.

(** [append] *)
Definition DeadlineList_append (item : raw) : Method W S unit :=
  c <- self_item_type ;;
  let item := item_init c item in
  l <- self_items ;;
  set_items (l ++ [item]) ;;;
  trigger_add h item.


(** [remove]: the hook receives the argument as the caller passed it. *)
Definition DeadlineList_remove (item : raw) : Method W S unit :=
  l <- self_items ;;
  c <- self_item_type ;;
  new <- lift_result (py_list_remove l (item_init c item)) ;;
  set_items new ;;;
  trigger_remove h item.


(** [index] *)
Definition DeadlineList_index (item : raw) : Method W S Z :=
  l <- self_items ;;
  c <- self_item_type ;;
  lift_result (py_list_index l (item_init c item)).
End DeadlineList.

(** A subclass that only records which hook ran and with which argument;
    the state outside the list is the record of the calls so far. *)
Inductive HookCall : Type :=
  | OnAdd (item : DeadlineItem)
  | OnRemove (item : raw)
  | OnSet (previous : list DeadlineItem).

Definition record_call {S} (c : HookCall) : Method (list HookCall) S unit :=
  modify (fun st => (fst st ++ [c], snd st)).

Definition recording {S} : Hooks (list HookCall) S :=
  mkHooks
    (fun item => record_call (OnAdd item))
    (fun item => record_call (OnRemove item))
    (fun previous => record_call (OnSet previous)).


(** ** Python values held in the info and settings dictionaries *)

#[warnings="-register-all"]
Inductive PyVal : Type :=
  | VNone
  | VBool (b : bool)
  | VInt (z : Z)
  | VStr (s : string)
  | VList (l : list PyVal)
  | VDict (d : list (string * PyVal)).

(** A dictionary with string keys, in insertion order; keys are unique in a
    dictionary Python built. *)
Definition dict : Type := list (string * PyVal).

(** [d.get(k)]; [d[k]] raises [KeyError] where this is [None]. *)
Fixpoint dict_get {V} (d : list (string * V)) (k : string) : option V :=
  match d with
  | [] => None
  | (k', v) :: d' => if String.eqb k k' then Some v else dict_get d' k
  end.

(** [d[k] = v]: in place when the key exists, at the end otherwise. *)
Fixpoint dict_set {V} (d : list (string * V)) (k : string) (v : V) : list (string * V) :=
  match d with
  | [] => [(k, v)]
  | (k', v') :: d' => if String.eqb k k' then (k', v) :: d' else (k', v') :: dict_set d' k v
  end.

Definition dict_keys {V} (d : list (string * V)) : list string := map fst d.

Definition bool_int (b : bool) : Z := if b then 1%Z else 0%Z.

(** [a == b] on these values: [bool] is a subclass of [int], lists compare
    element by element, dictionaries compare as maps. *)
Fixpoint py_eq (a b : PyVal) {struct a} : bool :=
  match a, b with
  | VNone, VNone => true
  | VBool x, VBool y => Bool.eqb x y
  | VBool x, VInt y => Z.eqb (bool_int x) y
  | VInt x, VBool y => Z.eqb x (bool_int y)
  | VInt x, VInt y => Z.eqb x y
  | VStr x, VStr y => String.eqb x y
  | VList x, VList y =>
      (fix all2 (x y : list PyVal) {struct x} : bool :=
         match x, y with
         | [], [] => true
         | u :: x', v :: y' => py_eq u v && all2 x' y'
         | _, _ => false
         end) x y
  | VDict x, VDict y =>
      Nat.eqb (length x) (length y) &&
      (fix sub (x : list (string * PyVal)) {struct x} : bool :=
         match x with
         | [] => true
         | (k, u) :: x' =>
             match dict_get y k with
             | Some v => py_eq u v && sub x'
             | None => false
             end
         end) x
  | _, _ => false
  end.

(** [a != b] *)
Definition py_ne (a b : PyVal) : bool := negb (py_eq a b).

(** [d[k]] *)
Definition dict_getitem {W} (d : dict) (k : string) : M W PyVal :=
  match dict_get d k with
  | Some v => ret v
  | None => raise (KeyError k)
  end.

(** ** slaves.py: the settings dictionary as a tree of dict objects

    [_write_settings] mutates the dictionaries of the settings in place and
    may hold several of them at once, so the objects need an identity: a
    dict object is identified by the path of keys under which the settings
    held it when they were fetched.  No dictionary is ever stored by
    [_write_settings] (a dict-valued update recurses instead), so a path
    never names two objects.  A dict object overwritten by another value
    stays alive for the calls that still hold it: [NGone]. *)

#[warnings="-register-all"]
Inductive Node : Type :=
  | NVal (v : PyVal)
  | NDict (es : list (string * Node))
  | NGone (v : PyVal) (es : list (string * Node)).

Definition Obj : Type := list (string * Node).

Fixpoint node_of_val (v : PyVal) : Node :=
  match v with
  | VDict d => NDict (map (fun '(k, x) => (k, node_of_val x)) d)
  | _ => NVal v
  end.

Definition obj_of_dict (d : dict) : Obj := map (fun '(k, x) => (k, node_of_val x)) d.

(** The value an entry holds now. *)
Fixpoint node_val (n : Node) : PyVal :=
  match n with
  | NVal v => v
  | NGone v _ => v
  | NDict es => VDict (map (fun '(k, x) => (k, node_val x)) es)
  end.

Definition dict_of_obj (o : Obj) : dict := map (fun '(k, x) => (k, node_val x)) o.

(** [d[k] = v] seen from the entry: the value is replaced, a dict object
    that was there lives on detached. *)
Definition node_store (n : Node) (v : PyVal) : Node :=
  match n with
  | NVal _ => NVal v
  | NDict es => NGone v es
  | NGone _ es => NGone v es
  end.

Definition node_entries (n : Node) : option Obj :=
  match n with
  | NVal _ => None
  | NDict es => Some es
  | NGone _ es => Some es
  end.

(** The dict object a path names, from the top-level settings. *)
Fixpoint obj_at (top : Obj) (p : list string) : option Obj :=
  match p with
  | [] => Some top
  | k :: p' =>
      match dict_get top k with
      | Some n => match node_entries n with
                  | Some es => obj_at es p'
                  | None => None
                  end
      | None => None
      end
  end.

Fixpoint entry_update (o : Obj) (k : string) (f : Node -> Node) : Obj :=
  match o with
  | [] => []
  | (k', n) :: o' => if String.eqb k k' then (k', f n) :: o' else (k', n) :: entry_update o' k f
  end.

Definition node_update_entries (f : Obj -> Obj) (n : Node) : Node :=
  match n with
  | NVal v => NVal v
  | NDict es => NDict (f es)
  | NGone v es => NGone v (f es)
  end.

(** The settings after the dict object at path [p] became [f] of itself. *)
Fixpoint obj_update (top : Obj) (p : list string) (f : Obj -> Obj) : Obj :=
  match p with
  | [] => f top
  | k :: p' => entry_update top k (node_update_entries (fun es => obj_update es p' f))
  end.

(** What a call of [_write_settings] holds as [settings]: a dict object, or
    a value that is no dictionary. *)
Inductive Target : Type :=
  | TObj (p : list string)
  | TOther.

(** [settings[k]] as the argument of the recursive call: a live dict is
    passed as it is; [None] makes the callee take [self.settings], the
    top-level object; any other value cannot be indexed by a key. *)
Definition sub_target (p : list string) (k : string) (n : Node) : Target :=
  match n with
  | NDict _ => TObj (p ++ [k])
  | NVal VNone => TObj []
  | NGone VNone _ => TObj []
  | _ => TOther
  end.

Definition is_dict (v : PyVal) : bool :=
  match v with
  | VDict _ => true
  | _ => false
  end.

(** The loop of [_write_settings] over the items of [kwargs], for the
    callee [rec] of its recursive call.  The loop stops at the first
    exception and the mutations made so far stay. *)
Fixpoint write_loop (rec : PyVal -> Target -> Obj -> Result bool * Obj)
    (t : Target) (kwargs : list (string * PyVal)) (updated : bool) (top : Obj)
    {struct kwargs} : Result bool * Obj :=
  match kwargs with
  | [] => (Ok updated, top)
  | (k, v) :: rest =>
      match t with
      | TOther => (Raise TypeError, top)
      | TObj p =>
          match obj_at top p with
          | None => (Raise TypeError, top)
          | Some o =>
              match dict_get o k with
              | None => (Raise (KeyError k), top)
              | Some n =>
                  if is_dict v
                  then match rec v (sub_target p k n) top with
                       | (Ok b, top') => write_loop rec t rest (updated || b) top'
                       | (Raise e, top') => (Raise e, top')
                       end
                  else if py_ne (node_val n) v
                       then write_loop rec t rest true
                              (obj_update top p (fun o => entry_update o k (fun n => node_store n v)))
                       else write_loop rec t rest updated top
              end
          end
      end
  end.

(** [_write_settings(kwargs, settings)] for [kwargs] a dictionary value, on
    the top-level settings object [top] of the slave. *)
Fixpoint write_settings_rec (kwargs : PyVal) (t : Target) (top : Obj) {struct kwargs}
  : Result bool * Obj :=
  match kwargs with
  | VDict items_ => write_loop write_settings_rec t items_ false top
  | _ => (Ok false, top)
  end.

(** [_write_settings(kwargs)] as [Slave.update_settings] calls it: on the
    top-level object, [settings] being left at [None]. *)
Definition write_settings (kwargs : dict) (top : Obj) : Result bool * Obj :=
  write_settings_rec (VDict kwargs) (TObj []) top.

(** *** What the statements about [_write_settings] speak of *)

(** The keys of a dictionary are pairwise different, at every level: what
    Python guarantees of the keyword arguments. *)
Fixpoint unique_keys (v : PyVal) : Prop :=
  match v with
  | VDict d =>
      NoDup (map fst d) /\
      (fix each (d : list (string * PyVal)) : Prop :=
         match d with
         | [] => True
         | (_, x) :: d' => unique_keys x /\ each d'
         end) d
  | _ => True
  end.

(** Every dictionary among the updates meets a dictionary in the settings,
    at every level. *)
Fixpoint conforms (v : PyVal) (o : Obj) {struct v} : Prop :=
  match v with
  | VDict d =>
      (fix each (d : list (string * PyVal)) : Prop :=
         match d with
         | [] => True
         | (k, x) :: d' =>
             match x with
             | VDict _ =>
                 match dict_get o k with
                 | Some (NDict es) => conforms x es
                 | _ => False
                 end
             | _ => True
             end /\ each d'
         end) d
  | _ => True
  end.

(** The settings hold every update: under each key the value the update
    names, or a value equal to it that was there before. *)
Fixpoint holds (v : PyVal) (o : Obj) {struct v} : Prop :=
  match v with
  | VDict d =>
      (fix each (d : list (string * PyVal)) : Prop :=
         match d with
         | [] => True
         | (k, x) :: d' =>
             match x with
             | VDict _ =>
                 match dict_get o k with
                 | Some (NDict es) => holds x es
                 | _ => False
                 end
             | _ =>
                 match dict_get o k with
                 | Some n => node_val n = x \/ py_eq (node_val n) x = true
                 | None => False
                 end
             end /\ each d'
         end) d
  | _ => True
  end.

(** What a call of [_write_settings] that returns has done, for updates
    [v] that conform to the dict object it was given: it changed that
    object only, and the object holds the updates. *)
Definition writes_locally (v : PyVal) : Prop :=
  forall (p : list string) (top o : Obj) (b : bool) (top' : Obj),
    obj_at top p = Some o ->
    unique_keys v ->
    conforms v o ->
    write_settings_rec v (TObj p) top = (Ok b, top') ->
    exists o', top' = obj_update top p (fun _ => o') /\ holds v o'.

(** A cache cell: the symbol [NOT_SET] of core/symbol.py, or a value. *)
Inductive cell (A : Type) : Type :=
  | NOT_SET
  | Cached (a : A).

Arguments NOT_SET {A}.
Arguments Cached {A} a.

(** A [defaultdict(lambda: NOT_SET)]: a key never written reads as
    [NOT_SET]. *)
Definition cache_read {A} (m : gmap string A) (k : string) : cell A :=
  match m !! k with
  | Some v => Cached v
  | None => NOT_SET
  end.

(** ** utils.py: the [api] object *)

(** An argument that is a name in some calls and a list of names in
    others. *)
Inductive Names : Type :=
  | OneName (s : string)
  | ManyNames (l : list string).

(** The requests of the farm manager's interface that the sources use, by
    what they answer: listings answer names, the info request a dictionary,
    the settings request a list holding one dictionary, and the requests
    that change the farm a status string. *)
Inductive Listing : Type :=
  | GetSlaveNames
  | GetSlaveNamesInGroup (group : string)
  | GetSlaveNamesInPool (pool : string)
  | GetGroupNames
  | GetPoolNames.

Inductive Change : Type :=
  | SaveSlaveSettings (settings : dict)
  | SetGroupsForSlave (slave : Names) (group : Names)
  | SetPoolsForSlave (slave : Names) (pool : Names)
  | AddGroupToSlave (slave group : string)
  | RemoveGroupFromSlave (slave group : string)
  | AddPoolToSlave (slave pool : string)
  | RemovePoolFromSlave (slave pool : string)
  | AddGroup (group : string)
  | DeleteGroup (group : string)
  | AddPool (pool : string)
  | DeletePool (pool : string).

Inductive ApiCall : Type :=
  | Listing_ (q : Listing)
  | GetSlaveInfo (slave : string)
  | GetSlaveSettings (slave : string)
  | Change_ (c : Change).

Coercion Listing_ : Listing >-> ApiCall.
Coercion Change_ : Change >-> ApiCall.

(** The farm manager: any state machine that answers the requests. *)
Class RemoteService (R : Type) : Type := {
  answer_listing : Listing -> R -> list string * R;
  answer_info : string -> R -> dict * R;
  answer_settings : string -> R -> list dict * R;
  answer_change : Change -> R -> string * R
}.

(** The attributes of the [api] object, as the note in utils.py lists them
    under [Main]. *)
Definition api_attributes : list string :=
  [ "AuthenticationModeEnabled"; "Balancer"; "EnableAuthentication"; "Groups";
    "JobReports"; "Jobs"; "LimitGroups"; "MappedPaths"; "MaximumPriority";
    "Plugins"; "Pools"; "Pulse"; "Repository"; "SetAuthenticationCredentials";
    "Slaves"; "SlavesRenderingJob"; "TaskReports"; "Tasks"; "Users" ].

(** ** Logging *)

Inductive LogLevel : Type := INFO | WARNING.

Inductive LogArg : Type :=
  | LStr (s : string)
  | LRaw (r : raw)
  | LItems (l : list DeadlineItem)
  | LKwargs (d : dict).

Record LogRecord : Type := mkLog { level : LogLevel; fmt : string; args : list LogArg }.

(** ** The state of the process *)

Record World (R : Type) : Type := mkWorld {
  Slave_SLAVES_CACHE : cell (list string);
  Slave_INFO_CACHE : gmap string (option dict);
  Slave_SETTINGS_CACHE : gmap string (option (list Obj));
  Group_GROUPS_CACHE : cell (list string);
  Group_SLAVES_CACHE : gmap string (list string);
  Pool_POOLS_CACHE : cell (list string);
  Pool_SLAVES_CACHE : gmap string (list string);
  log : list LogRecord;
  calls : list ApiCall;
  remote : R
}.

Arguments mkWorld {R}.
Arguments Slave_SLAVES_CACHE {R} w.
Arguments Slave_INFO_CACHE {R} w.
Arguments Slave_SETTINGS_CACHE {R} w.
Arguments Group_GROUPS_CACHE {R} w.
Arguments Group_SLAVES_CACHE {R} w.
Arguments Pool_POOLS_CACHE {R} w.
Arguments Pool_SLAVES_CACHE {R} w.
Arguments log {R} w.
Arguments calls {R} w.
Arguments remote {R} w.

(** The process as the modules are imported: nothing cached, nothing
    logged, no request issued. *)
Definition initial_world {R} (r : R) : World R :=
  mkWorld NOT_SET ∅ ∅ NOT_SET ∅ NOT_SET ∅ [] [] r.

(** The state after a record was logged, and after a request was issued
    and answered. *)
Definition logged {R} (w : World R) (rec : LogRecord) : World R :=
  mkWorld (Slave_SLAVES_CACHE w) (Slave_INFO_CACHE w) (Slave_SETTINGS_CACHE w)
          (Group_GROUPS_CACHE w) (Group_SLAVES_CACHE w)
          (Pool_POOLS_CACHE w) (Pool_SLAVES_CACHE w)
          (log w ++ [rec]) (calls w) (remote w).

Definition requested {R} (w : World R) (c : ApiCall) (rem : R) : World R :=
  mkWorld (Slave_SLAVES_CACHE w) (Slave_INFO_CACHE w) (Slave_SETTINGS_CACHE w)
          (Group_GROUPS_CACHE w) (Group_SLAVES_CACHE w)
          (Pool_POOLS_CACHE w) (Pool_SLAVES_CACHE w)
          (log w) (calls w ++ [c]) rem.

Definition with_slave_names {R} (w : World R) (c : cell (list string)) : World R :=
  mkWorld c (Slave_INFO_CACHE w) (Slave_SETTINGS_CACHE w)
          (Group_GROUPS_CACHE w) (Group_SLAVES_CACHE w)
          (Pool_POOLS_CACHE w) (Pool_SLAVES_CACHE w)
          (log w) (calls w) (remote w).

Definition with_group_names {R} (w : World R) (c : cell (list string)) : World R :=
  mkWorld (Slave_SLAVES_CACHE w) (Slave_INFO_CACHE w) (Slave_SETTINGS_CACHE w)
          c (Group_SLAVES_CACHE w) (Pool_POOLS_CACHE w) (Pool_SLAVES_CACHE w)
          (log w) (calls w) (remote w).

Definition with_pool_names {R} (w : World R) (c : cell (list string)) : World R :=
  mkWorld (Slave_SLAVES_CACHE w) (Slave_INFO_CACHE w) (Slave_SETTINGS_CACHE w)
          (Group_GROUPS_CACHE w) (Group_SLAVES_CACHE w) c (Pool_SLAVES_CACHE w)
          (log w) (calls w) (remote w).

Arguments logged : simpl never.
Arguments requested : simpl never.
Arguments with_slave_names : simpl never.
Arguments with_group_names : simpl never.
Arguments with_pool_names : simpl never.

Section Api.
Context {R : Type} {rs : RemoteService R}.

(** [logger.info(fmt, *args)] and [logger.warning(fmt, *args)] *)
Definition logger (l : LogLevel) (f : string) (a : list LogArg) : M (World R) unit :=
  modify (fun w => logged w (mkLog l f a)).

Definition logger_info := logger INFO.
Definition logger_warning := logger WARNING.

(** A request goes out, is recorded, and the farm manager answers. *)
Definition issue {A} (c : ApiCall) (answer : R -> A * R) : M (World R) A :=
  fun w => let (r, rem) := answer (remote w) in (Ok r, requested w c rem).

Definition list_names (q : Listing) : M (World R) (list string) :=
  issue q (answer_listing q).

Definition get_info (slave : string) : M (World R) dict :=
  issue (GetSlaveInfo slave) (answer_info slave).

Definition get_settings (slave : string) : M (World R) (list dict) :=
  issue (GetSlaveSettings slave) (answer_settings slave).

Definition change (c : Change) : M (World R) string :=
  issue c (answer_change c).

(** [api.<sub>.<request>(...)]: the attribute [sub] of [api] is looked
    up first. *)
Definition api {A} (sub : string) (request : M (World R) A) : M (World R) A :=
  if existsb (String.eqb sub) api_attributes
  then request
  else raise (AttributeError sub).
End Api.

(** ** slaves.py: [Status] *)

Inductive Status : Type :=
  | Unknown
  | Rendering
  | Idle
  | Offline
  | Stalled
  | StartingJob
  | HouseCleaning.

Definition Status_value (s : Status) : Z :=
  match s with
  | Unknown => 0
  | Rendering => 1
  | Idle => 2
  | Offline => 3
  | Stalled => 4
  | StartingJob => 5
  | HouseCleaning => 9
  end.

Definition Status_members : list Status :=
  [Unknown; Rendering; Idle; Offline; Stalled; StartingJob; HouseCleaning].

Definition Status_eqb (a b : Status) : bool := Z.eqb (Status_value a) (Status_value b).

(** [Status(value)]: the member with that value, [ValueError] if none. *)
Definition Status_call {W} (value : PyVal) : M W Status :=
  match find (fun s => py_eq (VInt (Status_value s)) value) Status_members with
  | Some s => ret s
  | None => raise ValueError
  end.

(** ** slaves.py: [Slave] *)

(** A [Slave] object: its name and the two fields [__init__] copies from
    the class-level caches. *)
Record Slave : Type := mkSlave {
  slave_name : string;
  _info : cell (option dict);
  _settings : cell (option (list Obj))
}.

Definition Slave_item (self : Slave) : DeadlineItem := mkItem CSlave (slave_name self).

(** The names an attribute lookup on a [Slave] finds: those [__init__]
    assigns, those of the class, those of [DeadlineItem]. *)
Definition Slave_attributes : list string :=
  [ "name"; "_info"; "_settings";
    "_SLAVES_CACHE"; "_INFO_CACHE"; "_SETTINGS_CACHE"; "_all"; "all"; "info";
    "settings"; "_write_settings"; "update_settings"; "exists"; "status";
    "offline"; "idle"; "rendering"; "stalled"; "enabled"; "disabled"; "enable";
    "disable"; "pools"; "groups"; "extra_info";
    "lower"; "upper" ].

(** [bool(v)] *)
Definition py_truthy (v : PyVal) : bool :=
  match v with
  | VNone => false
  | VBool b => b
  | VInt z => negb (Z.eqb z 0)
  | VStr s => negb (String.eqb s EmptyString)
  | VList l => match l with [] => false | _ => true end
  | VDict d => match d with [] => false | _ => true end
  end.

(** [x or None] for a list or a dictionary [x] *)
Definition or_None {A} (x : list A) : option (list A) :=
  match x with
  | [] => None
  | _ => Some x
  end.

Section Slave.
Context {R : Type} {rs : RemoteService R}.
Abbreviation Py := (M (World R)).

(** [Slave.__init__] *)
Definition Slave_init (name : raw) : Py Slave :=
  let n := item_str (item_init CSlave name) in
  info <- gets (fun w => cache_read (Slave_INFO_CACHE w) n) ;;
  settings <- gets (fun w => cache_read (Slave_SETTINGS_CACHE w) n) ;;
  ret (mkSlave n info settings).

(** [Slave._all] *)
Definition Slave__all : Py (list string) :=
  c <- gets Slave_SLAVES_CACHE ;;
  match c with
  | NOT_SET =>
      l <- api "Slaves" (list_names GetSlaveNames) ;;
      modify (fun w => with_slave_names w (Cached l)) ;;;
      ret l
  | Cached l => ret l
  end.

(** [Slave.info] *)
Definition Slave_info (self : Slave) : Py (option dict * Slave) :=
  match _info self with
  | NOT_SET =>
      d <- api "Slaves" (get_info (slave_name self)) ;;
      ret (or_None d, mkSlave (slave_name self) (Cached (or_None d)) (_settings self))
  | Cached i => ret (i, self)
  end.

(** [Slave.settings]: the first element of what was fetched. *)
Definition Slave_settings (self : Slave) : Py (Obj * Slave) :=
  r <- match _settings self with
       | NOT_SET =>
           l <- api "Slaves" (get_settings (slave_name self)) ;;
           let v := or_None (map obj_of_dict l) in
           ret (v, mkSlave (slave_name self) (_info self) (Cached v))
       | Cached v => ret (v, self)
       end ;;
  match fst r with
  | None => raise TypeError
  | Some [] => raise IndexError
  | Some (o :: _) => ret (o, snd r)
  end.

(** The slave after its top-level settings object was mutated. *)
Definition Slave_with_settings_object (self : Slave) (o : Obj) : Slave :=
  match _settings self with
  | Cached (Some (_ :: l)) => mkSlave (slave_name self) (_info self) (Cached (Some (o :: l)))
  | _ => self
  end.

(** [Slave._write_settings(kwargs)], called with [settings] left at
    [None]. *)
Definition Slave__write_settings (self : Slave) (kwargs : dict) : Py (bool * Slave) :=
  s <- Slave_settings self ;;
  let r := write_settings kwargs (fst s) in
  updated <- lift_result (fst r) ;;
  ret (updated, Slave_with_settings_object (snd s) (snd r)).

(** [Slave.update_settings], called with keyword arguments [kwargs] *)
Definition Slave_update_settings (self : Slave) (kwargs : dict) : Py (bool * Slave) :=
  logger_info "[%s] Updating settings: %r" [LStr (slave_name self); LKwargs kwargs] ;;;
  w <- Slave__write_settings self kwargs ;;
  r <- (if fst w
        then s <- Slave_settings (snd w) ;;
             result <- api "Slaves" (change (SaveSlaveSettings (dict_of_obj (fst s)))) ;;
             ret (result, snd s)
        else ret ("No updates required", snd w)) ;;
  logger_info (fst r) [] ;;;
  ret (existsb (String.eqb (fst r)) ["Success"; "No updates required"], snd r).

(** [self.data]: no attribute of that name exists on a [Slave]
    ([Slave_attributes]), so the lookup raises. *)
Definition Slave_data (self : Slave) : Py dict := raise (AttributeError "data").

(** [Slave.status] *)
Definition Slave_status (self : Slave) : Py Status :=
  data <- Slave_data self ;;
  stat <- dict_getitem data "Stat" ;;
  Status_call stat.

(** [Slave.offline] *)
Definition Slave_offline (self : Slave) : Py bool :=
  s <- Slave_status self ;; ret (Status_eqb s Offline).

(** [Slave.idle] *)
Definition Slave_idle (self : Slave) : Py bool :=
  s <- Slave_status self ;; ret (existsb (Status_eqb s) [Idle; HouseCleaning]).

(** [Slave.rendering] *)
Definition Slave_rendering (self : Slave) : Py bool :=
  s <- Slave_status self ;; ret (Status_eqb s Rendering).

(** [Slave.stalled] *)
Definition Slave_stalled (self : Slave) : Py bool :=
  s <- Slave_status self ;; ret (Status_eqb s Stalled).

(** [Slave.enabled] *)
Definition Slave_enabled (self : Slave) : Py (PyVal * Slave) :=
  s <- Slave_settings self ;;
  v <- dict_getitem (dict_of_obj (fst s)) "Enable" ;;
  ret (v, snd s).

(** [Slave.disabled] *)
Definition Slave_disabled (self : Slave) : Py (bool * Slave) :=
  e <- Slave_enabled self ;; ret (negb (py_truthy (fst e)), snd e).

(** [Slave.enable] and [Slave.disable] *)
Definition Slave_enable (self : Slave) : Py (bool * Slave) :=
  Slave_update_settings self [("Enable", VBool true)].

Definition Slave_disable (self : Slave) : Py (bool * Slave) :=
  Slave_update_settings self [("Enable", VBool false)].

(** [self.info[field].split(',')] *)
Definition Slave_info_names (self : Slave) (field : string) : Py (list string * Slave) :=
  i <- Slave_info self ;;
  match fst i with
  | None => raise TypeError
  | Some d =>
      v <- dict_getitem d field ;;
      match v with
      | VStr s => ret (str_split "," s, snd i)
      | _ => raise (AttributeError "split")
      end
  end.

(** [self.slave.info[field] = ','.join(map(str, self.items))], the patch
    every hook of [SlaveGroups] and [SlavePools] ends with. *)
Definition patch_info (field : string) : Method (World R) Slave unit :=
  slave <- self_source ;;
  l <- self_items ;;
  i <- outside (Slave_info slave) ;;
  set_source (snd i) ;;;
  match fst i with
  | None => raise TypeError
  | Some d =>
      set_source (mkSlave (slave_name (snd i))
                          (Cached (Some (dict_set d field (VStr (str_join "," (map item_str l))))))
                          (_settings (snd i)))
  end.

(** *** base.py: the hooks of [DeadlineList] itself, which only log *)
Definition DeadlineList_hooks {S} (describe : S -> DeadlineItem) : Hooks (World R) S :=
  mkHooks
    (fun item =>
       src <- self_source ;;
       outside (logger_info "Adding %r to %r" [LRaw (RItem item); LRaw (RItem (describe src))]))
    (fun item =>
       src <- self_source ;;
       outside (logger_info "Removing %r from %r" [LRaw item; LRaw (RItem (describe src))]))
    (fun previous =>
       src <- self_source ;;
       l <- self_items ;;
       outside (logger_info "Setting %r to use %r" [LRaw (RItem (describe src)); LItems l])).

(** *** groups.py: [SlaveGroups] *)
Definition SlaveGroups_hooks : Hooks (World R) Slave :=
  mkHooks
    (fun item =>
       trigger_add (DeadlineList_hooks Slave_item) item ;;;
       slave <- self_source ;;
       result <- outside (api "Slaves"
                            (change (AddGroupToSlave (slave_name slave) (item_str item)))) ;;
       outside (logger_info result []) ;;;
       patch_info "Grps")
    (fun item =>
       trigger_remove (DeadlineList_hooks Slave_item) item ;;;
       slave <- self_source ;;
       result <- outside (api "Slaves"
                            (change (RemoveGroupFromSlave (slave_name slave) (raw_str item)))) ;;
       outside (logger_info result []) ;;;
       patch_info "Grps")
    (fun previous =>
       trigger_set (DeadlineList_hooks Slave_item) previous ;;;
       slave <- self_source ;;
       groups <- self_items ;;
       result <- outside (api "Slaves"
                            (change (SetGroupsForSlave (OneName (slave_name slave))
                                                       (ManyNames (map item_str groups))))) ;;
       outside (logger_info result []) ;;;
       patch_info "Grps").

(** [SlaveGroups(slave, groups)] *)
Definition SlaveGroups_init (slave : Slave) (groups : list string) : DeadlineList Slave :=
  DeadlineList_init CGroup slave (map RStr groups).

(** *** pools.py: [SlavePools] *)
Definition SlavePools_hooks : Hooks (World R) Slave :=
  mkHooks
    (fun pool =>
       trigger_add (DeadlineList_hooks Slave_item) pool ;;;
       slave <- self_source ;;
       result <- outside (api "Slaves"
                            (change (AddPoolToSlave (slave_name slave) (item_str pool)))) ;;
       outside (logger_info result []) ;;;
       patch_info "Pools")
    (fun pool =>
       trigger_remove (DeadlineList_hooks Slave_item) pool ;;;
       slave <- self_source ;;
       result <- outside (api "Slaves"
                            (change (RemovePoolFromSlave (slave_name slave) (raw_str pool)))) ;;
       outside (logger_info result []) ;;;
       patch_info "Pools")
    (fun previous =>
       trigger_set (DeadlineList_hooks Slave_item) previous ;;;
       slave <- self_source ;;
       pools <- self_items ;;
       result <- outside (api "Slaves"
                            (change (SetPoolsForSlave (OneName (slave_name slave))
                                                      (ManyNames (map item_str pools))))) ;;
       outside (logger_info result []) ;;;
       patch_info "Pools").

(** [SlavePools(slave, pools)]: the names go through [Pool] twice. *)
Definition SlavePools_init (slave : Slave) (pools : list string) : DeadlineList Slave :=
  DeadlineList_init CPool slave (map (fun p => RItem (item_init CPool (RStr p))) pools).

(** [Slave.groups], the getter *)
Definition Slave_groups (self : Slave) : Py (DeadlineList Slave) :=
  g <- Slave_info_names self "Grps" ;;
  ret (SlaveGroups_init (snd g) (fst g)).

(** [Slave.groups = groups], the setter: [self.groups[:] = groups] *)
Definition Slave_groups_set (self : Slave) (groups : list raw) : Py Slave :=
  l <- Slave_groups self ;;
  r <- on_list l (DeadlineList_setitem_slice SlaveGroups_hooks slice_all groups) ;;
  ret (source (snd r)).

(** [Slave.pools], getter and setter *)
Definition Slave_pools (self : Slave) : Py (DeadlineList Slave) :=
  p <- Slave_info_names self "Pools" ;;
  ret (SlavePools_init (snd p) (fst p)).

Definition Slave_pools_set (self : Slave) (pools : list raw) : Py Slave :=
  l <- Slave_pools self ;;
  r <- on_list l (DeadlineList_setitem_slice SlavePools_hooks slice_all pools) ;;
  ret (source (snd r)).
End Slave.

(** ** Python built-ins used by [Group] and [Pool] *)

(** What [next] may be handed: a [map] object, which is an iterator, or a
    sequence such as a [DeadlineList], which can be iterated over but is no
    iterator. *)
Inductive NextArg (A : Type) : Type :=
  | MapObject (pending : list A)
  | Sequence (elements : list A).

Arguments MapObject {A} pending.
Arguments Sequence {A} elements.

(** [next(x)] *)
Definition builtin_next {A} (x : NextArg A) : Result A :=
  match x with
  | MapObject [] => Raise StopIteration
  | MapObject (a :: _) => Ok a
  | Sequence _ => Raise TypeError
  end.

(** The names bound in the module pools.py when it runs: its imports (the
    import of [Slave] is under [if TYPE_CHECKING:], which is false at run
    time), its logger and its two classes. *)
Definition pools_globals : list string :=
  [ "annotations"; "logging"; "defaultdict"; "Enum"; "Any"; "Dict"; "Iterable";
    "Generator"; "List"; "Optional"; "Tuple"; "Union"; "TYPE_CHECKING";
    "DeadlineItem"; "DeadlineList"; "NOT_SET"; "api"; "logger"; "Pool"; "SlavePools" ].

(** Reading a global name of a module. *)
Definition global_name {W} (globals : list string) (n : string) : M W unit :=
  if existsb (String.eqb n) globals then ret tt else raise (NameError n).

(** [for x in l: body(x)], threading a value through the iterations. *)
Fixpoint for_each {W A B} (l : list A) (body : A -> B -> M W B) (b : B) : M W B :=
  match l with
  | [] => ret b
  | x :: l' => b' <- body x b ;; for_each l' body b'
  end.

(** ** groups.py: [Group]; slaves.py: [GroupSlaves]; pools.py: [Pool] *)

Record Group : Type := mkGroup { group_name : string; group_slaves_cache : cell (list string) }.

Record Pool : Type := mkPool { pool_name : string; pool_slaves_cache : cell (list string) }.

Definition Group_item (self : Group) : DeadlineItem := mkItem CGroup (group_name self).
Definition Pool_item (self : Pool) : DeadlineItem := mkItem CPool (pool_name self).

Section Group.
Context {R : Type} {rs : RemoteService R}.
Variable str_hash : string -> Z.
Abbreviation Py := (M (World R)).

(** [x in s] for a set [s]: same hash and equal. *)
Definition set_contains (s : list DeadlineItem) (x : DeadlineItem) : bool :=
  existsb (fun e => Z.eqb (item_hash str_hash e) (item_hash str_hash x) && item_eq e (RItem x)) s.

(** [set(l)].  The order in which Python iterates over a set is not
    specified; here it is the order of first insertion. *)
Definition py_set (l : list DeadlineItem) : list DeadlineItem :=
  fold_left (fun s x => if set_contains s x then s else s ++ [x]) l [].

(** [a - b] on sets *)
Definition set_difference (a b : list DeadlineItem) : list DeadlineItem :=
  List.filter (fun x => negb (set_contains b x)) a.

(** [Group.__init__] *)
Definition Group_init (name : raw) : Py Group :=
  let n := item_str (item_init CGroup name) in
  c <- gets (fun w => cache_read (Group_SLAVES_CACHE w) n) ;;
  ret (mkGroup n c).

Definition set_Group_GROUPS_CACHE (c : cell (list string)) : Py unit :=
  modify (fun w => with_group_names w c).

(** [Group._all] *)
Definition Group__all : Py (list string) :=
  c <- gets Group_GROUPS_CACHE ;;
  match c with
  | NOT_SET =>
      l <- api "Groups" (list_names GetGroupNames) ;;
      set_Group_GROUPS_CACHE (Cached l) ;;;
      ret l
  | Cached l => ret l
  end.

(** [Group._slaves] *)
Definition Group__slaves (self : Group) : Py (list string * Group) :=
  match group_slaves_cache self with
  | NOT_SET =>
      l <- api "Slaves" (list_names (GetSlaveNamesInGroup (group_name self))) ;;
      ret (l, mkGroup (group_name self) (Cached l))
  | Cached l => ret (l, self)
  end.

(** [GroupSlaves(group, slaves)] *)
Definition GroupSlaves_init (group : Group) (slaves : list string) : DeadlineList Group :=
  DeadlineList_init CSlave group (map RStr slaves).

(** [Group.slaves], the getter *)
Definition Group_slaves (self : Group) : Py (DeadlineList Group) :=
  s <- Group__slaves self ;;
  ret (GroupSlaves_init (snd s) (fst s)).

(** [Slave(slave).groups.remove(group)] *)
Definition remove_group_from (group : Group) (slave : raw) : Py unit :=
  s <- Slave_init slave ;;
  l <- Slave_groups s ;;
  on_list l (DeadlineList_remove SlaveGroups_hooks (RItem (Group_item group))) ;;;
  ret tt.

(** [Slave(slave).groups.append(group)] *)
Definition append_group_to (group : Group) (slave : raw) : Py unit :=
  s <- Slave_init slave ;;
  l <- Slave_groups s ;;
  on_list l (DeadlineList_append SlaveGroups_hooks (RItem (Group_item group))) ;;;
  ret tt.

(** The hooks of [GroupSlaves] *)
Definition GroupSlaves_hooks : Hooks (World R) Group :=
  mkHooks
    (fun slave =>
       group <- self_source ;;
       outside (append_group_to group (RItem slave)))
    (fun slave =>
       group <- self_source ;;
       outside (remove_group_from group slave))
    (fun previous =>
       trigger_set (DeadlineList_hooks Group_item) previous ;;;
       group <- self_source ;;
       slaves <- self_items ;;
       let old := py_set previous in
       let new := py_set slaves in
       result <- outside (api "Slaves"
                            (change (SetGroupsForSlave
                                       (ManyNames (map item_str (set_difference new old)))
                                       (OneName (group_name group))))) ;;
       outside (logger_info result []) ;;;
       outside (for_each (set_difference old new)
                         (fun slave _ => remove_group_from group (RItem slave)) tt)).

(** [Group.slaves = slaves], the setter: [self.slaves[:] = slaves] *)
Definition Group_slaves_set (self : Group) (slaves : list raw) : Py Group :=
  l <- Group_slaves self ;;
  r <- on_list l (DeadlineList_setitem_slice GroupSlaves_hooks slice_all slaves) ;;
  ret (source (snd r)).

(** [Group.create]; the request is reached through [api.Group]. *)
Definition Group_create (self : Group) : Py bool :=
  logger_info "Creating group: %s" [LStr (group_name self)] ;;;
  result <- api "Group" (change (AddGroup (group_name self))) ;;
  logger_info result [] ;;;
  c <- gets Group_GROUPS_CACHE ;;
  (if String.eqb result "Success"
   then match c with
        | Cached l => set_Group_GROUPS_CACHE (Cached (l ++ [group_name self]))
        | NOT_SET => ret tt
        end
   else ret tt) ;;;
  ret (String.eqb result "Success").

(** [Group.delete].  The first component of the result of the membership
    check tells whether the method goes on to the deletion. *)
Definition Group_delete (self : Group) (force : bool) : Py bool :=
  logger_info "Deleting group: %s" [LStr (group_name self)] ;;;
  go_on <- (if negb force
            then l <- Group_slaves self ;;
                 match builtin_next (Sequence (items l)) with
                 | Raise StopIteration => ret true
                 | Raise e => raise e
                 | Ok _ =>
                     logger_warning
                       "Preventing deletion as slaves are currently assigned. Use `force=True` to bypass this check."
                       [] ;;;
                     ret false
                 end
            else ret true) ;;
  if go_on : bool
  then
    result <- api "Groups" (change (DeleteGroup (group_name self))) ;;
    logger_info result [] ;;;
    c <- gets Group_GROUPS_CACHE ;;
    (if String.eqb result "Success"
     then match c with
          | Cached l =>
              l' <- lift_result (names_remove l (group_name self)) ;;
              set_Group_GROUPS_CACHE (Cached l')
          | NOT_SET => ret tt
          end
     else ret tt) ;;;
    ret (String.eqb result "Success")
  else ret false.

(** [Pool.__init__] *)
Definition Pool_init (name : raw) : Py Pool :=
  let n := item_str (item_init CPool name) in
  c <- gets (fun w => cache_read (Pool_SLAVES_CACHE w) n) ;;
  ret (mkPool n c).

Definition set_Pool_POOLS_CACHE (c : cell (list string)) : Py unit :=
  modify (fun w => with_pool_names w c).

(** [Pool._all] *)
Definition Pool__all : Py (list string) :=
  c <- gets Pool_POOLS_CACHE ;;
  match c with
  | NOT_SET =>
      l <- api "Pools" (list_names GetPoolNames) ;;
      set_Pool_POOLS_CACHE (Cached l) ;;;
      ret l
  | Cached l => ret l
  end.

(** [Pool._slaves] *)
Definition Pool__slaves (self : Pool) : Py (list string * Pool) :=
  match pool_slaves_cache self with
  | NOT_SET =>
      l <- api "Slaves" (list_names (GetSlaveNamesInPool (pool_name self))) ;;
      ret (l, mkPool (pool_name self) (Cached l))
  | Cached l => ret (l, self)
  end.

(** [Pool.slaves]: [map(Slave, self._slaves)], where [Slave] is read as a
    global of pools.py before the arguments are evaluated. *)
Definition Pool_slaves (self : Pool) : Py (NextArg DeadlineItem * Pool) :=
  global_name pools_globals "Slave" ;;;
  s <- Pool__slaves self ;;
  ret (MapObject (map (fun n => item_init CSlave (RStr n)) (fst s)), snd s).

(** [Pool.create] *)
Definition Pool_create (self : Pool) : Py bool :=
  logger_info "Creating pool: %s" [LStr (pool_name self)] ;;;
  result <- api "Pools" (change (AddPool (pool_name self))) ;;
  logger_info result [] ;;;
  c <- gets Pool_POOLS_CACHE ;;
  (if String.eqb result "Success"
   then match c with
        | Cached l => set_Pool_POOLS_CACHE (Cached (l ++ [pool_name self]))
        | NOT_SET => ret tt
        end
   else ret tt) ;;;
  ret (String.eqb result "Success").

(** [Pool.delete] *)
Definition Pool_delete (self : Pool) (force : bool) : Py bool :=
  logger_info "Deleting pool: %s" [LStr (pool_name self)] ;;;
  go_on <- (if negb force
            then s <- Pool_slaves self ;;
                 match builtin_next (fst s) with
                 | Raise StopIteration => ret true
                 | Raise e => raise e
                 | Ok _ =>
                     logger_warning
                       "Preventing deletion as slaves are currently assigned. Use `force=True` to bypass this check."
                       [] ;;;
                     ret false
                 end
            else ret true) ;;
  if go_on : bool
  then
    result <- api "Pools" (change (DeletePool (pool_name self))) ;;
    logger_info result [] ;;;
    c <- gets Pool_POOLS_CACHE ;;
    (if String.eqb result "Success"
     then match c with
          | Cached l =>
              l' <- lift_result (names_remove l (pool_name self)) ;;
              set_Pool_POOLS_CACHE (Cached l')
          | NOT_SET => ret tt
          end
     else ret tt) ;;;
    ret (String.eqb result "Success")
  else ret false.
End Group.

(** ** A farm manager to run the sources against

    An in-memory farm: slaves with their groups, pools, status code and
    enabled flag, the known groups and pools, and a switch telling whether
    the farm accepts changes.  A farm that does not accept changes answers
    every changing request with an error status and stays as it is. *)

Record FarmSlave : Type := mkFarmSlave {
  fs_name : string;
  fs_groups : list string;
  fs_pools : list string;
  fs_stat : Z;
  fs_enable : PyVal
}.

Record Farm : Type := mkFarm {
  farm_slaves : list FarmSlave;
  farm_groups : list string;
  farm_pools : list string;
  farm_accepts : bool
}.

Definition farm_find (f : Farm) (n : string) : option FarmSlave :=
  find (fun s => String.eqb (fs_name s) n) (farm_slaves f).

Definition farm_info (s : FarmSlave) : dict :=
  [ ("Name", VStr (fs_name s));
    ("Grps", VStr (str_join "," (fs_groups s)));
    ("Pools", VStr (str_join "," (fs_pools s)));
    ("Stat", VInt (fs_stat s)) ].

Definition farm_settings (s : FarmSlave) : dict :=
  [ ("Name", VStr (fs_name s)); ("Enable", fs_enable s); ("ExDic", VDict [("Owner", VStr EmptyString)]) ].

Definition names_of (n : Names) : list string :=
  match n with
  | OneName s => [s]
  | ManyNames l => l
  end.

Definition name_in (l : list string) (n : string) : bool := existsb (String.eqb n) l.

(** The farm after [f] was applied to the slaves named in [names]. *)
Definition farm_change (fm : Farm) (names : list string) (f : FarmSlave -> FarmSlave) : Farm :=
  mkFarm (map (fun s => if name_in names (fs_name s) then f s else s) (farm_slaves fm))
         (farm_groups fm) (farm_pools fm) (farm_accepts fm).

Definition with_groups (g : list string -> list string) (s : FarmSlave) : FarmSlave :=
  mkFarmSlave (fs_name s) (g (fs_groups s)) (fs_pools s) (fs_stat s) (fs_enable s).

Definition with_pools (g : list string -> list string) (s : FarmSlave) : FarmSlave :=
  mkFarmSlave (fs_name s) (fs_groups s) (g (fs_pools s)) (fs_stat s) (fs_enable s).

Definition with_enable (v : PyVal) (s : FarmSlave) : FarmSlave :=
  mkFarmSlave (fs_name s) (fs_groups s) (fs_pools s) (fs_stat s) v.

Definition without (n : string) (l : list string) : list string :=
  List.filter (fun x => negb (String.eqb x n)) l.

Definition refused : string := "Error: the farm manager refused the request".

(** A changing request: applied and answered [Success] when the farm
    accepts changes, refused otherwise. *)
Definition farm_apply (fm : Farm) (changed : Farm) : string * Farm :=
  if farm_accepts fm then ("Success", changed) else (refused, fm).

Definition farm_listing (q : Listing) (fm : Farm) : list string * Farm :=
  match q with
  | GetSlaveNames => (map fs_name (farm_slaves fm), fm)
  | GetSlaveNamesInGroup g =>
      (map fs_name (List.filter (fun s => name_in (fs_groups s) g) (farm_slaves fm)), fm)
  | GetSlaveNamesInPool p =>
      (map fs_name (List.filter (fun s => name_in (fs_pools s) p) (farm_slaves fm)), fm)
  | GetGroupNames => (farm_groups fm, fm)
  | GetPoolNames => (farm_pools fm, fm)
  end.

Definition farm_get_info (n : string) (fm : Farm) : dict * Farm :=
  (match farm_find fm n with Some s => farm_info s | None => [] end, fm).

Definition farm_get_settings (n : string) (fm : Farm) : list dict * Farm :=
  (match farm_find fm n with Some s => [farm_settings s] | None => [] end, fm).

Definition farm_change_request (c : Change) (fm : Farm) : string * Farm :=
  match c with
  | SaveSlaveSettings d =>
      match dict_get d "Name", dict_get d "Enable" with
      | Some (VStr n), Some e => farm_apply fm (farm_change fm [n] (with_enable e))
      | _, _ => (refused, fm)
      end
  | SetGroupsForSlave slaves groups =>
      farm_apply fm (farm_change fm (names_of slaves) (with_groups (fun _ => names_of groups)))
  | SetPoolsForSlave slaves pools =>
      farm_apply fm (farm_change fm (names_of slaves) (with_pools (fun _ => names_of pools)))
  | AddGroupToSlave s g =>
      farm_apply fm (farm_change fm [s] (with_groups (fun l => without g l ++ [g])))
  | RemoveGroupFromSlave s g =>
      farm_apply fm (farm_change fm [s] (with_groups (without g)))
  | AddPoolToSlave s p =>
      farm_apply fm (farm_change fm [s] (with_pools (fun l => without p l ++ [p])))
  | RemovePoolFromSlave s p =>
      farm_apply fm (farm_change fm [s] (with_pools (without p)))
  | AddGroup g =>
      farm_apply fm (mkFarm (farm_slaves fm) (without g (farm_groups fm) ++ [g])
                            (farm_pools fm) (farm_accepts fm))
  | DeleteGroup g =>
      farm_apply fm (mkFarm (farm_slaves fm) (without g (farm_groups fm))
                            (farm_pools fm) (farm_accepts fm))
  | AddPool p =>
      farm_apply fm (mkFarm (farm_slaves fm) (farm_groups fm)
                            (without p (farm_pools fm) ++ [p]) (farm_accepts fm))
  | DeletePool p =>
      farm_apply fm (mkFarm (farm_slaves fm) (farm_groups fm)
                            (without p (farm_pools fm)) (farm_accepts fm))
  end.

#[global] Instance Farm_service : RemoteService Farm :=
  {| answer_listing := farm_listing;
     answer_info := farm_get_info;
     answer_settings := farm_get_settings;
     answer_change := farm_change_request |}.

(** A small farm: three slaves, two groups, two pools. *)
Definition node_1 : FarmSlave := mkFarmSlave "node-1" ["gpu"; "linux"] ["night"] 2 (VBool true).
Definition node_2 : FarmSlave := mkFarmSlave "node-2" ["linux"] ["day"] 1 (VBool false).
Definition node_3 : FarmSlave := mkFarmSlave "node-3" ["gpu"] ["day"; "night"] 3 (VBool false).

Definition small_farm (accepts : bool) : Farm :=
  mkFarm [node_1; node_2; node_3] ["gpu"; "linux"] ["day"; "night"] accepts.

(** A hash of strings for running the sources: any function will do. *)
Definition length_hash (s : string) : Z := Z.of_nat (String.length s).

(** ** Scenarios of the specification, as programs *)

Section Scenarios.
Context {R : Type} {rs : RemoteService R}.
Variable str_hash : string -> Z.

(** [a = Slave(n); a.info; b = Slave(n); b.info] *)
Definition info_read_twice (n : string) : M (World R) (option dict * option dict) :=
  a <- Slave_init (RStr n) ;;
  ia <- Slave_info a ;;
  b <- Slave_init (RStr n) ;;
  ib <- Slave_info b ;;
  ret (fst ia, fst ib).

(** [a = Slave(n); a.settings; b = Slave(n); b.settings] *)
Definition settings_read_twice (n : string) : M (World R) (Obj * Obj) :=
  a <- Slave_init (RStr n) ;;
  sa <- Slave_settings a ;;
  b <- Slave_init (RStr n) ;;
  sb <- Slave_settings b ;;
  ret (fst sa, fst sb).

(** [Group(g).slaves = slaves] *)
Definition Group_assign_slaves (g : string) (slaves : list raw) : M (World R) Group :=
  G <- Group_init (RStr g) ;;
  Group_slaves_set str_hash G slaves.

(** [g in Slave(s).groups] *)
Definition Slave_in_group (s g : string) : M (World R) bool :=
  S <- Slave_init (RStr s) ;;
  l <- Slave_groups S ;;
  ret (py_list_contains (items l) (RStr g)).
End Scenarios.

(** ** base.py: the ordering of [DeadlineItem] *)





(** ** Calls on the proxies of a slave, as programs *)

Section Proxies.
Context {R : Type} {rs : RemoteService R}.

(** [self.groups.append(group)] and [self.groups.remove(group)].  The
    proxy is made by the getter and dropped after the call; the slave is
    returned as the call leaves it, for what is done next on the same
    object. *)
Definition Slave_groups_append (self : Slave) (group : raw) : M (World R) Slave :=
  l <- Slave_groups self ;;
  r <- on_list l (DeadlineList_append SlaveGroups_hooks group) ;;
  ret (source (snd r)).

Definition Slave_groups_remove (self : Slave) (group : raw) : M (World R) Slave :=
  l <- Slave_groups self ;;
  r <- on_list l (DeadlineList_remove SlaveGroups_hooks group) ;;
  ret (source (snd r)).

(** [[str(g) for g in self.groups]] and [[str(p) for p in self.pools]] *)
Definition Slave_group_names (self : Slave) : M (World R) (list string) :=
  l <- Slave_groups self ;; ret (map item_str (items l)).

Definition Slave_pool_names (self : Slave) : M (World R) (list string) :=
  l <- Slave_pools self ;; ret (map item_str (items l)).
End Proxies.

(** ** [all] and [exists] *)

(** [f] applied to the elements one after the other, as [map(f, l)] does
    when it is consumed. *)
Fixpoint map_M {W A B} (f : A -> M W B) (l : list A) : M W (list B) :=
  match l with
  | [] => ret []
  | x :: l' => y <- f x ;; ys <- map_M f l' ;; ret (y :: ys)
  end.

(** [x in it] for an iterable [it] that has no [__contains__], such as a
    [map] object or a list of items: some element [z] with [x == z]. *)
Definition py_in (x : DeadlineItem) (it : list DeadlineItem) : bool :=
  existsb (fun z => item_eq x (RItem z)) it.

(** [DeadlineItem.all] and [DeadlineItem.exists], as the base class has
    them. *)
Definition DeadlineItem_all : list DeadlineItem := [].

Definition DeadlineItem_exists (self : DeadlineItem) : bool := py_in self DeadlineItem_all.

Section Existence.
Context {R : Type} {rs : RemoteService R}.

(** [Group.all] and [Pool.all]: [map(cls, cls._all())].  The objects are
    made when the map is consumed; making one reads the caches of the
    class and changes nothing. *)
Definition Group_all : M (World R) (list Group) :=
  names <- Group__all ;; map_M (fun n => Group_init (RStr n)) names.

Definition Pool_all : M (World R) (list Pool) :=
  names <- Pool__all ;; map_M (fun n => Pool_init (RStr n)) names.

(** [Group.exists] and [Pool.exists], inherited: [self in self.all()] *)
Definition Group_exists (self : Group) : M (World R) bool :=
  l <- Group_all ;; ret (py_in (Group_item self) (map Group_item l)).

Definition Pool_exists (self : Pool) : M (World R) bool :=
  l <- Pool_all ;; ret (py_in (Pool_item self) (map Pool_item l)).
End Existence.

(** ** slaves.py: [ExtraInfo] *)

(** A key of the extra info: the number of a column, or a key of the
    dictionary [ExDic]. *)
Inductive ExtraKey : Type :=
  | ExColumn (i : Z)
  | ExEntry (k : string).

(** [str(i)] for an integer *)
Definition int_str (i : Z) : string := NilZero.string_of_int (Z.to_int i).

(** [f'Ex{item}'] *)
Definition column_key (i : Z) : string := "Ex" ++ int_str i.

(** The keyword arguments [__setitem__] hands to [update_settings]. *)
Definition extra_update (item : ExtraKey) (value : PyVal) : dict :=
  match item with
  | ExColumn i => [(column_key i, value)]
  | ExEntry k => [("ExDic", VDict [(k, value)])]
  end.

(** The entry of the settings an extra info key names, when [ExDic] is a
    dictionary of the settings. *)
Definition extra_node (o : Obj) (item : ExtraKey) : option Node :=
  match item with
  | ExColumn i => dict_get o (column_key i)
  | ExEntry k =>
      match dict_get o "ExDic" with
      | Some (NDict es) => dict_get es k
      | _ => None
      end
  end.

(** The settings after the entry an extra info key names was given the
    value [v]. *)
Definition extra_store (o : Obj) (item : ExtraKey) (v : PyVal) : Obj :=
  match item with
  | ExColumn i => entry_update o (column_key i) (fun n => node_store n v)
  | ExEntry k =>
      entry_update o "ExDic"
        (node_update_entries (fun es => entry_update es k (fun n => node_store n v)))
  end.

(** The key [KeyError] names when the settings lack the entry. *)
Definition extra_key_name (item : ExtraKey) : string :=
  match item with
  | ExColumn i => column_key i
  | ExEntry k => k
  end.

Section ExtraInfo.
Context {R : Type} {rs : RemoteService R}.

(** [ExtraInfo.__getitem__]; indexing anything but a dictionary with a
    string raises [TypeError]. *)
Definition ExtraInfo_getitem (slave : Slave) (item : ExtraKey) : M (World R) (PyVal * Slave) :=
  s <- Slave_settings slave ;;
  match item with
  | ExColumn i =>
      v <- dict_getitem (dict_of_obj (fst s)) (column_key i) ;;
      ret (v, snd s)
  | ExEntry k =>
      ex <- dict_getitem (dict_of_obj (fst s)) "ExDic" ;;
      match ex with
      | VDict d => v <- dict_getitem d k ;; ret (v, snd s)
      | _ => raise TypeError
      end
  end.

(** [ExtraInfo.__setitem__]: what [update_settings] returns is dropped. *)
Definition ExtraInfo_setitem (slave : Slave) (item : ExtraKey) (value : PyVal)
  : M (World R) Slave :=
  r <- Slave_update_settings slave (extra_update item value) ;;
  ret (snd r).

(** [ExtraInfo.__delitem__] *)
Definition ExtraInfo_delitem (slave : Slave) (item : ExtraKey) : M (World R) Slave :=
  ExtraInfo_setitem slave item (VStr EmptyString).
End ExtraInfo.

(** ** Values Python can build *)


(** ** Calls on the proxy of a group, as programs *)

Section GroupMembers.
Context {R : Type} {rs : RemoteService R}.
Variable str_hash : string -> Z.

(** [self.slaves.append(slave)]; the group is returned as the call leaves
    it. *)
Definition Group_slaves_append (self : Group) (slave : raw) : M (World R) Group :=
  l <- Group_slaves self ;;
  r <- on_list l (DeadlineList_append (GroupSlaves_hooks str_hash) slave) ;;
  ret (source (snd r)).
End GroupMembers.


(** * Properties *)

(** ** Case mappings and item equality *)



Lemma item_eq_names (self : DeadlineItem) (value : raw) :
  item_eq self value = String.eqb (str_lower (name self)) (str_lower (raw_str value)).
Proof.
  unfold item_eq. destruct (isinstance value (cls self)); destruct value; reflexivity.
Qed.

Lemma item_init_name (c : Cls) (value : raw) : name (item_init c value) = raw_str value.
Proof. destruct value; reflexivity. Qed.

Lemma item_init_cls (c : Cls) (value : raw) : cls (item_init c value) = c.
Proof. reflexivity. Qed.


Lemma item_repr_eq (a b : DeadlineItem) :
  cls a = cls b ->
  str_lower (name a) = str_lower (name b) ->
  item_repr a = item_repr b.
Proof.
  intros Hc Hn. unfold item_repr. rewrite Hc, Hn. reflexivity.
Qed.



(** ** [DeadlineList]: every mutation runs one hook *)



Lemma setslice_all {A} (l v : list A) : py_list_setslice l slice_all v = Ok v.
Proof.
  unfold py_list_setslice, slice_all, adjust_bound, py_len. simpl.
  rewrite Z.max_r by lia. rewrite Nat2Z.id.
  rewrite drop_all, app_nil_r. reflexivity.
Qed.

Section Recording.
Context {S : Type}.
Variables (P : DeadlineList S) (tr : list HookCall).
Let T := item_init (item_type P).

Lemma append_recorded (x : raw) :
  DeadlineList_append recording x (tr, P)
  = (Ok tt, (tr ++ [OnAdd (T x)], with_items P (items P ++ [T x]))).
Proof. reflexivity. Qed.


Lemma remove_recorded (x : raw) :
  DeadlineList_remove recording x (tr, P)
  = match py_list_remove (items P) (T x) with
    | Ok l => (Ok tt, (tr ++ [OnRemove x], with_items P l))
    | Raise e => (Raise e, (tr, P))
    end.
Proof.
  unfold DeadlineList_remove, bind, lift_result, self_items, self_item_type, gets. simpl.
  fold T. destruct (py_list_remove (items P) (T x)); reflexivity.
Qed.


Lemma setitem_slice_recorded (s : slice) (xs : list raw) :
  DeadlineList_setitem_slice recording s xs (tr, P)
  = match py_list_setslice (items P) s (map T xs) with
    | Ok l => (Ok tt, (tr ++ [OnSet (items P)], with_items P l))
    | Raise e => (Raise e, (tr, P))
    end.
Proof.
  unfold DeadlineList_setitem_slice, bind, lift_result, self_items, self_item_type, gets. simpl.
  fold T. destruct (py_list_setslice (items P) s (map T xs)); reflexivity.
Qed.

Lemma delitem_recorded (ix : index) :
  DeadlineList_delitem recording ix (tr, P)
  = match (match ix with
           | IInt i => py_list_delitem (items P) i
           | ISlice s => py_list_delslice (items P) s
           end) with
    | Ok l => (Ok tt, (tr ++ [OnSet (items P)], with_items P l))
    | Raise e => (Raise e, (tr, P))
    end.
Proof.
  unfold DeadlineList_delitem, bind, lift_result, self_items, gets. simpl.
  destruct ix as [i|s];
    [destruct (py_list_delitem (items P) i) | destruct (py_list_delslice (items P) s)];
    reflexivity.
Qed.

End Recording.



(** Python's answers on a few lists, as a check of the list operations. *)
Example setslice_middle :
  py_list_setslice [1; 2; 3; 4; 5] (mkSlice (Some 1%Z) (Some 3%Z) None) [9] = Ok [1; 9; 4; 5].
Proof. reflexivity. Qed.

Example setslice_stride :
  py_list_setslice [1; 2; 3; 4; 5] (mkSlice None None (Some 2%Z)) [7; 8; 9] = Ok [7; 2; 8; 4; 9].
Proof. reflexivity. Qed.

Example setslice_stride_length :
  py_list_setslice [1; 2; 3; 4; 5] (mkSlice None None (Some 2%Z)) [7; 8] = Raise ValueError.
Proof. reflexivity. Qed.

Example setslice_backwards :
  py_list_setslice [1; 2; 3] (mkSlice None None (Some (-1)%Z)) [7; 8; 9] = Ok [9; 8; 7].
Proof. reflexivity. Qed.

Example delslice_stride :
  py_list_delslice [1; 2; 3; 4; 5] (mkSlice (Some (-1)%Z) None (Some (-2)%Z)) = Ok [2; 4].
Proof. reflexivity. Qed.

Example insert_clamped :
  py_list_insert [1; 2; 3] (-10) 0 = [0; 1; 2; 3] /\ py_list_insert [1; 2; 3] 10 0 = [1; 2; 3; 0]
  /\ py_list_insert [1; 2; 3] (-1) 0 = [1; 2; 0; 3].
Proof. repeat split. Qed.

Example pop_empty : py_list_pop ([] : list nat) (-1) = Raise IndexError.
Proof. reflexivity. Qed.

(** ** [DeadlineList.remove] *)

Lemma list_remove_first_found {A} (same : A -> bool) (l : list A) :
  existsb same l = true ->
  exists before e after,
    l = before ++ e :: after /\ same e = true /\ existsb same before = false /\
    list_remove_first same l = Ok (before ++ after).
Proof.
  induction l as [|a l IH]; simpl; intros H.
  - discriminate.
  - destruct (same a) eqn:Ha.
    + exists [], a, l. repeat split; assumption.
    + simpl in H. destruct (IH H) as (before & e & after & -> & He & Hb & Hr).
      exists (a :: before), e, after. simpl. rewrite Ha, Hr. repeat split; assumption.
Qed.

Lemma list_remove_first_missing {A} (same : A -> bool) (l : list A) :
  existsb same l = false -> list_remove_first same l = Raise ValueError.
Proof.
  induction l as [|a l IH]; simpl; intros H.
  - reflexivity.
  - apply orb_false_iff in H as [Ha Hl]. rewrite Ha, (IH Hl). reflexivity.
Qed.

(** C6. [P.remove(x)]: when some element equals [T(x)], the first such
    element, and only it, leaves the list and [trigger_remove] runs; when
    none does, the call raises [ValueError], no hook runs and the list is
    as it was. *)
Theorem DeadlineList_remove_first_match_or_ValueError {S}
    (P : DeadlineList S) (tr : list HookCall) (x : raw) :
  let v := item_init (item_type P) x in
  (py_list_contains (items P) (RItem v) = true ->
   exists before e after,
     items P = before ++ e :: after /\
     item_eq e (RItem v) = true /\
     py_list_contains before (RItem v) = false /\
     DeadlineList_remove recording x (tr, P)
     = (Ok tt, (tr ++ [OnRemove x], with_items P (before ++ after)))) /\
  (py_list_contains (items P) (RItem v) = false ->
   DeadlineList_remove recording x (tr, P) = (Raise ValueError, (tr, P))).
Proof.
  intros v. subst v. split; intros H.
  - destruct (list_remove_first_found _ _ H) as (before & e & after & Hl & He & Hb & Hr).
    exists before, e, after. repeat split; try assumption.
    rewrite remove_recorded. unfold py_list_remove. rewrite Hr. reflexivity.
  - rewrite remove_recorded. unfold py_list_remove.
    rewrite (list_remove_first_missing _ _ H). reflexivity.
Qed.

Lemma DeadlineList_remove_first_match_or_ValueError_witness :
  let P := DeadlineList_init CGroup tt [RStr "gpu"; RStr "CPU"; RStr "cpu"] in
  (exists before e after,
     items P = before ++ e :: after /\
     item_eq e (RItem (mkItem CGroup "cpu")) = true /\
     py_list_contains before (RItem (mkItem CGroup "cpu")) = false /\
     DeadlineList_remove recording (RStr "cpu") ([], P)
     = (Ok tt, ([OnRemove (RStr "cpu")], with_items P (before ++ after)))) /\
  DeadlineList_remove recording (RStr "ram") ([], P) = (Raise ValueError, ([], P)).
Proof.
  intros P. split.
  - apply (proj1 (DeadlineList_remove_first_match_or_ValueError P [] (RStr "cpu"))).
    reflexivity.
  - apply (proj2 (DeadlineList_remove_first_match_or_ValueError P [] (RStr "ram"))).
    reflexivity.
Defined.


(** ** The state of the process: what each update leaves alone *)

Create Rewrite HintDb world.

Lemma Slave_SLAVES_CACHE_logged {R} (w : World R) (rec : LogRecord) :
  Slave_SLAVES_CACHE (logged w rec) = Slave_SLAVES_CACHE w.
Proof. reflexivity. Qed.

Lemma Slave_INFO_CACHE_logged {R} (w : World R) (rec : LogRecord) :
  Slave_INFO_CACHE (logged w rec) = Slave_INFO_CACHE w.
Proof. reflexivity. Qed.

Lemma Slave_SETTINGS_CACHE_logged {R} (w : World R) (rec : LogRecord) :
  Slave_SETTINGS_CACHE (logged w rec) = Slave_SETTINGS_CACHE w.
Proof. reflexivity. Qed.

Lemma Group_GROUPS_CACHE_logged {R} (w : World R) (rec : LogRecord) :
  Group_GROUPS_CACHE (logged w rec) = Group_GROUPS_CACHE w.
Proof. reflexivity. Qed.

Lemma Group_SLAVES_CACHE_logged {R} (w : World R) (rec : LogRecord) :
  Group_SLAVES_CACHE (logged w rec) = Group_SLAVES_CACHE w.
Proof. reflexivity. Qed.

Lemma Pool_POOLS_CACHE_logged {R} (w : World R) (rec : LogRecord) :
  Pool_POOLS_CACHE (logged w rec) = Pool_POOLS_CACHE w.
Proof. reflexivity. Qed.

Lemma Pool_SLAVES_CACHE_logged {R} (w : World R) (rec : LogRecord) :
  Pool_SLAVES_CACHE (logged w rec) = Pool_SLAVES_CACHE w.
Proof. reflexivity. Qed.

Lemma log_logged {R} (w : World R) (rec : LogRecord) :
  log (logged w rec) = log w ++ [rec].
Proof. reflexivity. Qed.

Lemma calls_logged {R} (w : World R) (rec : LogRecord) :
  calls (logged w rec) = calls w.
Proof. reflexivity. Qed.

Lemma remote_logged {R} (w : World R) (rec : LogRecord) :
  remote (logged w rec) = remote w.
Proof. reflexivity. Qed.

Lemma Slave_SLAVES_CACHE_requested {R} (w : World R) (c : ApiCall) (rem : R) :
  Slave_SLAVES_CACHE (requested w c rem) = Slave_SLAVES_CACHE w.
Proof. reflexivity. Qed.

Lemma Slave_INFO_CACHE_requested {R} (w : World R) (c : ApiCall) (rem : R) :
  Slave_INFO_CACHE (requested w c rem) = Slave_INFO_CACHE w.
Proof. reflexivity. Qed.

Lemma Slave_SETTINGS_CACHE_requested {R} (w : World R) (c : ApiCall) (rem : R) :
  Slave_SETTINGS_CACHE (requested w c rem) = Slave_SETTINGS_CACHE w.
Proof. reflexivity. Qed.

Lemma Group_GROUPS_CACHE_requested {R} (w : World R) (c : ApiCall) (rem : R) :
  Group_GROUPS_CACHE (requested w c rem) = Group_GROUPS_CACHE w.
Proof. reflexivity. Qed.

Lemma Group_SLAVES_CACHE_requested {R} (w : World R) (c : ApiCall) (rem : R) :
  Group_SLAVES_CACHE (requested w c rem) = Group_SLAVES_CACHE w.
Proof. reflexivity. Qed.

Lemma Pool_POOLS_CACHE_requested {R} (w : World R) (c : ApiCall) (rem : R) :
  Pool_POOLS_CACHE (requested w c rem) = Pool_POOLS_CACHE w.
Proof. reflexivity. Qed.

Lemma Pool_SLAVES_CACHE_requested {R} (w : World R) (c : ApiCall) (rem : R) :
  Pool_SLAVES_CACHE (requested w c rem) = Pool_SLAVES_CACHE w.
Proof. reflexivity. Qed.

Lemma log_requested {R} (w : World R) (c : ApiCall) (rem : R) :
  log (requested w c rem) = log w.
Proof. reflexivity. Qed.

Lemma calls_requested {R} (w : World R) (c : ApiCall) (rem : R) :
  calls (requested w c rem) = calls w ++ [c].
Proof. reflexivity. Qed.

Lemma remote_requested {R} (w : World R) (c : ApiCall) (rem : R) :
  remote (requested w c rem) = rem.
Proof. reflexivity. Qed.

Lemma Slave_SLAVES_CACHE_with_slave_names {R} (w : World R) (c : cell (list string)) :
  Slave_SLAVES_CACHE (with_slave_names w c) = c.
Proof. reflexivity. Qed.

Lemma Slave_INFO_CACHE_with_slave_names {R} (w : World R) (c : cell (list string)) :
  Slave_INFO_CACHE (with_slave_names w c) = Slave_INFO_CACHE w.
Proof. reflexivity. Qed.

Lemma Slave_SETTINGS_CACHE_with_slave_names {R} (w : World R) (c : cell (list string)) :
  Slave_SETTINGS_CACHE (with_slave_names w c) = Slave_SETTINGS_CACHE w.
Proof. reflexivity. Qed.

Lemma Group_GROUPS_CACHE_with_slave_names {R} (w : World R) (c : cell (list string)) :
  Group_GROUPS_CACHE (with_slave_names w c) = Group_GROUPS_CACHE w.
Proof. reflexivity. Qed.

Lemma Group_SLAVES_CACHE_with_slave_names {R} (w : World R) (c : cell (list string)) :
  Group_SLAVES_CACHE (with_slave_names w c) = Group_SLAVES_CACHE w.
Proof. reflexivity. Qed.

Lemma Pool_POOLS_CACHE_with_slave_names {R} (w : World R) (c : cell (list string)) :
  Pool_POOLS_CACHE (with_slave_names w c) = Pool_POOLS_CACHE w.
Proof. reflexivity. Qed.

Lemma Pool_SLAVES_CACHE_with_slave_names {R} (w : World R) (c : cell (list string)) :
  Pool_SLAVES_CACHE (with_slave_names w c) = Pool_SLAVES_CACHE w.
Proof. reflexivity. Qed.

Lemma log_with_slave_names {R} (w : World R) (c : cell (list string)) :
  log (with_slave_names w c) = log w.
Proof. reflexivity. Qed.

Lemma calls_with_slave_names {R} (w : World R) (c : cell (list string)) :
  calls (with_slave_names w c) = calls w.
Proof. reflexivity. Qed.

Lemma remote_with_slave_names {R} (w : World R) (c : cell (list string)) :
  remote (with_slave_names w c) = remote w.
Proof. reflexivity. Qed.

Lemma Slave_SLAVES_CACHE_with_group_names {R} (w : World R) (c : cell (list string)) :
  Slave_SLAVES_CACHE (with_group_names w c) = Slave_SLAVES_CACHE w.
Proof. reflexivity. Qed.

Lemma Slave_INFO_CACHE_with_group_names {R} (w : World R) (c : cell (list string)) :
  Slave_INFO_CACHE (with_group_names w c) = Slave_INFO_CACHE w.
Proof. reflexivity. Qed.

Lemma Slave_SETTINGS_CACHE_with_group_names {R} (w : World R) (c : cell (list string)) :
  Slave_SETTINGS_CACHE (with_group_names w c) = Slave_SETTINGS_CACHE w.
Proof. reflexivity. Qed.

Lemma Group_GROUPS_CACHE_with_group_names {R} (w : World R) (c : cell (list string)) :
  Group_GROUPS_CACHE (with_group_names w c) = c.
Proof. reflexivity. Qed.

Lemma Group_SLAVES_CACHE_with_group_names {R} (w : World R) (c : cell (list string)) :
  Group_SLAVES_CACHE (with_group_names w c) = Group_SLAVES_CACHE w.
Proof. reflexivity. Qed.

Lemma Pool_POOLS_CACHE_with_group_names {R} (w : World R) (c : cell (list string)) :
  Pool_POOLS_CACHE (with_group_names w c) = Pool_POOLS_CACHE w.
Proof. reflexivity. Qed.

Lemma Pool_SLAVES_CACHE_with_group_names {R} (w : World R) (c : cell (list string)) :
  Pool_SLAVES_CACHE (with_group_names w c) = Pool_SLAVES_CACHE w.
Proof. reflexivity. Qed.

Lemma log_with_group_names {R} (w : World R) (c : cell (list string)) :
  log (with_group_names w c) = log w.
Proof. reflexivity. Qed.

Lemma calls_with_group_names {R} (w : World R) (c : cell (list string)) :
  calls (with_group_names w c) = calls w.
Proof. reflexivity. Qed.

Lemma remote_with_group_names {R} (w : World R) (c : cell (list string)) :
  remote (with_group_names w c) = remote w.
Proof. reflexivity. Qed.

Lemma Slave_SLAVES_CACHE_with_pool_names {R} (w : World R) (c : cell (list string)) :
  Slave_SLAVES_CACHE (with_pool_names w c) = Slave_SLAVES_CACHE w.
Proof. reflexivity. Qed.

Lemma Slave_INFO_CACHE_with_pool_names {R} (w : World R) (c : cell (list string)) :
  Slave_INFO_CACHE (with_pool_names w c) = Slave_INFO_CACHE w.
Proof. reflexivity. Qed.

Lemma Slave_SETTINGS_CACHE_with_pool_names {R} (w : World R) (c : cell (list string)) :
  Slave_SETTINGS_CACHE (with_pool_names w c) = Slave_SETTINGS_CACHE w.
Proof. reflexivity. Qed.

Lemma Group_GROUPS_CACHE_with_pool_names {R} (w : World R) (c : cell (list string)) :
  Group_GROUPS_CACHE (with_pool_names w c) = Group_GROUPS_CACHE w.
Proof. reflexivity. Qed.

Lemma Group_SLAVES_CACHE_with_pool_names {R} (w : World R) (c : cell (list string)) :
  Group_SLAVES_CACHE (with_pool_names w c) = Group_SLAVES_CACHE w.
Proof. reflexivity. Qed.

Lemma Pool_POOLS_CACHE_with_pool_names {R} (w : World R) (c : cell (list string)) :
  Pool_POOLS_CACHE (with_pool_names w c) = c.
Proof. reflexivity. Qed.

Lemma Pool_SLAVES_CACHE_with_pool_names {R} (w : World R) (c : cell (list string)) :
  Pool_SLAVES_CACHE (with_pool_names w c) = Pool_SLAVES_CACHE w.
Proof. reflexivity. Qed.

Lemma log_with_pool_names {R} (w : World R) (c : cell (list string)) :
  log (with_pool_names w c) = log w.
Proof. reflexivity. Qed.

Lemma calls_with_pool_names {R} (w : World R) (c : cell (list string)) :
  calls (with_pool_names w c) = calls w.
Proof. reflexivity. Qed.

Lemma remote_with_pool_names {R} (w : World R) (c : cell (list string)) :
  remote (with_pool_names w c) = remote w.
Proof. reflexivity. Qed.

#[global] Hint Rewrite
  @Slave_SLAVES_CACHE_logged @Slave_INFO_CACHE_logged @Slave_SETTINGS_CACHE_logged
  @Group_GROUPS_CACHE_logged @Group_SLAVES_CACHE_logged @Pool_POOLS_CACHE_logged
  @Pool_SLAVES_CACHE_logged @log_logged @calls_logged
  @remote_logged @Slave_SLAVES_CACHE_requested @Slave_INFO_CACHE_requested
  @Slave_SETTINGS_CACHE_requested @Group_GROUPS_CACHE_requested @Group_SLAVES_CACHE_requested
  @Pool_POOLS_CACHE_requested @Pool_SLAVES_CACHE_requested @log_requested
  @calls_requested @remote_requested @Slave_SLAVES_CACHE_with_slave_names
  @Slave_INFO_CACHE_with_slave_names @Slave_SETTINGS_CACHE_with_slave_names @Group_GROUPS_CACHE_with_slave_names
  @Group_SLAVES_CACHE_with_slave_names @Pool_POOLS_CACHE_with_slave_names @Pool_SLAVES_CACHE_with_slave_names
  @log_with_slave_names @calls_with_slave_names @remote_with_slave_names
  @Slave_SLAVES_CACHE_with_group_names @Slave_INFO_CACHE_with_group_names @Slave_SETTINGS_CACHE_with_group_names
  @Group_GROUPS_CACHE_with_group_names @Group_SLAVES_CACHE_with_group_names @Pool_POOLS_CACHE_with_group_names
  @Pool_SLAVES_CACHE_with_group_names @log_with_group_names @calls_with_group_names
  @remote_with_group_names @Slave_SLAVES_CACHE_with_pool_names @Slave_INFO_CACHE_with_pool_names
  @Slave_SETTINGS_CACHE_with_pool_names @Group_GROUPS_CACHE_with_pool_names @Group_SLAVES_CACHE_with_pool_names
  @Pool_POOLS_CACHE_with_pool_names @Pool_SLAVES_CACHE_with_pool_names @log_with_pool_names
  @calls_with_pool_names @remote_with_pool_names
  : world.

(** ** The [api] object *)

Lemma api_Slaves {R A} (m : M (World R) A) : api "Slaves" m = m.
Proof. reflexivity. Qed.

Lemma api_Groups {R A} (m : M (World R) A) : api "Groups" m = m.
Proof. reflexivity. Qed.

Lemma api_Pools {R A} (m : M (World R) A) : api "Pools" m = m.
Proof. reflexivity. Qed.

(** [api] has an attribute [Groups] and none called [Group]. *)
Lemma api_Group {R A} (m : M (World R) A) : api "Group" m = raise (AttributeError "Group").
Proof. reflexivity. Qed.

Lemma issue_run {R A} (c : ApiCall) (answer : R -> A * R) (w : World R) :
  issue c answer w = (Ok (fst (answer (remote w))), requested w c (snd (answer (remote w)))).
Proof. unfold issue. destruct (answer (remote w)). reflexivity. Qed.

Lemma bind_issue {R A B} (c : ApiCall) (answer : R -> A * R) (k : A -> M (World R) B)
    (w : World R) :
  bind (issue c answer) k w
  = k (fst (answer (remote w))) (requested w c (snd (answer (remote w)))).
Proof. unfold bind. rewrite issue_run. reflexivity. Qed.

Lemma bind_Ok {W A B} (c : M W A) (k : A -> M W B) (w w' : W) (a : A) :
  c w = (Ok a, w') -> bind c k w = k a w'.
Proof. intros H. unfold bind. rewrite H. reflexivity. Qed.

Lemma bind_Raise {W A B} (c : M W A) (k : A -> M W B) (w w' : W) (e : Exn) :
  c w = (Raise e, w') -> bind c k w = (Raise e, w').
Proof. intros H. unfold bind. rewrite H. reflexivity. Qed.

Lemma bind_bind {W A B C} (c : M W A) (k : A -> M W B) (k' : B -> M W C) (w : W) :
  bind (bind c k) k' w = bind c (fun a => bind (k a) k') w.
Proof. unfold bind. destruct (c w) as [[a|e] w']; reflexivity. Qed.

(** Running a computation on a state, one step after the other. *)
Ltac run :=
  repeat first
    [ rewrite api_Slaves | rewrite api_Pools | rewrite api_Groups | rewrite api_Group
    | progress unfold change, list_names, get_info, get_settings
    | rewrite bind_bind | rewrite bind_issue | rewrite issue_run
    | progress autorewrite with world
    | progress cbn [bind ret raise gets modify lift_result logger logger_info logger_warning
                    outside on_list fst snd negb set_Pool_POOLS_CACHE set_Group_GROUPS_CACHE] ].

(** ** Stepping through the methods of a slave *)

Section Stepping.
Context {R : Type} {rs : RemoteService R}.

Lemma cache_read_empty {A} (k : string) : cache_read (∅ : gmap string A) k = NOT_SET.
Proof. unfold cache_read. rewrite lookup_empty. reflexivity. Qed.

Lemma bind_Slave_init {B} (x : raw) (k : Slave -> M (World R) B) (w : World R) :
  bind (Slave_init x) k w
  = k (mkSlave (raw_str x) (cache_read (Slave_INFO_CACHE w) (raw_str x))
               (cache_read (Slave_SETTINGS_CACHE w) (raw_str x))) w.
Proof. destruct x; reflexivity. Qed.

Lemma bind_Slave_info_fresh {B} n s (k : option dict * Slave -> M (World R) B) (w : World R) :
  bind (Slave_info (mkSlave n NOT_SET s)) k w
  = k (or_None (fst (answer_info n (remote w))),
       mkSlave n (Cached (or_None (fst (answer_info n (remote w))))) s)
      (requested w (GetSlaveInfo n) (snd (answer_info n (remote w)))).
Proof. unfold Slave_info. cbn [_info slave_name _settings]. run. reflexivity. Qed.

Lemma bind_Slave_info_cached {B} n i s (k : option dict * Slave -> M (World R) B) (w : World R) :
  bind (Slave_info (mkSlave n (Cached i) s)) k w = k (i, mkSlave n (Cached i) s) w.
Proof. reflexivity. Qed.

Lemma bind_Slave_settings_fresh {B} n i (k : Obj * Slave -> M (World R) B) (w : World R) :
  bind (Slave_settings (mkSlave n i NOT_SET)) k w
  = let v := or_None (map obj_of_dict (fst (answer_settings n (remote w)))) in
    let w' := requested w (GetSlaveSettings n) (snd (answer_settings n (remote w))) in
    match v with
    | None => (Raise TypeError, w')
    | Some [] => (Raise IndexError, w')
    | Some (o :: _) => k (o, mkSlave n i (Cached v)) w'
    end.
Proof.
  unfold Slave_settings. cbn [_info slave_name _settings]. run.
  destruct (or_None _) as [[|o l]|]; reflexivity.
Qed.

Lemma bind_Slave_settings_cached {B} n i o l (k : Obj * Slave -> M (World R) B) (w : World R) :
  bind (Slave_settings (mkSlave n i (Cached (Some (o :: l))))) k w
  = k (o, mkSlave n i (Cached (Some (o :: l)))) w.
Proof. reflexivity. Qed.

Lemma Slave_with_settings_object_cached n i o l o' :
  Slave_with_settings_object (mkSlave n i (Cached (Some (o :: l)))) o'
  = mkSlave n i (Cached (Some (o' :: l))).
Proof. reflexivity. Qed.

End Stepping.

(** Running the methods of a slave whose fields are known. *)
Ltac exec :=
  repeat first
    [ rewrite bind_Slave_init | rewrite bind_Slave_info_fresh | rewrite bind_Slave_info_cached
    | rewrite bind_Slave_settings_cached | rewrite Slave_with_settings_object_cached
    | rewrite cache_read_empty
    | progress cbn [initial_world Slave_SLAVES_CACHE Slave_INFO_CACHE Slave_SETTINGS_CACHE
                    Group_GROUPS_CACHE Group_SLAVES_CACHE Pool_POOLS_CACHE Pool_SLAVES_CACHE
                    log calls remote raw_str slave_name _info _settings]
    | progress run ].

Section Entities.
Context {R : Type} {rs : RemoteService R}.

(** ** [Slave.status] and the predicates derived from it *)

Lemma Status_call_member (s : Status) (w : World R) :
  Status_call (VInt (Status_value s)) w = (Ok s, w).
Proof. destruct s; reflexivity. Qed.

Lemma Status_eqb_eq (a b : Status) : Status_eqb a b = true <-> a = b.
Proof.
  split.
  - destruct a, b; (reflexivity || discriminate).
  - intros ->. destruct b; reflexivity.
Qed.

Lemma idle_statuses (s : Status) :
  existsb (Status_eqb s) [Idle; HouseCleaning] = true <-> s = Idle \/ s = HouseCleaning.
Proof.
  split.
  - destruct s; simpl; intros H; (discriminate || auto).
  - intros [-> | ->]; reflexivity.
Qed.

(** C9, as the code has it.  [Slave.status] reads [self.data], an attribute
    that neither [Slave.__init__] nor any class of the object provides, so
    the property raises [AttributeError] whatever status the farm reports,
    and so do [offline], [idle], [rendering] and [stalled], which read
    [status] first. *)
Theorem Slave_status_raises_AttributeError (self : Slave) (w : World R) :
  ~ In "data" Slave_attributes /\
  Slave_status self w = (Raise (AttributeError "data"), w) /\
  Slave_offline self w = (Raise (AttributeError "data"), w) /\
  Slave_idle self w = (Raise (AttributeError "data"), w) /\
  Slave_rendering self w = (Raise (AttributeError "data"), w) /\
  Slave_stalled self w = (Raise (AttributeError "data"), w).
Proof.
  split.
  - simpl. intros H. repeat (destruct H as [H|H]; [discriminate H|]). exact H.
  - repeat split.
Qed.

(** ** [Group.delete], [Pool.delete], [Group.create], [Pool.create] *)

Lemma Group_slaves_calls (G : Group) (w : World R) :
  exists l w',
    Group_slaves G w = (Ok l, w') /\
    (calls w' = calls w \/
     calls w' = calls w ++ [Listing_ (GetSlaveNamesInGroup (group_name G))]).
Proof.
  unfold Group_slaves, Group__slaves.
  destruct (group_slaves_cache G) as [|l]; eexists _, _; run.
  - split; [reflexivity|]. run. auto.
  - split; [reflexivity|]. auto.
Qed.

(** C3, as the code has it.  With [force] left at [False]:
    - [Group.delete] hands [next] the list proxy [self.slaves], which is no
      iterator: it raises [TypeError] whether or not the group has members;
    - [Pool.delete] reads the global [Slave], which pools.py does not bind
      at run time: it raises [NameError];
    in both cases no delete request is issued and no boolean is returned.
    With [force=True] the delete request is issued whatever the members. *)
Theorem delete_without_force_raises (w : World R) :
  (forall G : Group, exists w',
      Group_delete G false w = (Raise TypeError, w') /\
      (calls w' = calls w \/
       calls w' = calls w ++ [Listing_ (GetSlaveNamesInGroup (group_name G))])) /\
  (forall P : Pool, exists w',
      Pool_delete P false w = (Raise (NameError "Slave"), w') /\ calls w' = calls w) /\
  (forall G : Group,
      calls (snd (Group_delete G true w)) = calls w ++ [Change_ (DeleteGroup (group_name G))]) /\
  (forall P : Pool,
      calls (snd (Pool_delete P true w)) = calls w ++ [Change_ (DeletePool (pool_name P))]).
Proof.
  repeat apply conj.
  - intros G. unfold Group_delete. run.
    match goal with |- context [bind (Group_slaves G) _ ?w0] =>
      destruct (Group_slaves_calls G w0) as (l & w' & Hs & Hc)
    end.
    rewrite (bind_Ok _ _ _ _ _ Hs). run. exists w'. split; [reflexivity|].
    revert Hc. run. auto.
  - intros P. eexists. unfold Pool_delete. run. split; reflexivity.
  - intros G. unfold Group_delete. run.
    destruct (String.eqb _ "Success"); run; [|reflexivity].
    destruct (Group_GROUPS_CACHE w) as [|l]; run; [reflexivity|].
    destruct (names_remove l (group_name G)); run; reflexivity.
  - intros P. unfold Pool_delete. run.
    destruct (String.eqb _ "Success"); run; [|reflexivity].
    destruct (Pool_POOLS_CACHE w) as [|l]; run; [reflexivity|].
    destruct (names_remove l (pool_name P)); run; reflexivity.
Qed.

(** C7, as the code has it.  [Group.create] reaches its request through
    [api.Group], an attribute the [api] object does not have (the groups
    are under [api.Groups]): it raises [AttributeError] before any request
    is issued, returns no boolean and leaves the cache of group names as it
    was, whatever the farm would have answered. *)
Theorem Group_create_raises_AttributeError (G : Group) (w : World R) :
  ~ In "Group" api_attributes /\
  exists w',
    Group_create G w = (Raise (AttributeError "Group"), w') /\
    calls w' = calls w /\
    remote w' = remote w /\
    Group_GROUPS_CACHE w' = Group_GROUPS_CACHE w.
Proof.
  split.
  - simpl. intros H. repeat (destruct H as [H|H]; [discriminate H|]). exact H.
  - eexists. unfold Group_create. run. split; [reflexivity|]. run. auto.
Qed.

(** [Pool.create] does what the specification says of [create]: it returns
    whether the status is ["Success"], and appends the name to the cached
    names exactly then (when the names were fetched before). *)
Lemma Pool_create_follows_status (P : Pool) (w : World R) :
  let status := fst (answer_change (AddPool (pool_name P)) (remote w)) in
  fst (Pool_create P w) = Ok (String.eqb status "Success") /\
  calls (snd (Pool_create P w)) = calls w ++ [Change_ (AddPool (pool_name P))] /\
  Pool_POOLS_CACHE (snd (Pool_create P w))
  = match Pool_POOLS_CACHE w with
    | Cached l => Cached (if String.eqb status "Success" then l ++ [pool_name P] else l)
    | NOT_SET => NOT_SET
    end.
Proof.
  intros status. subst status. unfold Pool_create. run.
  destruct (String.eqb _ "Success"); run.
  - destruct (Pool_POOLS_CACHE w) as [|l] eqn:Hc; run; rewrite ?Hc; auto.
  - destruct (Pool_POOLS_CACHE w); auto.
Qed.

(** [delete(force=True)]: the status decides the result, and on success the
    name is removed from the cached names, which raises [ValueError] when
    the cached names do not hold it. *)
Lemma Pool_delete_forced_follows_status (P : Pool) (w : World R) :
  let status := fst (answer_change (DeletePool (pool_name P)) (remote w)) in
  let outcome := fst (Pool_delete P true w) in
  let cache := Pool_POOLS_CACHE (snd (Pool_delete P true w)) in
  if String.eqb status "Success"
  then match Pool_POOLS_CACHE w with
       | NOT_SET => outcome = Ok true /\ cache = NOT_SET
       | Cached l =>
           match names_remove l (pool_name P) with
           | Ok l' => outcome = Ok true /\ cache = Cached l'
           | Raise e => outcome = Raise e /\ cache = Cached l
           end
       end
  else outcome = Ok false /\ cache = Pool_POOLS_CACHE w.
Proof.
  unfold Pool_delete. run.
  destruct (String.eqb _ "Success"); run; [|auto].
  destruct (Pool_POOLS_CACHE w) as [|l] eqn:Hc; run; rewrite ?Hc; [auto|].
  destruct (names_remove l (pool_name P)); run; rewrite ?Hc; auto.
Qed.

Lemma Group_delete_forced_follows_status (G : Group) (w : World R) :
  let status := fst (answer_change (DeleteGroup (group_name G)) (remote w)) in
  let outcome := fst (Group_delete G true w) in
  let cache := Group_GROUPS_CACHE (snd (Group_delete G true w)) in
  if String.eqb status "Success"
  then match Group_GROUPS_CACHE w with
       | NOT_SET => outcome = Ok true /\ cache = NOT_SET
       | Cached l =>
           match names_remove l (group_name G) with
           | Ok l' => outcome = Ok true /\ cache = Cached l'
           | Raise e => outcome = Raise e /\ cache = Cached l
           end
       end
  else outcome = Ok false /\ cache = Group_GROUPS_CACHE w.
Proof.
  unfold Group_delete. run.
  destruct (String.eqb _ "Success"); run; [|auto].
  destruct (Group_GROUPS_CACHE w) as [|l] eqn:Hc; run; rewrite ?Hc; [auto|].
  destruct (names_remove l (group_name G)); run; rewrite ?Hc; auto.
Qed.

(** ** The caches of info and settings *)

(** The sibling that works: [Slave._all] stores what it fetched in the
    class attribute, so the names are fetched once. *)
Lemma Slave__all_fetches_once (w : World R) :
  let w1 := snd (Slave__all w) in
  calls (snd (Slave__all w1)) = calls w1.
Proof.
  unfold Slave__all. run.
  destruct (Slave_SLAVES_CACHE w) as [|l] eqn:Hc; run.
  - cbn [with_slave_names Slave_SLAVES_CACHE]. run. reflexivity.
  - rewrite Hc. reflexivity.
Qed.

(** C8, as the code has it.  [Slave.info] and [Slave.settings] store what
    they fetched in the object only; the class-level dictionaries
    [_INFO_CACHE] and [_SETTINGS_CACHE] are read by [__init__] and written
    by nobody.  A second [Slave(n)] therefore starts from [NOT_SET] and
    fetches again: two reads on two objects issue two requests (for the
    settings, when the first read got a settings dictionary at all). *)
Theorem Slave_info_is_fetched_per_object (n : string) (r : R) :
  let w := initial_world r in
  calls (snd (info_read_twice n w)) = [GetSlaveInfo n; GetSlaveInfo n] /\
  Slave_INFO_CACHE (snd (info_read_twice n w)) = ∅ /\
  calls (snd (settings_read_twice n w))
  = match fst (answer_settings n r) with
    | [] => [GetSlaveSettings n]
    | _ :: _ => [GetSlaveSettings n; GetSlaveSettings n]
    end /\
  Slave_SETTINGS_CACHE (snd (settings_read_twice n w)) = ∅.
Proof.
  intros w. subst w. repeat apply conj.
  - unfold info_read_twice. exec. reflexivity.
  - unfold info_read_twice. exec. reflexivity.
  - unfold settings_read_twice. exec. rewrite bind_Slave_settings_fresh. exec.
    destruct (fst (answer_settings n r)) as [|d l]; [reflexivity|].
    cbn [map or_None]. exec. rewrite bind_Slave_settings_fresh. exec.
    destruct (or_None _) as [[|o' l']|]; reflexivity.
  - unfold settings_read_twice. exec. rewrite bind_Slave_settings_fresh. exec.
    destruct (fst (answer_settings n r)) as [|d l]; [reflexivity|].
    cbn [map or_None]. exec. rewrite bind_Slave_settings_fresh. exec.
    destruct (or_None _) as [[|o' l']|]; reflexivity.
Qed.

(** ** [_write_settings] *)

Lemma dict_get_entry_update_eq (o : Obj) (k : string) (f : Node -> Node) :
  dict_get (entry_update o k f) k = option_map f (dict_get o k).
Proof.
  induction o as [|[k' n] o IH]; simpl; [reflexivity|].
  destruct (String.eqb k k') eqn:E; simpl; rewrite E; [reflexivity | exact IH].
Qed.

Lemma dict_get_entry_update_ne (o : Obj) (k k' : string) (f : Node -> Node) :
  k <> k' -> dict_get (entry_update o k f) k' = dict_get o k'.
Proof.
  intros Hne. induction o as [|[k0 n] o IH]; simpl; [reflexivity|].
  destruct (String.eqb k k0) eqn:E; simpl.
  - apply String.eqb_eq in E. subst k0.
    destruct (String.eqb k' k) eqn:E'; [|reflexivity].
    apply String.eqb_eq in E'. congruence.
  - rewrite IH. reflexivity.
Qed.

Lemma entry_update_ext (o : Obj) (k : string) (f g : Node -> Node) :
  (forall n, dict_get o k = Some n -> f n = g n) ->
  entry_update o k f = entry_update o k g.
Proof.
  induction o as [|[k' n] o IH]; simpl; intros H; [reflexivity|].
  destruct (String.eqb k k') eqn:E.
  - rewrite (H n eq_refl). reflexivity.
  - rewrite IH; [reflexivity | exact H].
Qed.

Lemma entry_update_twice (o : Obj) (k : string) (f g : Node -> Node) :
  entry_update (entry_update o k f) k g = entry_update o k (fun n => g (f n)).
Proof.
  induction o as [|[k' n] o IH]; simpl; [reflexivity|].
  destruct (String.eqb k k') eqn:E; simpl; rewrite E; [reflexivity|].
  rewrite IH. reflexivity.
Qed.

Lemma node_entries_update (f : Obj -> Obj) (n : Node) :
  node_entries (node_update_entries f n) = option_map f (node_entries n).
Proof. destruct n; reflexivity. Qed.

Lemma obj_at_update (p : list string) : forall (top o : Obj) (f : Obj -> Obj),
  obj_at top p = Some o -> obj_at (obj_update top p f) p = Some (f o).
Proof.
  induction p as [|k p IH]; simpl; intros top o f H.
  - congruence.
  - rewrite dict_get_entry_update_eq.
    destruct (dict_get top k) as [n|]; [|discriminate]. simpl.
    rewrite node_entries_update.
    destruct (node_entries n) as [es|]; [|discriminate]. simpl.
    apply IH. exact H.
Qed.

Lemma obj_update_ext (p : list string) : forall (top o : Obj) (f g : Obj -> Obj),
  obj_at top p = Some o -> f o = g o -> obj_update top p f = obj_update top p g.
Proof.
  induction p as [|k p IH]; simpl; intros top o f g H Hfg.
  - congruence.
  - apply entry_update_ext. intros n Hn. rewrite Hn in H.
    destruct n as [v|es|v es]; simpl in *; try discriminate;
      f_equal; eapply IH; eauto.
Qed.

Lemma obj_update_twice (p : list string) : forall (top : Obj) (f g : Obj -> Obj),
  obj_update (obj_update top p f) p g = obj_update top p (fun o => g (f o)).
Proof.
  induction p as [|k p IH]; simpl; intros top f g; [reflexivity|].
  rewrite entry_update_twice. apply entry_update_ext. intros n _.
  destruct n; simpl; rewrite ?IH; reflexivity.
Qed.

Lemma obj_at_snoc (p : list string) : forall (top o : Obj) (k : string),
  obj_at top p = Some o ->
  obj_at top (p ++ [k])
  = match dict_get o k with
    | Some n => node_entries n
    | None => None
    end.
Proof.
  induction p as [|k' p IH]; simpl; intros top o k H.
  - injection H as <-. destruct (dict_get top k) as [n|]; [|reflexivity].
    destruct (node_entries n); reflexivity.
  - destruct (dict_get top k') as [n|]; [|discriminate].
    destruct (node_entries n) as [es|]; [|discriminate].
    apply IH. exact H.
Qed.

Lemma obj_update_snoc (p : list string) : forall (top : Obj) (k : string) (f : Obj -> Obj),
  obj_update top (p ++ [k]) f
  = obj_update top p (fun o => entry_update o k (node_update_entries f)).
Proof.
  induction p as [|k' p IH]; simpl; intros top k f; [reflexivity|].
  apply entry_update_ext. intros n _. destruct n; simpl; rewrite ?IH; reflexivity.
Qed.

Lemma entry_update_id (o : Obj) (k : string) (f : Node -> Node) :
  (forall n, dict_get o k = Some n -> f n = n) -> entry_update o k f = o.
Proof.
  induction o as [|[k' n] o IH]; simpl; intros H; [reflexivity|].
  destruct (String.eqb k k') eqn:E.
  - rewrite (H n eq_refl). reflexivity.
  - rewrite IH; [reflexivity | exact H].
Qed.

Lemma obj_update_id (p : list string) : forall (top o : Obj),
  obj_at top p = Some o -> obj_update top p (fun _ => o) = top.
Proof.
  induction p as [|k p IH]; simpl; intros top o H.
  - congruence.
  - apply entry_update_id. intros n Hn. rewrite Hn in H.
    destruct n as [v|es|v es]; simpl in *; try discriminate; f_equal; apply IH; exact H.
Qed.

(** Induction on a value through the lists and dictionaries it holds. *)
Lemma PyVal_nested_ind (P : PyVal -> Prop) :
  P VNone ->
  (forall b, P (VBool b)) ->
  (forall z, P (VInt z)) ->
  (forall s, P (VStr s)) ->
  (forall l, P (VList l)) ->
  (forall d, Forall (fun kv => P (snd kv)) d -> P (VDict d)) ->
  forall v, P v.
Proof.
  intros HN HB HI HS HL HD.
  fix IH 1.
  intros [| b | z | s | l | d];
    [exact HN | apply HB | apply HI | apply HS | apply HL |].
  apply HD. induction d as [|[k x] d IHd]; constructor; [apply IH | exact IHd].
Qed.

Lemma write_settings_rec_dict (d : list (string * PyVal)) (t : Target) (top : Obj) :
  write_settings_rec (VDict d) t top = write_loop write_settings_rec t d false top.
Proof. reflexivity. Qed.

Lemma conforms_cons (k : string) (x : PyVal) (d : list (string * PyVal)) (o : Obj) :
  conforms (VDict ((k, x) :: d)) o
  <-> match x with
      | VDict _ => match dict_get o k with
                   | Some (NDict es) => conforms x es
                   | _ => False
                   end
      | _ => True
      end /\ conforms (VDict d) o.
Proof. reflexivity. Qed.

Lemma holds_cons (k : string) (x : PyVal) (d : list (string * PyVal)) (o : Obj) :
  holds (VDict ((k, x) :: d)) o
  <-> match x with
      | VDict _ => match dict_get o k with
                   | Some (NDict es) => holds x es
                   | _ => False
                   end
      | _ => match dict_get o k with
             | Some n => node_val n = x \/ py_eq (node_val n) x = true
             | None => False
             end
      end /\ holds (VDict d) o.
Proof. reflexivity. Qed.

Lemma unique_keys_cons (k : string) (x : PyVal) (d : list (string * PyVal)) :
  unique_keys (VDict ((k, x) :: d))
  <-> ~ In k (map fst d) /\ unique_keys x /\ unique_keys (VDict d).
Proof.
  simpl. rewrite NoDup_cons. rewrite list_elem_of_In. tauto.
Qed.

Lemma conforms_same_lookups (d : list (string * PyVal)) (o o1 : Obj) :
  (forall k, In k (map fst d) -> dict_get o1 k = dict_get o k) ->
  conforms (VDict d) o -> conforms (VDict d) o1.
Proof.
  induction d as [|[k x] d IH]; intros Hsame Hc; [exact I|].
  apply conforms_cons in Hc as [Hx Hd]. apply conforms_cons. split.
  - rewrite (Hsame k) by (left; reflexivity). exact Hx.
  - apply IH; [|exact Hd]. intros k' Hk'. apply Hsame. right. exact Hk'.
Qed.

Lemma holds_same_lookups (d : list (string * PyVal)) (o o1 : Obj) :
  (forall k, In k (map fst d) -> dict_get o1 k = dict_get o k) ->
  holds (VDict d) o -> holds (VDict d) o1.
Proof.
  induction d as [|[k x] d IH]; intros Hsame Hc; [exact I|].
  apply holds_cons in Hc as [Hx Hd]. apply holds_cons. split.
  - rewrite (Hsame k) by (left; reflexivity). exact Hx.
  - apply IH; [|exact Hd]. intros k' Hk'. apply Hsame. right. exact Hk'.
Qed.

Lemma node_val_store (n : Node) (v : PyVal) : node_val (node_store n v) = v.
Proof. destruct n; reflexivity. Qed.

Lemma write_loop_locally (d : list (string * PyVal)) :
  Forall (fun kv => writes_locally (snd kv)) d ->
  forall (p : list string) (top o : Obj) (u b : bool) (top' : Obj),
    obj_at top p = Some o ->
    unique_keys (VDict d) ->
    conforms (VDict d) o ->
    write_loop write_settings_rec (TObj p) d u top = (Ok b, top') ->
    exists o',
      top' = obj_update top p (fun _ => o') /\
      holds (VDict d) o' /\
      (forall k, ~ In k (map fst d) -> dict_get o' k = dict_get o k).
Proof.
  induction d as [|[k x] d IH]; intros Hall p top o u b top' Hat Hu Hc Hrun.
  - simpl in Hrun. injection Hrun as _ <-. exists o. split; [|split].
    + symmetry. apply obj_update_id. exact Hat.
    + exact I.
    + reflexivity.
  - apply Forall_cons in Hall as [Hx Hall].
    apply unique_keys_cons in Hu as (Hk & Hux & Hud).
    apply conforms_cons in Hc as [Hcx Hcd].
    cbn [write_loop] in Hrun. rewrite Hat in Hrun.
    destruct (dict_get o k) as [n|] eqn:Hn; [|discriminate].
    assert (Hrest : forall (top1 o1 : Obj) (u1 : bool),
               top1 = obj_update top p (fun _ => o1) ->
               (forall k', k' <> k -> dict_get o1 k' = dict_get o k') ->
               match x with
               | VDict _ => match dict_get o1 k with
                            | Some (NDict es) => holds x es
                            | _ => False
                            end
               | _ => match dict_get o1 k with
                      | Some n => node_val n = x \/ py_eq (node_val n) x = true
                      | None => False
                      end
               end ->
               write_loop write_settings_rec (TObj p) d u1 top1 = (Ok b, top') ->
               exists o',
                 top' = obj_update top p (fun _ => o') /\
                 holds (VDict ((k, x) :: d)) o' /\
                 (forall k', ~ In k' (map fst ((k, x) :: d)) -> dict_get o' k' = dict_get o k')).
    { intros top1 o1 u1 Htop1 Hsame Hitem Hrun1.
      assert (Hat1 : obj_at top1 p = Some o1).
      { rewrite Htop1. apply (obj_at_update p top o (fun _ => o1)). exact Hat. }
      assert (Hc1 : conforms (VDict d) o1).
      { apply (conforms_same_lookups d o); [|exact Hcd].
        intros k' Hk'. apply Hsame. intros ->. contradiction. }
      destruct (IH Hall p top1 o1 u1 b top' Hat1 Hud Hc1 Hrun1) as (o' & Htop' & Hh & Hother).
      exists o'. split; [|split].
      - rewrite Htop', Htop1. apply obj_update_twice.
      - apply holds_cons. split; [|exact Hh].
        rewrite (Hother k Hk). exact Hitem.
      - intros k' Hk'. simpl in Hk'.
        rewrite Hother by tauto. apply Hsame. intros ->. tauto. }
    destruct (is_dict x) eqn:Hdict.
    + destruct x as [| | | | |sub]; try discriminate.
      destruct n as [v|es|v es]; try contradiction.
      cbn [sub_target] in Hrun.
      destruct (write_settings_rec (VDict sub) (TObj (p ++ [k])) top) as [[b1|e] top1] eqn:Hsub;
        [|discriminate].
      assert (Hates : obj_at top (p ++ [k]) = Some es).
      { rewrite (obj_at_snoc p top o k Hat), Hn. reflexivity. }
      destruct (Hx (p ++ [k]) top es b1 top1 Hates Hux Hcx Hsub) as (es' & Htop1 & Hes').
      apply (Hrest top1 (entry_update o k (node_update_entries (fun _ => es'))) (u || b1));
        [| | |exact Hrun].
      * rewrite Htop1, obj_update_snoc. apply (obj_update_ext p top o). { exact Hat. }
        reflexivity.
      * intros k' Hk'. apply dict_get_entry_update_ne. congruence.
      * rewrite dict_get_entry_update_eq, Hn. exact Hes'.
    + destruct (py_ne (node_val n) x) eqn:Hne.
      * apply (Hrest (obj_update top p (fun o => entry_update o k (fun n => node_store n x)))
                     (entry_update o k (fun n => node_store n x)) true); [| | |exact Hrun].
        -- apply (obj_update_ext p top o); [exact Hat | reflexivity].
        -- intros k' Hk'. apply dict_get_entry_update_ne. congruence.
        -- rewrite dict_get_entry_update_eq, Hn. simpl. rewrite node_val_store.
           destruct x; try discriminate; left; reflexivity.
      * apply (Hrest top o u); [| | |exact Hrun].
        -- symmetry. apply obj_update_id. exact Hat.
        -- reflexivity.
        -- rewrite Hn. unfold py_ne in Hne. apply negb_false_iff in Hne.
           destruct x; try discriminate; right; exact Hne.
Qed.

Lemma write_settings_rec_locally (v : PyVal) : writes_locally v.
Proof.
  induction v as [| b | z | s | l | d IH] using PyVal_nested_ind;
    intros p top o b' top' Hat Hu Hc Hrun;
    try (simpl in Hrun; injection Hrun as _ <-; exists o; split;
         [symmetry; apply obj_update_id; exact Hat | exact I]).
  rewrite write_settings_rec_dict in Hrun.
  destruct (write_loop_locally d IH p top o false b' top' Hat Hu Hc Hrun) as (o' & H1 & H2 & _).
  exists o'. split; assumption.
Qed.

(** The updates a call of [_write_settings] was given are in the settings
    when it returns. *)
Lemma write_settings_holds (kwargs : dict) (o o' : Obj) (b : bool) :
  unique_keys (VDict kwargs) ->
  conforms (VDict kwargs) o ->
  write_settings kwargs o = (Ok b, o') ->
  holds (VDict kwargs) o'.
Proof.
  intros Hu Hc Hrun.
  destruct (write_settings_rec_locally (VDict kwargs) [] o o b o' eq_refl Hu Hc Hrun)
    as (o1 & Ho' & Hh).
  simpl in Ho'. subst o1. exact Hh.
Qed.


(** One keyword whose value is no dictionary. *)
Lemma write_settings_one (k : string) (v : PyVal) (o : Obj) (n : Node) :
  is_dict v = false ->
  dict_get o k = Some n ->
  write_settings [(k, v)] o
  = if py_ne (node_val n) v
    then (Ok true, entry_update o k (fun n => node_store n v))
    else (Ok false, o).
Proof.
  intros Hv Hn. unfold write_settings. rewrite write_settings_rec_dict.
  cbn [write_loop obj_at]. rewrite Hn, Hv.
  destruct (py_ne (node_val n) v); reflexivity.
Qed.

Lemma is_success_spec (status : string) :
  existsb (String.eqb status) ["Success"; "No updates required"] = false <->
  status <> "Success" /\ status <> "No updates required".
Proof.
  simpl. rewrite orb_false_r, orb_false_iff, !String.eqb_neq. tauto.
Qed.

(** [update_settings] on a slave whose settings are cached, by what
    [_write_settings] does to them. *)
Lemma Slave_update_settings_cached (n : string) (i : cell (option dict)) (o : Obj)
    (l : list Obj) (kwargs : dict) (w : World R) :
  let self := mkSlave n i (Cached (Some (o :: l))) in
  Slave_update_settings self kwargs w
  = let w0 := logged w (mkLog INFO "[%s] Updating settings: %r" [LStr n; LKwargs kwargs]) in
    match write_settings kwargs o with
    | (Raise e, _) => (Raise e, w0)
    | (Ok false, o') =>
        (Ok (true, mkSlave n i (Cached (Some (o' :: l)))),
         logged w0 (mkLog INFO "No updates required" []))
    | (Ok true, o') =>
        let save := SaveSlaveSettings (dict_of_obj o') in
        let status := fst (answer_change save (remote w)) in
        (Ok (existsb (String.eqb status) ["Success"; "No updates required"],
             mkSlave n i (Cached (Some (o' :: l)))),
         logged (requested w0 save (snd (answer_change save (remote w))))
                (mkLog INFO status []))
    end.
Proof.
  intros self. subst self. unfold Slave_update_settings, Slave__write_settings. exec.
  destruct (write_settings kwargs o) as [[[|]|e] o']; exec; reflexivity.
Qed.

Lemma dict_get_dict_of_obj (o : Obj) (k : string) :
  dict_get (dict_of_obj o) k = option_map node_val (dict_get o k).
Proof.
  induction o as [|[k' x] o IH]; simpl; [reflexivity|].
  destruct (String.eqb k k'); [reflexivity | exact IH].
Qed.

(** C4, as amended.  On a slave whose cached settings hold [Enable]:
    - when the cached value equals [True], [update_settings(Enable=True)]
      returns [True] and issues no request at all;
    - when it does not, exactly one [SaveSlaveSettings] request goes out,
      carrying the settings with [Enable] set, and the call returns [True]
      exactly when the status of that request is ["Success"] or
      ["No updates required"]. *)
Theorem enable_saves_once_only_on_change (n : string) (i : cell (option dict)) (o : Obj)
    (l : list Obj) (v : Node) (w : World R) :
  let self := mkSlave n i (Cached (Some (o :: l))) in
  dict_get o "Enable" = Some v ->
  (py_eq (node_val v) (VBool true) = true ->
   fst (Slave_enable self w) = Ok (true, self) /\
   calls (snd (Slave_enable self w)) = calls w /\
   remote (snd (Slave_enable self w)) = remote w) /\
  (py_eq (node_val v) (VBool true) = false ->
   let o' := entry_update o "Enable" (fun x => node_store x (VBool true)) in
   let save := SaveSlaveSettings (dict_of_obj o') in
   let status := fst (answer_change save (remote w)) in
   fst (Slave_enable self w)
   = Ok (existsb (String.eqb status) ["Success"; "No updates required"],
         mkSlave n i (Cached (Some (o' :: l)))) /\
   calls (snd (Slave_enable self w)) = calls w ++ [Change_ save] /\
   dict_get (dict_of_obj o') "Enable" = Some (VBool true)).
Proof.
  intros self Hv. subst self. unfold Slave_enable. rewrite Slave_update_settings_cached.
  cbv zeta. rewrite (write_settings_one "Enable" (VBool true) o v eq_refl Hv).
  unfold py_ne. split; intros He; rewrite He; cbn [negb].
  - run. auto.
  - run. repeat split.
    rewrite dict_get_dict_of_obj, dict_get_entry_update_eq, Hv. simpl.
    rewrite node_val_store. reflexivity.
Qed.

(** Keywords that are no dictionaries and all name existing settings:
    [_write_settings] returns, and tells whether some value differed. *)
Lemma write_loop_flat (d : list (string * PyVal)) : forall (u : bool) (o : Obj),
  NoDup (map fst d) ->
  forallb (fun kv => negb (is_dict (snd kv))) d = true ->
  (forall k, In k (map fst d) -> dict_get o k <> None) ->
  exists o',
    write_loop write_settings_rec (TObj []) d u o
    = (Ok (u || existsb (fun kv => match dict_get o (fst kv) with
                                   | Some n => py_ne (node_val n) (snd kv)
                                   | None => false
                                   end) d), o').
Proof.
  induction d as [|[k v] d IH]; intros u o Hnd Hflat Hpres.
  - exists o. simpl. rewrite orb_false_r. reflexivity.
  - apply NoDup_cons in Hnd as [Hk Hnd]. rewrite list_elem_of_In in Hk.
    simpl in Hflat. apply andb_true_iff in Hflat as [Hv Hflat].
    apply negb_true_iff in Hv.
    destruct (dict_get o k) as [n|] eqn:Hn; [|exfalso; apply (Hpres k); [left; reflexivity | exact Hn]].
    cbn [write_loop obj_at existsb fst snd]. rewrite Hn, Hv.
    destruct (py_ne (node_val n) v) eqn:Hne.
    + cbn [obj_update].
      destruct (IH true (entry_update o k (fun n => node_store n v)) Hnd Hflat) as [o' Ho'].
      { intros k' Hk'. rewrite dict_get_entry_update_ne by (intros ->; contradiction).
        apply Hpres. right. exact Hk'. }
      exists o'. rewrite Ho'. rewrite orb_true_r. reflexivity.
    + destruct (IH u o Hnd Hflat) as [o' Ho'].
      { intros k' Hk'. apply Hpres. right. exact Hk'. }
      exists o'. rewrite Ho'. reflexivity.
Qed.

(** C10.  On a slave whose settings are cached, when [_write_settings]
    changed something ([kwargs] with unique keys, its dictionaries meeting
    dictionaries of the settings) and the farm answers the save with a
    status that is neither ["Success"] nor ["No updates required"]:
    [update_settings] returns [False], after one save request, and the
    slave keeps the mutated settings, which hold the new values. *)
Theorem update_settings_keeps_mutation_when_save_fails (n : string) (i : cell (option dict))
    (o o' : Obj) (l : list Obj) (kwargs : dict) (w : World R) :
  let self := mkSlave n i (Cached (Some (o :: l))) in
  let self' := mkSlave n i (Cached (Some (o' :: l))) in
  let save := SaveSlaveSettings (dict_of_obj o') in
  let status := fst (answer_change save (remote w)) in
  unique_keys (VDict kwargs) ->
  conforms (VDict kwargs) o ->
  write_settings kwargs o = (Ok true, o') ->
  status <> "Success" ->
  status <> "No updates required" ->
  fst (Slave_update_settings self kwargs w) = Ok (false, self') /\
  calls (snd (Slave_update_settings self kwargs w)) = calls w ++ [Change_ save] /\
  holds (VDict kwargs) o' /\
  fst (Slave_settings self' (snd (Slave_update_settings self kwargs w))) = Ok (o', self').
Proof.
  intros self self' save status Hu Hc Hw Hs1 Hs2.
  subst self. rewrite Slave_update_settings_cached. cbv zeta. rewrite Hw.
  fold save. fold status.
  assert (Hf : existsb (String.eqb status) ["Success"; "No updates required"] = false).
  { apply is_success_spec. split; assumption. }
  rewrite Hf. repeat apply conj.
  - reflexivity.
  - run. reflexivity.
  - apply (write_settings_holds kwargs o o' true Hu Hc Hw).
  - reflexivity.
Qed.

(** The same for one keyword whose value is no dictionary and differs from
    the cached one. *)
Lemma update_one_setting_when_save_fails (n : string) (i : cell (option dict))
    (o : Obj) (l : list Obj) (k : string) (v : PyVal) (x : Node) (w : World R) :
  let self := mkSlave n i (Cached (Some (o :: l))) in
  let o' := entry_update o k (fun x => node_store x v) in
  let status := fst (answer_change (SaveSlaveSettings (dict_of_obj o')) (remote w)) in
  is_dict v = false ->
  dict_get o k = Some x ->
  py_ne (node_val x) v = true ->
  status <> "Success" ->
  status <> "No updates required" ->
  fst (Slave_update_settings self [(k, v)] w) = Ok (false, mkSlave n i (Cached (Some (o' :: l)))) /\
  dict_get (dict_of_obj o') k = Some v.
Proof.
  intros self o' status Hv Hx Hne Hs1 Hs2. subst self.
  rewrite Slave_update_settings_cached. cbv zeta.
  rewrite (write_settings_one k v o x Hv Hx), Hne. fold o'. fold status.
  assert (Hf : existsb (String.eqb status) ["Success"; "No updates required"] = false).
  { apply is_success_spec. split; assumption. }
  rewrite Hf. split; [reflexivity|].
  unfold o'. rewrite dict_get_dict_of_obj, dict_get_entry_update_eq, Hx. simpl.
  rewrite node_val_store. reflexivity.
Qed.
End Entities.


(** ** [Group.slaves = ...]: the handler of [GroupSlaves] *)

Lemma bind_on_list {W S A B} (l : DeadlineList S) (m : Method W S A)
    (k : A * DeadlineList S -> M W B) (w : W) :
  bind (on_list l m) k w
  = match m (w, l) with
    | (Ok a, (w', l')) => k (a, l') w'
    | (Raise e, (w', _)) => (Raise e, w')
    end.
Proof. unfold bind, on_list. destruct (m (w, l)) as [[a|e] [w' l']]; reflexivity. Qed.

Lemma bind_outside_Ok {W S A B} (c : M W A) (k : A -> Method W S B) (w w' : W)
    (l : DeadlineList S) (a : A) :
  c w = (Ok a, w') -> bind (outside c) k (w, l) = k a (w', l).
Proof. intros H. unfold bind, outside. cbn [fst snd]. rewrite H. reflexivity. Qed.

Lemma bind_outside_Raise {W S A B} (c : M W A) (k : A -> Method W S B) (w w' : W)
    (l : DeadlineList S) (e : Exn) :
  c w = (Raise e, w') -> bind (outside c) k (w, l) = (Raise e, (w', l)).
Proof. intros H. unfold bind, outside. cbn [fst snd]. rewrite H. reflexivity. Qed.

Lemma outside_Ok {W S A} (c : M W A) (w w' : W) (l : DeadlineList S) (a : A) :
  c w = (Ok a, w') -> outside c (w, l) = (Ok a, (w', l)).
Proof. intros H. unfold outside. cbn [fst snd]. rewrite H. reflexivity. Qed.

Lemma bind_outside_issue {R S A B} (c : ApiCall) (answer : R -> A * R)
    (k : A -> Method (World R) S B) (w : World R) (l : DeadlineList S) :
  bind (outside (issue c answer)) k (w, l)
  = k (fst (answer (remote w))) (requested w c (snd (answer (remote w))), l).
Proof. apply bind_outside_Ok. apply issue_run. Qed.

Lemma bind_outside_logger {R S B} (lv : LogLevel) (f : string) (a : list LogArg)
    (k : unit -> Method (World R) S B) (w : World R) (l : DeadlineList S) :
  bind (outside (logger lv f a)) k (w, l) = k tt (logged w (mkLog lv f a), l).
Proof. reflexivity. Qed.

Lemma setitem_slice_all_run {W S} (hk : Hooks W S) (xs : list raw) (w : W)
    (l : DeadlineList S) :
  DeadlineList_setitem_slice hk slice_all xs (w, l)
  = trigger_set hk (items l) (w, with_items l (map (item_init (item_type l)) xs)).
Proof.
  unfold DeadlineList_setitem_slice. cbn [bind self_items self_item_type gets snd fst].
  rewrite setslice_all. reflexivity.
Qed.

Lemma remove_run {W S} (hk : Hooks W S) (x : raw) (w : W) (l : DeadlineList S) :
  DeadlineList_remove hk x (w, l)
  = match py_list_remove (items l) (item_init (item_type l) x) with
    | Ok new => trigger_remove hk x (w, with_items l new)
    | Raise e => (Raise e, (w, l))
    end.
Proof.
  unfold DeadlineList_remove. cbn [bind self_items self_item_type gets snd fst lift_result].
  destruct (py_list_remove _ _); reflexivity.
Qed.

(** Running a method of a list, one step after the other. *)
Ltac mrun :=
  repeat first
    [ rewrite bind_bind
    | rewrite bind_outside_logger | rewrite bind_outside_issue
    | rewrite api_Slaves
    | progress unfold change, list_names, get_info, get_settings, logger_info, logger_warning
    | progress cbn [bind ret raise gets modify self_source self_items self_item_type
                    set_items set_source fst snd source items item_type
                    with_items with_source]
    | progress autorewrite with world ].

Section Handler.
Context {R : Type} {rs : RemoteService R}.
Variable h : string -> Z.

(** [SlaveGroups.remove] on the proxy of a slave whose info is fetched:
    the group leaves the list, one [RemoveGroupFromSlave] request goes
    out, and the [Grps] field of the info of the slave is rewritten from
    the groups left. *)
Lemma SlaveGroups_remove_run (s : string) (d : dict) (st : cell (option (list Obj)))
    (groups rest : list DeadlineItem) (x : raw) (w : World R) :
  let owner := mkSlave s (Cached (Some d)) st in
  let request := RemoveGroupFromSlave s (raw_str x) in
  py_list_remove groups (item_init CGroup x) = Ok rest ->
  DeadlineList_remove SlaveGroups_hooks x (w, mkList CGroup owner groups)
  = (Ok tt,
     (logged
        (requested
           (logged w (mkLog INFO "Removing %r from %r" [LRaw x; LRaw (RItem (Slave_item owner))]))
           request (snd (answer_change request (remote w))))
        (mkLog INFO (fst (answer_change request (remote w))) []),
      mkList CGroup
        (mkSlave s (Cached (Some (dict_set d "Grps" (VStr (str_join "," (map item_str rest)))))) st)
        rest)).
Proof.
  intros owner request Hr. rewrite remove_run. cbn [items item_type]. rewrite Hr.
  cbn [trigger_remove SlaveGroups_hooks DeadlineList_hooks]. mrun.
  unfold patch_info. mrun.
  rewrite (bind_outside_Ok _ _ _ _ _ _ (eq_refl : Slave_info owner _ = (Ok (Some d, owner), _))).
  mrun. reflexivity.
Qed.

(** [Slave(s).groups.remove(group)] for a slave whose info is not cached
    and lists the group. *)
Lemma remove_group_from_run (G : Group) (s grps : string) (d : dict)
    (rest : list DeadlineItem) (w : World R) :
  let r1 := snd (answer_info s (remote w)) in
  let request := RemoveGroupFromSlave s (group_name G) in
  cache_read (Slave_INFO_CACHE w) s = NOT_SET ->
  fst (answer_info s (remote w)) = d ->
  or_None d = Some d ->
  dict_get d "Grps" = Some (VStr grps) ->
  py_list_remove (map (fun x => item_init CGroup (RStr x)) (str_split "," grps))
                 (item_init CGroup (RItem (Group_item G))) = Ok rest ->
  exists w',
    remove_group_from G (RItem (mkItem CSlave s)) w = (Ok tt, w') /\
    calls w' = calls w ++ [GetSlaveInfo s; Change_ request] /\
    remote w' = snd (answer_change request r1) /\
    Slave_INFO_CACHE w' = Slave_INFO_CACHE w /\
    Slave_SETTINGS_CACHE w' = Slave_SETTINGS_CACHE w.
Proof.
  intros r1 request Hc Hd Hn Hg Hr.
  unfold remove_group_from. rewrite bind_Slave_init. cbn [raw_str name]. rewrite Hc.
  unfold Slave_groups, Slave_info_names. rewrite !bind_bind, bind_Slave_info_fresh.
  rewrite Hd, Hn. cbn [fst snd]. unfold dict_getitem. rewrite Hg.
  cbn [bind ret fst snd]. rewrite bind_on_list.
  unfold SlaveGroups_init, DeadlineList_init. rewrite map_map.
  rewrite (SlaveGroups_remove_run s d _ _ rest (RItem (Group_item G)) _ Hr).
  eexists. split; [reflexivity|]. autorewrite with world.
  rewrite <- app_assoc. repeat split.
Qed.
End Handler.

Section Assignment.
Context {R : Type} {rs : RemoteService R}.
Variable h : string -> Z.

Lemma item_eq_same_class (c : Cls) (a b : string) :
  item_eq (mkItem c a) (RItem (mkItem c b)) = String.eqb (str_lower a) (str_lower b).
Proof. apply item_eq_names. Qed.

Lemma contains_raw (l : list DeadlineItem) (c : Cls) (x : raw) :
  py_list_contains l (RItem (item_init c x)) = py_list_contains l x.
Proof.
  unfold py_list_contains. induction l as [|e l IH]; simpl; [reflexivity|].
  rewrite IH, !item_eq_names. cbn [raw_str]. rewrite item_init_name. reflexivity.
Qed.

(** The two differences the handler takes, for one slave kept, one added
    and one removed. *)
Lemma difference_of_memberships (a b c : string) :
  String.eqb (str_lower a) (str_lower b) = false ->
  String.eqb (str_lower a) (str_lower c) = false ->
  String.eqb (str_lower b) (str_lower c) = false ->
  set_difference h (py_set h [mkItem CSlave a; mkItem CSlave b])
                   (py_set h [mkItem CSlave a; mkItem CSlave c])
  = [mkItem CSlave b].
Proof.
  intros Hab Hac Hbc.
  assert (Hba : String.eqb (str_lower b) (str_lower a) = false)
    by (rewrite String.eqb_sym; exact Hab).
  assert (Hca : String.eqb (str_lower c) (str_lower a) = false)
    by (rewrite String.eqb_sym; exact Hac).
  assert (Hcb : String.eqb (str_lower c) (str_lower b) = false)
    by (rewrite String.eqb_sym; exact Hbc).
  unfold set_difference, py_set, set_contains.
  repeat (progress (cbn [fold_left existsb app List.filter orb andb negb];
                    rewrite ?item_eq_same_class, ?Hab, ?Hac, ?Hbc, ?Hba, ?Hca, ?Hcb,
                      ?andb_false_r, ?Z.eqb_refl, ?String.eqb_refl)).
  reflexivity.
Qed.

(** [g in Slave(s).groups] on a slave whose info is not cached: the answer
    is read off the info the farm reports then. *)
Lemma Slave_in_group_run (s g grps : string) (d : dict) (w : World R) :
  cache_read (Slave_INFO_CACHE w) s = NOT_SET ->
  fst (answer_info s (remote w)) = d ->
  or_None d = Some d ->
  dict_get d "Grps" = Some (VStr grps) ->
  fst (Slave_in_group s g w)
  = Ok (py_list_contains (map (mkItem CGroup) (str_split "," grps)) (RStr g)).
Proof.
  intros Hc Hd Hn Hg. unfold Slave_in_group. rewrite bind_Slave_init. cbn [raw_str]. rewrite Hc.
  unfold Slave_groups, Slave_info_names. rewrite !bind_bind, bind_Slave_info_fresh.
  rewrite Hd, Hn. cbn [fst snd]. unfold dict_getitem. rewrite Hg.
  cbn [bind ret fst snd SlaveGroups_init DeadlineList_init items]. rewrite map_map.
  reflexivity.
Qed.

(** C2, as amended.  For a group [g] whose members are fetched as
    [s1, s3] (three names that differ even when case is ignored), where the
    info fetched for [s3] lists [g]: [Group(g).slaves = [s1, s2]] makes the
    handler take the two set differences and issue one [SetGroupsForSlave]
    request for the added slave [s2], then, for the removed slave [s3], one
    [GetSlaveInfo] and one [RemoveGroupFromSlave] request through the group
    proxy of [s3] (whose [remove] patches the [Grps] field of its own
    [Slave] object, [SlaveGroups_remove_run]).  If the farm has applied
    both changes, that is, its info for [s2] now lists [g] and its info for
    [s3] does not, then afterwards [Slave(s2).groups] contains [g] and
    [Slave(s3).groups] does not. *)
Theorem Group_slaves_assignment_reaches_the_farm
    (g s1 s2 s3 grps3 : string) (d3 : dict) (r : R) :
  let assign := SetGroupsForSlave (ManyNames [s2]) (OneName g) in
  let remove := RemoveGroupFromSlave s3 g in
  let r1 := snd (answer_listing (GetSlaveNamesInGroup g) r) in
  let r2 := snd (answer_change assign r1) in
  let r3 := snd (answer_info s3 r2) in
  let r4 := snd (answer_change remove r3) in
  let run := Group_assign_slaves h g [RStr s1; RStr s2] (initial_world r) in
  let lists (s : string) (groups : string) :=
    exists d, fst (answer_info s r4) = d /\ or_None d = Some d /\
              dict_get d "Grps" = Some (VStr groups) in
  str_lower s1 <> str_lower s2 ->
  str_lower s1 <> str_lower s3 ->
  str_lower s2 <> str_lower s3 ->
  fst (answer_listing (GetSlaveNamesInGroup g) r) = [s1; s3] ->
  fst (answer_info s3 r2) = d3 ->
  or_None d3 = Some d3 ->
  dict_get d3 "Grps" = Some (VStr grps3) ->
  py_list_contains (map (mkItem CGroup) (str_split "," grps3)) (RStr g) = true ->
  fst run = Ok (mkGroup g (Cached [s1; s3])) /\
  calls (snd run)
  = [Listing_ (GetSlaveNamesInGroup g); Change_ assign; GetSlaveInfo s3; Change_ remove] /\
  remote (snd run) = r4 /\
  (forall groups,
      lists s2 groups ->
      py_list_contains (map (mkItem CGroup) (str_split "," groups)) (RStr g) = true ->
      fst (Slave_in_group s2 g (snd run)) = Ok true) /\
  (forall groups,
      lists s3 groups ->
      py_list_contains (map (mkItem CGroup) (str_split "," groups)) (RStr g) = false ->
      fst (Slave_in_group s3 g (snd run)) = Ok false).
Proof.
  intros assign remove r1 r2 r3 r4 run lists H12 H13 H23 Hl Hd3 Hn3 Hg3 Hin3.
  apply String.eqb_neq in H12, H13, H23.
  assert (H21 : String.eqb (str_lower s2) (str_lower s1) = false)
    by (rewrite String.eqb_sym; exact H12).
  assert (H31 : String.eqb (str_lower s3) (str_lower s1) = false)
    by (rewrite String.eqb_sym; exact H13).
  assert (H32 : String.eqb (str_lower s3) (str_lower s2) = false)
    by (rewrite String.eqb_sym; exact H23).
  (* the removal of [g] from the groups of [s3] succeeds *)
  destruct (list_remove_first_found
              (fun e => item_eq e (RItem (item_init CGroup (RItem (mkItem CGroup g)))))
              (map (fun x => item_init CGroup (RStr x)) (str_split "," grps3)))
    as (before & e & after & _ & _ & _ & Hrm).
  { change (py_list_contains (map (mkItem CGroup) (str_split "," grps3))
                              (RItem (item_init CGroup (RStr g))) = true).
    rewrite contains_raw. exact Hin3. }
  set (rest := before ++ after) in Hrm.
  subst run. unfold Group_assign_slaves, Group_init, Group_slaves_set, Group_slaves, Group__slaves.
  cbn [item_str item_init name raw_str isinstance]. exec.
  cbn [group_slaves_cache group_name]. exec. rewrite Hl.
  rewrite bind_on_list, setitem_slice_all_run.
  cbn [GroupSlaves_init DeadlineList_init items item_type map item_init isinstance raw_str
       with_items source].
  cbn [trigger_set GroupSlaves_hooks DeadlineList_hooks]. mrun.
  cbn [GroupSlaves_init DeadlineList_init source group_name item_init isinstance raw_str map].
  change (item_init CSlave (RStr s1)) with (mkItem CSlave s1).
  change (item_init CSlave (RStr s2)) with (mkItem CSlave s2).
  change (item_init CSlave (RStr s3)) with (mkItem CSlave s3).
  rewrite (difference_of_memberships s1 s2 s3 H12 H13 H23).
  rewrite (difference_of_memberships s1 s3 s2 H13 H12 H32).
  cbn [map item_str name for_each].
  match goal with |- context [remove_group_from ?G _] =>
    match goal with |- context [outside _ (?w, _)] =>
      destruct (remove_group_from_run G s3 grps3 d3 rest w)
        as (w' & Hrun & Hcalls & Hrem & Hic & Hsc)
    end
  end.
  { exec. reflexivity. }
  { exec. exact Hd3. }
  { exact Hn3. }
  { exact Hg3. }
  { exact Hrm. }
  rewrite (outside_Ok _ _ w' _ tt (bind_Ok _ _ _ _ _ Hrun)).
  cbn [bind ret fst snd source with_items].
  revert Hcalls Hrem Hic Hsc. exec. intros Hcalls Hrem Hic Hsc.
  repeat apply conj.
  - reflexivity.
  - rewrite Hcalls. reflexivity.
  - rewrite Hrem. reflexivity.
  - intros groups (d & Hd & Hn & Hg) Hin.
    rewrite (Slave_in_group_run s2 g groups d w'); [rewrite Hin; reflexivity | | | exact Hn | exact Hg].
    + rewrite Hic. apply cache_read_empty.
    + rewrite Hrem. exact Hd.
  - intros groups (d & Hd & Hn & Hg) Hin.
    rewrite (Slave_in_group_run s3 g groups d w'); [rewrite Hin; reflexivity | | | exact Hn | exact Hg].
    + rewrite Hic. apply cache_read_empty.
    + rewrite Hrem. exact Hd.
Qed.
End Assignment.

(** ** Runs against the small farm *)

(** C4 as stated fails where the farm refuses the save: the cached value
    of [Enable] is [False], one save request goes out, and
    [update_settings(Enable=True)] returns [False]. *)
Lemma enable_returns_False_when_the_save_is_refused :
  let o := obj_of_dict (farm_settings node_2) in
  let self := mkSlave "node-2" NOT_SET (Cached (Some [o])) in
  let w := initial_world (small_farm false) in
  dict_get (dict_of_obj o) "Enable" = Some (VBool false) /\
  (exists self', fst (Slave_enable self w) = Ok (false, self')) /\
  length (calls (snd (Slave_enable self w))) = 1.
Proof.
  intros o self w. split; [reflexivity|]. split; [|reflexivity].
  eexists. reflexivity.
Qed.

Lemma enable_saves_once_only_on_change_witness :
  let o := obj_of_dict (farm_settings node_2) in
  let o' := entry_update o "Enable" (fun x => node_store x (VBool true)) in
  let self := mkSlave "node-2" NOT_SET (Cached (Some [o])) in
  let w := initial_world (small_farm true) in
  dict_get o "Enable" = Some (NVal (VBool false)) /\
  py_eq (node_val (NVal (VBool false))) (VBool true) = false /\
  fst (Slave_enable self w) = Ok (true, mkSlave "node-2" NOT_SET (Cached (Some [o']))) /\
  calls (snd (Slave_enable self w)) = [Change_ (SaveSlaveSettings (dict_of_obj o'))].
Proof.
  intros o o' self w.
  pose proof (enable_saves_once_only_on_change "node-2" NOT_SET o [] (NVal (VBool false)) w
                eq_refl) as [_ H].
  specialize (H eq_refl). destruct H as (H1 & H2 & _).
  split; [reflexivity|]. split; [reflexivity|]. split; [exact H1 | exact H2].
Defined.

Lemma update_settings_keeps_mutation_when_save_fails_witness :
  let o := obj_of_dict (farm_settings node_2) in
  let kwargs := [("Enable", VBool true); ("ExDic", VDict [("Owner", VStr "ops")])] in
  let o' := snd (write_settings kwargs o) in
  let self := mkSlave "node-2" NOT_SET (Cached (Some [o])) in
  let w := initial_world (small_farm false) in
  unique_keys (VDict kwargs) /\
  conforms (VDict kwargs) o /\
  write_settings kwargs o = (Ok true, o') /\
  fst (Slave_update_settings self kwargs w)
  = Ok (false, mkSlave "node-2" NOT_SET (Cached (Some [o']))) /\
  holds (VDict kwargs) o' /\
  dict_of_obj o'
  = [("Name", VStr "node-2"); ("Enable", VBool true); ("ExDic", VDict [("Owner", VStr "ops")])].
Proof.
  intros o kwargs o' self w.
  assert (Hu : unique_keys (VDict kwargs)).
  { apply unique_keys_cons. split; [|split].
    - simpl. intros [H|[]]. discriminate H.
    - exact I.
    - simpl. repeat split; apply NoDup_singleton. }
  assert (Hc : conforms (VDict kwargs) o).
  { simpl. auto. }
  assert (Hw : write_settings kwargs o = (Ok true, o')) by reflexivity.
  destruct (update_settings_keeps_mutation_when_save_fails
              "node-2" NOT_SET o o' [] kwargs w Hu Hc Hw) as (H1 & _ & H3 & _).
  - discriminate.
  - discriminate.
  - split; [exact Hu|]. split; [exact Hc|]. split; [exact Hw|].
    split; [exact H1|]. split; [exact H3 | reflexivity].
Defined.

(** C2 as stated fails where the farm refuses the changes: the assignment
    returns, both requests went out, and afterwards [Slave(s2).groups] does
    not contain [g] while [Slave(s3).groups] still does. *)
Lemma assignment_is_lost_when_the_farm_refuses :
  let run := Group_assign_slaves length_hash "gpu" [RStr "node-1"; RStr "node-2"]
                                 (initial_world (small_farm false)) in
  fst (answer_listing (GetSlaveNamesInGroup "gpu") (small_farm false)) = ["node-1"; "node-3"] /\
  fst run = Ok (mkGroup "gpu" (Cached ["node-1"; "node-3"])) /\
  calls (snd run)
  = [Listing_ (GetSlaveNamesInGroup "gpu");
     Change_ (SetGroupsForSlave (ManyNames ["node-2"]) (OneName "gpu"));
     GetSlaveInfo "node-3";
     Change_ (RemoveGroupFromSlave "node-3" "gpu")] /\
  fst (Slave_in_group "node-2" "gpu" (snd run)) = Ok false /\
  fst (Slave_in_group "node-3" "gpu" (snd run)) = Ok true.
Proof.
  vm_compute. repeat split.
Qed.

Lemma Group_slaves_assignment_reaches_the_farm_witness :
  let run := Group_assign_slaves length_hash "gpu" [RStr "node-1"; RStr "node-2"]
                                 (initial_world (small_farm true)) in
  (str_lower "node-1" <> str_lower "node-2" /\
   str_lower "node-1" <> str_lower "node-3" /\
   str_lower "node-2" <> str_lower "node-3") /\
  fst (answer_listing (GetSlaveNamesInGroup "gpu") (small_farm true)) = ["node-1"; "node-3"] /\
  fst run = Ok (mkGroup "gpu" (Cached ["node-1"; "node-3"])) /\
  calls (snd run)
  = [Listing_ (GetSlaveNamesInGroup "gpu");
     Change_ (SetGroupsForSlave (ManyNames ["node-2"]) (OneName "gpu"));
     GetSlaveInfo "node-3";
     Change_ (RemoveGroupFromSlave "node-3" "gpu")] /\
  fst (Slave_in_group "node-2" "gpu" (snd run)) = Ok true /\
  fst (Slave_in_group "node-3" "gpu" (snd run)) = Ok false.
Proof.
  intros run.
  assert (H12 : str_lower "node-1" <> str_lower "node-2") by discriminate.
  assert (H13 : str_lower "node-1" <> str_lower "node-3") by discriminate.
  assert (H23 : str_lower "node-2" <> str_lower "node-3") by discriminate.
  assert (Hl : fst (answer_listing (GetSlaveNamesInGroup "gpu") (small_farm true))
               = ["node-1"; "node-3"]) by reflexivity.
  pose proof (Group_slaves_assignment_reaches_the_farm
                length_hash "gpu" "node-1" "node-2" "node-3" "gpu" (farm_info node_3)
                (small_farm true) H12 H13 H23 Hl) as H.
  cbv zeta in H. specialize (H eq_refl eq_refl eq_refl eq_refl).
  destruct H as (H1 & H2 & _ & H4 & H5).
  split; [auto|]. split; [reflexivity|]. split; [exact H1|]. split; [exact H2|]. split.
  - apply (H4 "gpu"); [|reflexivity]. eexists. split; [reflexivity|]. split; reflexivity.
  - apply (H5 EmptyString); [|reflexivity]. eexists. split; [reflexivity|]. split; reflexivity.
Defined.

(** ** Equality and ordering of items *)

Lemma item_eq_lower (a : DeadlineItem) (v : raw) :
  item_eq a v = true <-> item_lower a = str_lower (raw_str v).
Proof.
  rewrite item_eq_names. unfold item_lower, item_str. apply String.eqb_eq.
Qed.

Lemma item_repr_class (a b : DeadlineItem) : item_repr a = item_repr b -> cls a = cls b.
Proof.
  unfold item_repr. destruct (cls a), (cls b); simpl; intros H; (reflexivity || discriminate H).
Qed.

(** X1.  [==] on items is an equivalence that looks at the lower-cased names
    only: it does not tell a name from the item made of it, nor a slave
    from a group or a pool of the same name, although their [repr], which
    is what [hash] is computed from, differs. *)
Theorem DeadlineItem_eq_is_an_equivalence_on_lowered_names :
  (forall a : DeadlineItem, item_eq a (RItem a) = true) /\
  (forall a b : DeadlineItem, item_eq a (RItem b) = item_eq b (RItem a)) /\
  (forall a b c : DeadlineItem,
      item_eq a (RItem b) = true -> item_eq b (RItem c) = true -> item_eq a (RItem c) = true) /\
  (forall (a : DeadlineItem) (v : raw),
      (item_eq a v = true <-> item_lower a = str_lower (raw_str v)) /\
      item_ne a v = negb (item_eq a v) /\
      item_eq a v = item_eq a (RStr (raw_str v))) /\
  (forall (c c' : Cls) (n : string),
      c <> c' ->
      item_eq (item_init c (RStr n)) (RItem (item_init c' (RStr n))) = true /\
      item_repr (item_init c (RStr n)) <> item_repr (item_init c' (RStr n))).
Proof.
  split; [|split; [|split; [|split]]].
  - intros a. rewrite item_eq_names. apply String.eqb_refl.
  - intros a b. rewrite !item_eq_names. apply String.eqb_sym.
  - intros a b c. rewrite !item_eq_names, !String.eqb_eq. cbn [raw_str]. congruence.
  - intros a v. split; [apply item_eq_lower|]. split; [reflexivity|].
    rewrite !item_eq_names. reflexivity.
  - intros c c' n Hc. split.
    + rewrite item_eq_names. apply String.eqb_refl.
    + intros H. apply item_repr_class in H. exact (Hc H).
Qed.

Lemma DeadlineItem_eq_is_an_equivalence_on_lowered_names_witness :
  item_eq (mkItem CSlave "Node-1") (RItem (mkItem CGroup "NODE-1")) = true /\
  item_repr (mkItem CSlave "gpu") <> item_repr (mkItem CGroup "gpu").
Proof.
  destruct DeadlineItem_eq_is_an_equivalence_on_lowered_names as (_ & _ & Ht & _ & Hc).
  split.
  - apply (Ht (mkItem CSlave "Node-1") (mkItem CPool "node-1") (mkItem CGroup "NODE-1"));
      reflexivity.
  - apply (Hc CSlave CGroup "gpu"). discriminate.
Defined.

Lemma ascii_compare_refl (c : ascii) : Ascii.compare c c = Eq.
Proof. unfold Ascii.compare. apply N.compare_refl. Qed.

Lemma string_compare_refl (s : string) : String.compare s s = Eq.
Proof. induction s as [|c s IH]; simpl; [reflexivity|]. rewrite ascii_compare_refl. exact IH. Qed.






(** ** [DeadlineList]: reading, and mutations that undo each other *)

Lemma list_index_first_found {A} (same : A -> bool) (l : list A) :
  existsb same l = true ->
  exists (i : nat) (e : A),
    list_index_first same l = Ok (Z.of_nat i) /\
    l !! i = Some e /\ same e = true /\ existsb same (take i l) = false.
Proof.
  induction l as [|a l IH]; simpl; intros H.
  - discriminate.
  - destruct (same a) eqn:Ha.
    + exists 0%nat, a. repeat split; assumption.
    + simpl in H. destruct (IH H) as (i & e & Hi & He & Hs & Hb).
      exists (S i), e. rewrite Hi. simpl. rewrite Ha, Hb.
      repeat split; try assumption. f_equal. lia.
Qed.

Lemma list_index_first_missing {A} (same : A -> bool) (l : list A) :
  existsb same l = false -> list_index_first same l = Raise ValueError.
Proof.
  induction l as [|a l IH]; simpl; intros H.
  - reflexivity.
  - apply orb_false_iff in H as [Ha Hl]. rewrite Ha, (IH Hl). reflexivity.
Qed.

Lemma norm_index_nonneg (len : Z) (i : nat) :
  (Z.of_nat i < len)%Z -> norm_index len (Z.of_nat i) = Some i.
Proof.
  intros H. unfold norm_index.
  destruct (Z.ltb_spec (Z.of_nat i) 0); [lia|].
  destruct (Z.leb_spec 0 (Z.of_nat i)); [|lia].
  destruct (Z.ltb_spec (Z.of_nat i) len); [|lia].
  simpl. rewrite Nat2Z.id. reflexivity.
Qed.

(** X3.  [index], [__getitem__] and [__len__] read the list and nothing else:
    no hook runs and the list stays as it is.  [P.index(x)] is the
    position of the first element equal to [T(x)], so that
    [P[P.index(x)] == T(x)], and raises [ValueError] when there is none;
    [P[i]] raises [IndexError] exactly when [i] is outside
    [-len(P) .. len(P) - 1], and [P[i - len(P)]] is [P[i]]. *)
Theorem DeadlineList_index_is_the_first_match {W S} (P : DeadlineList S) (w : W) (x : raw) :
  let v := item_init (item_type P) x in
  (py_list_contains (items P) (RItem v) = true ->
   exists (i : nat) (e : DeadlineItem),
     DeadlineList_index x (w, P) = (Ok (Z.of_nat i), (w, P)) /\
     DeadlineList_getitem (Z.of_nat i) (w, P) = (Ok e, (w, P)) /\
     DeadlineList_getitem (Z.of_nat i - py_len (items P)) (w, P) = (Ok e, (w, P)) /\
     item_eq e (RItem v) = true /\
     py_list_contains (take i (items P)) (RItem v) = false) /\
  (py_list_contains (items P) (RItem v) = false ->
   DeadlineList_index x (w, P) = (Raise ValueError, (w, P))) /\
  DeadlineList_len (w, P) = (Ok (py_len (items P)), (w, P)) /\
  (forall i : Z,
      (i < - py_len (items P) \/ py_len (items P) <= i)%Z ->
      DeadlineList_getitem i (w, P) = (Raise IndexError, (w, P))).
Proof.
  intros v. split; [|split; [|split]].
  - intros H. destruct (list_index_first_found _ _ H) as (i & e & Hi & He & Hs & Hb).
    exists i, e.
    assert (Hlen : (Z.of_nat i < py_len (items P))%Z).
    { unfold py_len. apply lookup_lt_Some in He. lia. }
    split; [|split; [|split; [|split]]].
    + unfold DeadlineList_index, py_list_index.
      cbn [bind self_items self_item_type gets lift_result snd]. fold v. rewrite Hi. reflexivity.
    + unfold DeadlineList_getitem. cbn [bind self_items gets snd].
      rewrite (norm_index_nonneg _ _ Hlen), He. reflexivity.
    + unfold DeadlineList_getitem. cbn [bind self_items gets snd].
      unfold norm_index.
      destruct (Z.ltb_spec (Z.of_nat i - py_len (items P)) 0); [|lia].
      replace (Z.of_nat i - py_len (items P) + py_len (items P))%Z with (Z.of_nat i) by lia.
      destruct (Z.leb_spec 0 (Z.of_nat i)); [|lia].
      destruct (Z.ltb_spec (Z.of_nat i) (py_len (items P))); [|lia].
      simpl. rewrite Nat2Z.id, He. reflexivity.
    + exact Hs.
    + exact Hb.
  - intros H. unfold DeadlineList_index, py_list_index.
    cbn [bind self_items self_item_type gets lift_result snd]. fold v.
    rewrite (list_index_first_missing _ _ H). reflexivity.
  - reflexivity.
  - intros i Hi. unfold DeadlineList_getitem. cbn [bind self_items gets snd].
    unfold norm_index. pose proof (Nat2Z.is_nonneg (length (items P))) as Hn.
    unfold py_len in *.
    destruct (Z.ltb_spec i 0).
    + destruct (Z.leb_spec 0 (i + Z.of_nat (length (items P)))); simpl; [|reflexivity].
      destruct (Z.ltb_spec (i + Z.of_nat (length (items P))) (Z.of_nat (length (items P))));
        [|reflexivity]. lia.
    + destruct (Z.leb_spec 0 i); simpl; [|reflexivity].
      destruct (Z.ltb_spec i (Z.of_nat (length (items P)))); [lia | reflexivity].
Qed.

Lemma DeadlineList_index_is_the_first_match_witness :
  let P := mkList CGroup tt [mkItem CGroup "gpu"; mkItem CGroup "Linux"; mkItem CGroup "linux"] in
  let v := mkItem CGroup "LINUX" in
  py_list_contains (items P) (RItem v) = true /\
  (exists (i : nat) (e : DeadlineItem),
      DeadlineList_index (RStr "LINUX") (tt, P) = (Ok (Z.of_nat i), (tt, P)) /\
      DeadlineList_getitem (Z.of_nat i) (tt, P) = (Ok e, (tt, P)) /\
      DeadlineList_getitem (Z.of_nat i - py_len (items P)) (tt, P) = (Ok e, (tt, P)) /\
      item_eq e (RItem v) = true /\
      py_list_contains (take i (items P)) (RItem v) = false) /\
  DeadlineList_index (RStr "cpu") (tt, P) = (Raise ValueError, (tt, P)).
Proof.
  intros P v.
  destruct (DeadlineList_index_is_the_first_match P tt (RStr "LINUX")) as (Hf & _).
  destruct (DeadlineList_index_is_the_first_match P tt (RStr "cpu")) as (_ & Hm & _).
  split; [reflexivity|]. split; [exact (Hf eq_refl) | exact (Hm eq_refl)].
Defined.


Lemma with_items_same {S} (P : DeadlineList S) : with_items P (items P) = P.
Proof. destruct P; reflexivity. Qed.


Lemma list_remove_first_app {A} (same : A -> bool) (l : list A) (v : A) :
  existsb same l = false -> same v = true -> list_remove_first same (l ++ [v]) = Ok l.
Proof.
  induction l as [|a l IH]; simpl; intros H Hv.
  - rewrite Hv. reflexivity.
  - apply orb_false_iff in H as [Ha Hl]. rewrite Ha, (IH Hl Hv). reflexivity.
Qed.

Lemma list_remove_first_app_l {A} (same : A -> bool) (l r : list A) (t : list A) :
  list_remove_first same l = Ok r -> list_remove_first same (l ++ t) = Ok (r ++ t).
Proof.
  revert r. induction l as [|a l IH]; simpl; intros r H.
  - discriminate.
  - destruct (same a).
    + injection H as <-. reflexivity.
    + destruct (list_remove_first same l) as [r'|e]; [|discriminate].
      injection H as <-. rewrite (IH r' eq_refl). reflexivity.
Qed.

(** X5.  [append(x)] then [remove(x)]: when no element was equal to [T(x)]
    the list is as it was; when one was, it is the first of those that
    goes and the appended element stays last.  [trigger_add] ran on
    [T(x)], [trigger_remove] on [x] as the caller passed it. *)
Theorem DeadlineList_append_then_remove {S} (P : DeadlineList S) (tr : list HookCall) (x : raw) :
  let v := item_init (item_type P) x in
  let appended := snd (DeadlineList_append recording x (tr, P)) in
  let hooks := tr ++ [OnAdd v; OnRemove x] in
  (py_list_contains (items P) (RItem v) = false ->
   DeadlineList_remove recording x appended = (Ok tt, (hooks, P))) /\
  (py_list_contains (items P) (RItem v) = true ->
   exists before e after,
     items P = before ++ e :: after /\
     item_eq e (RItem v) = true /\
     py_list_contains before (RItem v) = false /\
     DeadlineList_remove recording x appended
     = (Ok tt, (hooks, with_items P (before ++ after ++ [v])))).
Proof.
  intros v appended hooks. subst appended hooks. rewrite append_recorded. cbn [snd]. fold v.
  assert (Hv : item_eq v (RItem v) = true) by (rewrite item_eq_names; apply String.eqb_refl).
  split.
  - intros H. rewrite remove_recorded. cbn [with_items items item_type]. fold v.
    unfold py_list_remove. rewrite (list_remove_first_app _ _ v H Hv).
    rewrite <- app_assoc. destruct P; reflexivity.
  - intros H. destruct (list_remove_first_found _ _ H) as (before & e & after & Hl & He & Hb & Hr).
    exists before, e, after. split; [exact Hl|]. split; [exact He|]. split; [exact Hb|].
    rewrite remove_recorded. cbn [with_items items item_type]. fold v.
    unfold py_list_remove. rewrite (list_remove_first_app_l _ _ _ [v] Hr).
    rewrite <- !app_assoc. reflexivity.
Qed.

Lemma DeadlineList_append_then_remove_witness :
  let P := mkList CGroup tt [mkItem CGroup "gpu"; mkItem CGroup "linux"] in
  let run (x : raw) :=
    DeadlineList_remove recording x (snd (DeadlineList_append recording x ([], P))) in
  py_list_contains (items P) (RItem (mkItem CGroup "cpu")) = false /\
  run (RStr "cpu") = (Ok tt, ([OnAdd (mkItem CGroup "cpu"); OnRemove (RStr "cpu")], P)) /\
  py_list_contains (items P) (RItem (mkItem CGroup "GPU")) = true /\
  (exists before e after,
      items P = before ++ e :: after /\
      item_eq e (RItem (mkItem CGroup "GPU")) = true /\
      py_list_contains before (RItem (mkItem CGroup "GPU")) = false /\
      run (RStr "GPU")
      = (Ok tt, ([OnAdd (mkItem CGroup "GPU"); OnRemove (RStr "GPU")],
                 with_items P (before ++ after ++ [mkItem CGroup "GPU"])))).
Proof.
  intros P run.
  destruct (DeadlineList_append_then_remove P [] (RStr "cpu")) as [Hn _].
  destruct (DeadlineList_append_then_remove P [] (RStr "GPU")) as [_ Hy].
  split; [reflexivity|]. split; [exact (Hn eq_refl)|].
  split; [reflexivity | exact (Hy eq_refl)].
Defined.


(** ** [DeadlineList]: slices of step one *)

Lemma adjust_bound_range (len : Z) (is_start : bool) (b : option Z) :
  (0 <= len)%Z -> (0 <= adjust_bound len 1 is_start b <= len)%Z.
Proof.
  intros Hlen. unfold adjust_bound. change (1 <? 0)%Z with false. cbv iota.
  destruct b as [v|].
  - destruct (Z.ltb_spec v 0).
    + destruct (Z.ltb_spec (v + len) 0); lia.
    + destruct (Z.leb_spec len v); lia.
  - destruct is_start; lia.
Qed.

(** X27.  [P[a:b] = xs] and [del P[a:b]], with the step left out or given
    as 1, never raise, whatever the bounds: the bounds are clamped to the
    list, the elements before the slice stay, the values take the place of
    the elements selected (the list grows or shrinks by the difference),
    and [trigger_set] runs once, on the elements as they were.  With a
    step of 0 both raise [ValueError]; no hook runs and the list is
    untouched. *)
Theorem DeadlineList_slices_of_step_one_never_raise {S} (P : DeadlineList S)
    (tr : list HookCall) (a b : option Z) (explicit : bool) (xs : list raw) :
  let s := mkSlice a b (if explicit then Some 1%Z else None) in
  let zero := mkSlice a b (Some 0%Z) in
  let T := item_init (item_type P) in
  let n := py_len (items P) in
  let start := adjust_bound n 1 true a in
  let stop := adjust_bound n 1 false b in
  let selected := Z.max 0 (stop - start) in
  let hooks := tr ++ [OnSet (items P)] in
  (0 <= start <= n)%Z /\
  (0 <= stop <= n)%Z /\
  (exists l : list DeadlineItem,
      DeadlineList_setitem_slice recording s xs (tr, P) = (Ok tt, (hooks, with_items P l)) /\
      py_len l = (n - selected + py_len xs)%Z /\
      take (Z.to_nat start) l = take (Z.to_nat start) (items P) /\
      (forall (k : nat) (x : raw),
          xs !! k = Some x -> l !! (Z.to_nat start + k)%nat = Some (T x))) /\
  (exists l : list DeadlineItem,
      DeadlineList_delitem recording (ISlice s) (tr, P) = (Ok tt, (hooks, with_items P l)) /\
      py_len l = (n - selected)%Z /\
      take (Z.to_nat start) l = take (Z.to_nat start) (items P)) /\
  DeadlineList_setitem_slice recording zero xs (tr, P) = (Raise ValueError, (tr, P)) /\
  DeadlineList_delitem recording (ISlice zero) (tr, P) = (Raise ValueError, (tr, P)).
Proof.
  intros s zero T n start stop selected hooks.
  assert (Hn : (0 <= n)%Z) by (unfold n, py_len; lia).
  pose proof (adjust_bound_range n true a Hn) as Hstart. fold start in Hstart.
  pose proof (adjust_bound_range n false b Hn) as Hstop. fold stop in Hstop.
  assert (Hlen : length (items P) = Z.to_nat n) by (unfold n, py_len; lia).
  assert (Hset : py_list_setslice (items P) s (map T xs)
                 = Ok (take (Z.to_nat start) (items P) ++ map T xs
                         ++ drop (Z.to_nat (Z.max start stop)) (items P))).
  { unfold py_list_setslice, s. destruct explicit; reflexivity. }
  assert (Hdel : py_list_delslice (items P) s
                 = Ok (take (Z.to_nat start) (items P)
                         ++ drop (Z.to_nat (Z.max start stop)) (items P))).
  { unfold py_list_delslice, s. destruct explicit; reflexivity. }
  assert (Htake : length (take (Z.to_nat start) (items P)) = Z.to_nat start).
  { rewrite length_take. lia. }
  split; [exact Hstart|]. split; [exact Hstop|]. split; [|split; [|split]].
  - eexists. split; [|split; [|split]].
    + rewrite setitem_slice_recorded. fold T. rewrite Hset. reflexivity.
    + unfold py_len. rewrite !length_app, length_map, length_drop, Htake, Hlen.
      unfold selected. lia.
    + rewrite take_app_length'; [reflexivity | symmetry; exact Htake].
    + intros k x Hk. rewrite lookup_app_r by lia. rewrite Htake.
      replace (Z.to_nat start + k - Z.to_nat start)%nat with k by lia.
      apply lookup_app_l_Some.
      change (map T xs) with (T <$> xs). rewrite list_lookup_fmap, Hk. reflexivity.
  - eexists. split; [|split].
    + rewrite delitem_recorded. rewrite Hdel. reflexivity.
    + unfold py_len. rewrite !length_app, length_drop, Htake, Hlen. unfold selected. lia.
    + rewrite take_app_length'; [reflexivity | symmetry; exact Htake].
  - rewrite setitem_slice_recorded. reflexivity.
  - rewrite delitem_recorded. reflexivity.
Qed.

(** ** The comma-separated fields of the info: [split] and [join] *)

Lemma str_split_nonempty (c : ascii) (s : string) : str_split c s <> [].
Proof.
  destruct s as [|a s]; simpl; [discriminate|].
  destruct (Ascii.eqb a c); [discriminate|]. destruct (str_split c s); discriminate.
Qed.

Lemma str_join_cons (sep x : string) (l : list string) :
  l <> [] -> str_join sep (x :: l) = (x ++ sep ++ str_join sep l)%string.
Proof. destruct l; [contradiction | reflexivity]. Qed.

Lemma str_append_String (x : ascii) (a b : string) :
  (String x a ++ b)%string = String x (a ++ b)%string.
Proof. reflexivity. Qed.

Lemma str_append_Empty (b : string) : (EmptyString ++ b)%string = b.
Proof. reflexivity. Qed.

Lemma str_append_assoc (a b c : string) : ((a ++ b) ++ c = a ++ (b ++ c))%string.
Proof.
  induction a as [|x a IH]; [reflexivity|].
  rewrite !str_append_String. f_equal. exact IH.
Qed.

Lemma str_join_split (c : ascii) (s : string) :
  str_join (String c EmptyString) (str_split c s) = s.
Proof.
  induction s as [|a s IH]; [reflexivity|].
  cbn [str_split]. destruct (Ascii.eqb_spec a c) as [->|Hne].
  - rewrite str_join_cons by apply str_split_nonempty. rewrite IH. reflexivity.
  - pose proof (str_split_nonempty c s) as Hn.
    destruct (str_split c s) as [|piece rest]; [contradiction|].
    destruct rest as [|r rest].
    + cbn [str_join] in *. rewrite IH. reflexivity.
    + rewrite str_join_cons by discriminate. rewrite str_join_cons in IH by discriminate.
      rewrite str_append_String, IH. reflexivity.
Qed.

Lemma str_split_plain (c : ascii) (x : string) : str_mem c x = false -> str_split c x = [x].
Proof.
  induction x as [|a x IH]; simpl; intros H; [reflexivity|].
  apply orb_false_iff in H as [Ha Hx]. rewrite Ascii.eqb_sym, Ha, (IH Hx). reflexivity.
Qed.

Lemma str_split_app (c : ascii) (a b : string) :
  str_mem c a = false -> str_split c (a ++ String c b)%string = a :: str_split c b.
Proof.
  induction a as [|x a IH]; intros H.
  - rewrite str_append_Empty. cbn [str_split]. rewrite Ascii.eqb_refl. reflexivity.
  - cbn [str_mem] in H. apply orb_false_iff in H as [Hx Ha].
    rewrite str_append_String. cbn [str_split]. rewrite Ascii.eqb_sym, Hx, (IH Ha). reflexivity.
Qed.

Lemma str_split_join (c : ascii) (l : list string) :
  l <> [] ->
  Forall (fun x => str_mem c x = false) l ->
  str_split c (str_join (String c EmptyString) l) = l.
Proof.
  induction l as [|x l IH]; intros Hne Hall; [contradiction|].
  apply Forall_cons in Hall as [Hx Hall].
  destruct l as [|y l].
  - simpl. apply str_split_plain. exact Hx.
  - rewrite str_join_cons by discriminate.
    change (String c EmptyString ++ ?t)%string with (String c t).
    rewrite (str_split_app c x _ Hx). rewrite IH; [reflexivity | discriminate | exact Hall].
Qed.

Lemma str_split_pieces (c : ascii) (s : string) :
  Forall (fun x => str_mem c x = false) (str_split c s).
Proof.
  induction s as [|a s IH]; simpl.
  - repeat constructor.
  - destruct (Ascii.eqb_spec a c) as [->|Hne].
    + constructor; [reflexivity | exact IH].
    + destruct (str_split c s) as [|piece rest]; [repeat constructor; simpl|].
      * rewrite Ascii.eqb_sym. apply Ascii.eqb_neq in Hne. rewrite Hne. reflexivity.
      * apply Forall_cons in IH as [Hp Hr]. constructor; [|exact Hr].
        simpl. rewrite Ascii.eqb_sym. apply Ascii.eqb_neq in Hne. rewrite Hne. exact Hp.
Qed.

Lemma str_join_snoc (sep x : string) (l : list string) :
  l <> [] -> str_join sep (l ++ [x]) = (str_join sep l ++ sep ++ x)%string.
Proof.
  induction l as [|y l IH]; intros Hne; [contradiction|].
  destruct l as [|z l].
  - reflexivity.
  - change ((y :: z :: l) ++ [x]) with (y :: ((z :: l) ++ [x])).
    rewrite str_join_cons by (intros H; discriminate H).
    rewrite IH by discriminate. rewrite (str_join_cons sep y (z :: l)) by discriminate.
    rewrite !str_append_assoc. reflexivity.
Qed.


Lemma str_split_append (c : ascii) (a b : string) :
  str_split c (a ++ String c b)%string = str_split c a ++ str_split c b.
Proof.
  induction a as [|x a IH].
  - rewrite str_append_Empty. cbn [str_split]. rewrite Ascii.eqb_refl. reflexivity.
  - rewrite str_append_String. cbn [str_split]. destruct (Ascii.eqb x c).
    + rewrite IH. reflexivity.
    + rewrite IH. pose proof (str_split_nonempty c a) as Hn.
      destruct (str_split c a) as [|piece rest]; [contradiction | reflexivity].
Qed.

Lemma dict_get_set_eq {V} (d : list (string * V)) (k : string) (v : V) :
  dict_get (dict_set d k v) k = Some v.
Proof.
  induction d as [|[k' v'] d IH]; simpl.
  - rewrite String.eqb_refl. reflexivity.
  - destruct (String.eqb k k') eqn:Hk; simpl; rewrite Hk; [reflexivity | exact IH].
Qed.

Lemma dict_get_set_ne {V} (d : list (string * V)) (k k' : string) (v : V) :
  k' <> k -> dict_get (dict_set d k v) k' = dict_get d k'.
Proof.
  intros Hne. induction d as [|[k0 v0] d IH]; simpl.
  - apply String.eqb_neq in Hne. rewrite Hne. reflexivity.
  - destruct (String.eqb k k0) eqn:Hk; simpl.
    + apply String.eqb_eq in Hk. subst k0. apply String.eqb_neq in Hne. rewrite Hne.
      reflexivity.
    + destruct (String.eqb k' k0); [reflexivity | exact IH].
Qed.

(** ** The proxies of a slave: [SlaveGroups] and [SlavePools] *)

Section ProxyRuns.
Context {R : Type} {rs : RemoteService R}.

Lemma Slave_info_result (self : Slave) (i : option dict) (self1 : Slave) (w w1 : World R) :
  Slave_info self w = (Ok (i, self1), w1) ->
  self1 = mkSlave (slave_name self) (Cached i) (_settings self).
Proof.
  destruct self as [n [|i0] st]; unfold Slave_info; cbn [_info slave_name _settings]; run.
  - intros H. injection H as <- <- _. reflexivity.
  - intros H. injection H as <- <- _. reflexivity.
Qed.

Lemma Slave_info_names_run (self : Slave) (field : string) (d : dict) (s : string)
    (self1 : Slave) (w w1 : World R) :
  Slave_info self w = (Ok (Some d, self1), w1) ->
  dict_get d field = Some (VStr s) ->
  Slave_info_names self field w
  = (Ok (str_split "," s, mkSlave (slave_name self) (Cached (Some d)) (_settings self)), w1).
Proof.
  intros Hi Hf. pose proof (Slave_info_result _ _ _ _ _ Hi) as ->.
  unfold Slave_info_names. rewrite (bind_Ok _ _ _ _ _ Hi). cbn [fst snd].
  unfold dict_getitem. rewrite Hf. reflexivity.
Qed.

Lemma patch_info_run (field : string) (c : Cls) (s : string) (d : dict)
    (st : cell (option (list Obj))) (l : list DeadlineItem) (w : World R) :
  patch_info field (w, mkList c (mkSlave s (Cached (Some d)) st) l)
  = (Ok tt,
     (w, mkList c
           (mkSlave s (Cached (Some (dict_set d field (VStr (str_join "," (map item_str l)))))) st)
           l)).
Proof.
  unfold patch_info. mrun.
  rewrite (bind_outside_Ok _ _ _ _ _ _
             (eq_refl : Slave_info (mkSlave s (Cached (Some d)) st) w
                        = (Ok (Some d, mkSlave s (Cached (Some d)) st), w))).
  mrun. reflexivity.
Qed.
End ProxyRuns.


Section ProxyCalls.
Context {R : Type} {rs : RemoteService R}.

Lemma append_run {W S} (hk : Hooks W S) (x : raw) (w : W) (l : DeadlineList S) :
  DeadlineList_append hk x (w, l)
  = trigger_add hk (item_init (item_type l) x)
      (w, with_items l (items l ++ [item_init (item_type l) x])).
Proof. reflexivity. Qed.

Lemma names_of_groups (names : list string) :
  map item_str (map (item_init CGroup) (map RStr names)) = names.
Proof. rewrite !map_map. cbn. apply map_id. Qed.

Lemma names_of_items (c : Cls) (xs : list raw) :
  map item_str (map (item_init c) xs) = map raw_str xs.
Proof.
  rewrite map_map. apply map_ext. intros x. unfold item_str. apply item_init_name.
Qed.

Lemma Slave_groups_run (self self1 : Slave) (d : dict) (s : string) (w w1 : World R) :
  Slave_info self w = (Ok (Some d, self1), w1) ->
  dict_get d "Grps" = Some (VStr s) ->
  Slave_groups self w
  = (Ok (mkList CGroup self1 (map (mkItem CGroup) (str_split "," s))), w1).
Proof.
  intros Hi Hf. pose proof (Slave_info_result _ _ _ _ _ Hi) as Hs1.
  unfold Slave_groups. rewrite (bind_Ok _ _ _ _ _ (Slave_info_names_run _ _ _ _ _ _ _ Hi Hf)).
  unfold SlaveGroups_init, DeadlineList_init, ret. cbn [fst snd].
  rewrite map_map, <- Hs1. reflexivity.
Qed.

(** X6.  What the getter hands out: one group for every piece of the field
    [Grps] between commas.  The list is never empty: a slave in no group,
    whose field is the empty string, gets the one group of the empty
    name.  Joining the names gives the field back. *)
Theorem Slave_groups_are_the_pieces_of_the_field (self self1 : Slave) (d : dict) (s : string)
    (w w1 : World R) :
  Slave_info self w = (Ok (Some d, self1), w1) ->
  dict_get d "Grps" = Some (VStr s) ->
  exists l : DeadlineList Slave,
    Slave_groups self w = (Ok l, w1) /\
    source l = self1 /\
    items l = map (mkItem CGroup) (str_split "," s) /\
    items l <> [] /\
    Forall (fun e => str_mem "," (name e) = false) (items l) /\
    str_join "," (map item_str (items l)) = s /\
    (s = EmptyString -> items l = [mkItem CGroup EmptyString]).
Proof.
  intros Hi Hf. eexists. split; [apply (Slave_groups_run _ _ _ _ _ _ Hi Hf)|].
  cbn [source items].
  split; [reflexivity|]. split; [reflexivity|]. split; [|split; [|split]].
  - pose proof (str_split_nonempty "," s) as Hn. destruct (str_split "," s); [contradiction|].
    discriminate.
  - apply Forall_map. exact (str_split_pieces "," s).
  - rewrite map_map. cbn [item_str name]. rewrite map_id. apply str_join_split.
  - intros ->. reflexivity.
Qed.

Lemma SlaveGroups_append_run (s : string) (d : dict) (st : cell (option (list Obj)))
    (groups : list DeadlineItem) (x : raw) (w : World R) :
  let owner := mkSlave s (Cached (Some d)) st in
  let v := item_init CGroup x in
  let request := AddGroupToSlave s (raw_str x) in
  DeadlineList_append SlaveGroups_hooks x (w, mkList CGroup owner groups)
  = (Ok tt,
     (logged
        (requested
           (logged w (mkLog INFO "Adding %r to %r" [LRaw (RItem v); LRaw (RItem (Slave_item owner))]))
           request (snd (answer_change request (remote w))))
        (mkLog INFO (fst (answer_change request (remote w))) []),
      mkList CGroup
        (mkSlave s (Cached (Some (dict_set d "Grps"
                                    (VStr (str_join "," (map item_str (groups ++ [v])))))))
                 st)
        (groups ++ [v]))).
Proof.
  intros owner v request. subst owner v request. rewrite append_run.
  cbn [items item_type with_items source].
  cbn [trigger_add SlaveGroups_hooks DeadlineList_hooks]. mrun.
  cbn [slave_name]. unfold with_items. cbn [item_type source items].
  change (item_str (item_init CGroup x)) with (name (item_init CGroup x)).
  rewrite !item_init_name, patch_info_run. reflexivity.
Qed.

Lemma SlaveGroups_set_run (s : string) (d : dict) (st : cell (option (list Obj)))
    (groups : list DeadlineItem) (xs : list raw) (w : World R) :
  let owner := mkSlave s (Cached (Some d)) st in
  let new := map (item_init CGroup) xs in
  let request := SetGroupsForSlave (OneName s) (ManyNames (map raw_str xs)) in
  DeadlineList_setitem_slice SlaveGroups_hooks slice_all xs (w, mkList CGroup owner groups)
  = (Ok tt,
     (logged
        (requested
           (logged w (mkLog INFO "Setting %r to use %r" [LRaw (RItem (Slave_item owner)); LItems new]))
           request (snd (answer_change request (remote w))))
        (mkLog INFO (fst (answer_change request (remote w))) []),
      mkList CGroup
        (mkSlave s (Cached (Some (dict_set d "Grps" (VStr (str_join "," (map raw_str xs)))))) st)
        new)).
Proof.
  intros owner new request. subst owner new request. rewrite setitem_slice_all_run.
  cbn [items item_type with_items source].
  cbn [trigger_set SlaveGroups_hooks DeadlineList_hooks]. mrun.
  cbn [slave_name]. unfold with_items. cbn [item_type source items].
  rewrite names_of_items, patch_info_run, names_of_items. reflexivity.
Qed.

Lemma Slave_group_names_cached (n : string) (d : dict) (st : cell (option (list Obj)))
    (s : string) (w : World R) :
  dict_get d "Grps" = Some (VStr s) ->
  Slave_group_names (mkSlave n (Cached (Some d)) st) w = (Ok (str_split "," s), w).
Proof.
  intros Hf. unfold Slave_group_names, Slave_groups.
  rewrite bind_bind.
  rewrite (bind_Ok _ _ _ _ _
             (Slave_info_names_run (mkSlave n (Cached (Some d)) st) "Grps" d s _ w w eq_refl Hf)).
  cbn [bind ret fst snd SlaveGroups_init DeadlineList_init items slave_name _settings].
  rewrite names_of_groups. reflexivity.
Qed.

Lemma Slave_groups_append_run (self self1 : Slave) (group : raw) (d : dict) (s : string)
    (w w1 : World R) :
  Slave_info self w = (Ok (Some d, self1), w1) ->
  dict_get d "Grps" = Some (VStr s) ->
  let request := AddGroupToSlave (slave_name self) (raw_str group) in
  Slave_groups_append self group w
  = (Ok (mkSlave (slave_name self)
                 (Cached (Some (dict_set d "Grps" (VStr (s ++ "," ++ raw_str group)%string))))
                 (_settings self)),
     logged
       (requested
          (logged w1 (mkLog INFO "Adding %r to %r"
                        [LRaw (RItem (item_init CGroup group)); LRaw (RItem (Slave_item self1))]))
          request (snd (answer_change request (remote w1))))
       (mkLog INFO (fst (answer_change request (remote w1))) [])).
Proof.
  intros Hi Hf request.
  pose proof (Slave_info_result _ _ _ _ _ Hi) as Hs1.
  unfold Slave_groups_append.
  rewrite (bind_Ok _ _ _ _ _ (Slave_groups_run _ _ _ _ _ _ Hi Hf)), bind_on_list.
  rewrite Hs1 at 1. rewrite SlaveGroups_append_run.
  cbn [ret fst snd source]. rewrite map_app. cbn [map]. rewrite str_join_snoc.
  2:{ intros H. apply map_eq_nil, map_eq_nil in H. exact (str_split_nonempty "," s H). }
  rewrite map_map. cbn [item_str name]. rewrite map_id, str_join_split.
  rewrite item_init_name, <- Hs1. reflexivity.
Qed.

(** X7.  [self.groups.append(group)] on a slave whose info is at hand: one
    [AddGroupToSlave] request goes out and, whatever the farm answers, the
    field [Grps] of the info gets the name appended after a comma.  Read
    back on the same object, with no further request, the groups are the
    old ones followed by the pieces of the new name between commas; the
    group is appended even when the slave had it already. *)
Theorem Slave_groups_append_is_applied_locally (self self1 : Slave) (group : raw) (d : dict)
    (s : string) (w w1 : World R) :
  Slave_info self w = (Ok (Some d, self1), w1) ->
  dict_get d "Grps" = Some (VStr s) ->
  let request := AddGroupToSlave (slave_name self) (raw_str group) in
  let field := (s ++ "," ++ raw_str group)%string in
  let patched := mkSlave (slave_name self) (Cached (Some (dict_set d "Grps" (VStr field))))
                         (_settings self) in
  fst (Slave_groups_append self group w) = Ok patched /\
  calls (snd (Slave_groups_append self group w)) = calls w1 ++ [Change_ request] /\
  remote (snd (Slave_groups_append self group w)) = snd (answer_change request (remote w1)) /\
  (forall w' : World R,
      Slave_group_names patched w'
      = (Ok (str_split "," s ++ str_split "," (raw_str group)), w')).
Proof.
  intros Hi Hf request field patched.
  rewrite (Slave_groups_append_run _ _ group _ _ _ _ Hi Hf).
  cbn [fst snd]. autorewrite with world.
  split; [reflexivity|]. split; [reflexivity|]. split; [reflexivity|].
  intros w'. unfold patched.
  rewrite (Slave_group_names_cached _ _ _ field w' (dict_get_set_eq d "Grps" (VStr field))).
  unfold field. change ("," ++ raw_str group)%string with (String "," (raw_str group)).
  rewrite str_split_append. reflexivity.
Qed.

Lemma list_remove_first_map {A B} (f : A -> B) (same : B -> bool) (l : list A) :
  list_remove_first same (map f l)
  = match list_remove_first (fun x => same (f x)) l with
    | Ok r => Ok (map f r)
    | Raise e => Raise e
    end.
Proof.
  induction l as [|a l IH]; simpl; [reflexivity|].
  destruct (same (f a)); [reflexivity|]. rewrite IH.
  destruct (list_remove_first _ l); reflexivity.
Qed.

Lemma list_remove_first_ext {A} (f g : A -> bool) (l : list A) :
  (forall x, f x = g x) -> list_remove_first f l = list_remove_first g l.
Proof.
  intros H. induction l as [|a l IH]; simpl; [reflexivity|]. rewrite H, IH. reflexivity.
Qed.

(** X8.  [self.groups.remove(group)] on a slave whose info is at hand.  The
    group is looked for ignoring case.  When no group of the slave has
    that name the call raises [ValueError] and no request goes out.
    Otherwise the first such group leaves; one [RemoveGroupFromSlave]
    request goes out, naming the group as the caller wrote it, not as the
    slave has it; and the field [Grps] is joined anew from the groups
    left, whatever the farm answers. *)
Theorem Slave_groups_remove_names_the_group_as_passed (self self1 : Slave) (group : raw)
    (d : dict) (s : string) (w w1 : World R) :
  Slave_info self w = (Ok (Some d, self1), w1) ->
  dict_get d "Grps" = Some (VStr s) ->
  let same (x : string) := String.eqb (str_lower x) (str_lower (raw_str group)) in
  let request := RemoveGroupFromSlave (slave_name self) (raw_str group) in
  (existsb same (str_split "," s) = false ->
   Slave_groups_remove self group w = (Raise ValueError, w1)) /\
  (existsb same (str_split "," s) = true ->
   exists (before : list string) (x : string) (after : list string),
     str_split "," s = before ++ x :: after /\
     same x = true /\
     existsb same before = false /\
     fst (Slave_groups_remove self group w)
     = Ok (mkSlave (slave_name self)
                   (Cached (Some (dict_set d "Grps" (VStr (str_join "," (before ++ after))))))
                   (_settings self)) /\
     calls (snd (Slave_groups_remove self group w)) = calls w1 ++ [Change_ request] /\
     remote (snd (Slave_groups_remove self group w))
     = snd (answer_change request (remote w1))).
Proof.
  intros Hi Hf same request.
  pose proof (Slave_info_result _ _ _ _ _ Hi) as Hs1.
  pose proof (Slave_groups_run _ _ _ _ _ _ Hi Hf) as Hl.
  assert (Hrem : py_list_remove (map (mkItem CGroup) (str_split "," s)) (item_init CGroup group)
                 = match list_remove_first same (str_split "," s) with
                   | Ok r => Ok (map (mkItem CGroup) r)
                   | Raise e => Raise e
                   end).
  { unfold py_list_remove. rewrite list_remove_first_map.
    rewrite (list_remove_first_ext _ same); [reflexivity|].
    intros x. rewrite item_eq_names. cbn [raw_str name]. rewrite item_init_name. reflexivity. }
  split.
  - intros Hno. unfold Slave_groups_remove. rewrite (bind_Ok _ _ _ _ _ Hl), bind_on_list.
    rewrite remove_run. cbn [items item_type]. rewrite Hrem.
    rewrite (list_remove_first_missing _ _ Hno). reflexivity.
  - intros Hyes.
    destruct (list_remove_first_found _ _ Hyes) as (before & x & after & Hsp & Hx & Hb & Hr).
    exists before, x, after. split; [exact Hsp|]. split; [exact Hx|]. split; [exact Hb|].
    unfold Slave_groups_remove. rewrite (bind_Ok _ _ _ _ _ Hl), bind_on_list.
    rewrite Hs1 at 1 2 3.
    rewrite (SlaveGroups_remove_run _ d _ _ (map (mkItem CGroup) (before ++ after)) group).
    2:{ rewrite Hrem, Hr. reflexivity. }
    cbn [ret fst snd source]. autorewrite with world.
    rewrite map_map. cbn [item_str name]. rewrite map_id.
    split; [reflexivity|]. split; reflexivity.
Qed.

(** X9.  [self.groups = groups] on a slave whose info is at hand: one
    [SetGroupsForSlave] request carries all the names, and the field
    [Grps] becomes the names joined by commas, whatever the farm answers.
    Read back on the same object, with no further request, the groups are
    those assigned when there is at least one and no name holds a comma;
    after [self.groups = []] the slave reads as being in the one group of
    the empty name. *)
Theorem Slave_groups_set_then_get (self self1 : Slave) (groups : list raw) (d : dict)
    (s : string) (w w1 : World R) :
  Slave_info self w = (Ok (Some d, self1), w1) ->
  dict_get d "Grps" = Some (VStr s) ->
  let names := map raw_str groups in
  let request := SetGroupsForSlave (OneName (slave_name self)) (ManyNames names) in
  let patched := mkSlave (slave_name self)
                         (Cached (Some (dict_set d "Grps" (VStr (str_join "," names)))))
                         (_settings self) in
  fst (Slave_groups_set self groups w) = Ok patched /\
  calls (snd (Slave_groups_set self groups w)) = calls w1 ++ [Change_ request] /\
  remote (snd (Slave_groups_set self groups w)) = snd (answer_change request (remote w1)) /\
  (forall w' : World R,
      names <> [] ->
      Forall (fun x => str_mem "," x = false) names ->
      Slave_group_names patched w' = (Ok names, w')) /\
  (forall w' : World R,
      groups = [] -> Slave_group_names patched w' = (Ok [EmptyString], w')).
Proof.
  intros Hi Hf names request patched.
  pose proof (Slave_info_result _ _ _ _ _ Hi) as Hs1.
  pose proof (Slave_groups_run _ _ _ _ _ _ Hi Hf) as Hl.
  assert (Hread : forall w' : World R,
             Slave_group_names patched w' = (Ok (str_split "," (str_join "," names)), w')).
  { intros w'. apply Slave_group_names_cached. apply dict_get_set_eq. }
  unfold Slave_groups_set. rewrite (bind_Ok _ _ _ _ _ Hl), bind_on_list.
  rewrite Hs1 at 1 2 3. rewrite SlaveGroups_set_run.
  cbn [ret fst snd source]. autorewrite with world.
  split; [reflexivity|]. split; [reflexivity|]. split; [reflexivity|]. split.
  - intros w' Hne Hall. rewrite Hread. rewrite (str_split_join "," names Hne Hall). reflexivity.
  - intros w' Hnil. rewrite Hread. unfold names. rewrite Hnil. reflexivity.
Qed.

Lemma names_of_pools (names : list string) :
  map item_str
      (map (item_init CPool) (map (fun p => RItem (item_init CPool (RStr p))) names))
  = names.
Proof. rewrite !map_map. cbn. apply map_id. Qed.

Lemma SlavePools_set_run (s : string) (d : dict) (st : cell (option (list Obj)))
    (pools : list DeadlineItem) (xs : list raw) (w : World R) :
  let owner := mkSlave s (Cached (Some d)) st in
  let new := map (item_init CPool) xs in
  let request := SetPoolsForSlave (OneName s) (ManyNames (map raw_str xs)) in
  DeadlineList_setitem_slice SlavePools_hooks slice_all xs (w, mkList CPool owner pools)
  = (Ok tt,
     (logged
        (requested
           (logged w (mkLog INFO "Setting %r to use %r" [LRaw (RItem (Slave_item owner)); LItems new]))
           request (snd (answer_change request (remote w))))
        (mkLog INFO (fst (answer_change request (remote w))) []),
      mkList CPool
        (mkSlave s (Cached (Some (dict_set d "Pools" (VStr (str_join "," (map raw_str xs)))))) st)
        new)).
Proof.
  intros owner new request. subst owner new request. rewrite setitem_slice_all_run.
  cbn [items item_type with_items source].
  cbn [trigger_set SlavePools_hooks DeadlineList_hooks]. mrun.
  cbn [slave_name]. unfold with_items. cbn [item_type source items].
  rewrite names_of_items, patch_info_run, names_of_items. reflexivity.
Qed.

Lemma Slave_pool_names_cached (n : string) (d : dict) (st : cell (option (list Obj)))
    (s : string) (w : World R) :
  dict_get d "Pools" = Some (VStr s) ->
  Slave_pool_names (mkSlave n (Cached (Some d)) st) w = (Ok (str_split "," s), w).
Proof.
  intros Hf. unfold Slave_pool_names, Slave_pools.
  rewrite bind_bind.
  rewrite (bind_Ok _ _ _ _ _
             (Slave_info_names_run (mkSlave n (Cached (Some d)) st) "Pools" d s _ w w eq_refl Hf)).
  cbn [bind ret fst snd SlavePools_init DeadlineList_init items slave_name _settings].
  rewrite names_of_pools. reflexivity.
Qed.

(** X10.  [self.pools = pools], the sibling in pools.py: one [SetPoolsForSlave]
    request with all the names; the field [Pools] becomes the names
    joined by commas and the field [Grps] is left alone; read back, the
    pools are those assigned when there is at least one and no name holds
    a comma. *)
Theorem Slave_pools_set_then_get (self self1 : Slave) (pools : list raw) (d : dict)
    (s : string) (w w1 : World R) :
  Slave_info self w = (Ok (Some d, self1), w1) ->
  dict_get d "Pools" = Some (VStr s) ->
  let names := map raw_str pools in
  let request := SetPoolsForSlave (OneName (slave_name self)) (ManyNames names) in
  let info := dict_set d "Pools" (VStr (str_join "," names)) in
  let patched := mkSlave (slave_name self) (Cached (Some info)) (_settings self) in
  fst (Slave_pools_set self pools w) = Ok patched /\
  calls (snd (Slave_pools_set self pools w)) = calls w1 ++ [Change_ request] /\
  remote (snd (Slave_pools_set self pools w)) = snd (answer_change request (remote w1)) /\
  dict_get info "Grps" = dict_get d "Grps" /\
  (forall w' : World R,
      names <> [] ->
      Forall (fun x => str_mem "," x = false) names ->
      Slave_pool_names patched w' = (Ok names, w')).
Proof.
  intros Hi Hf names request info patched.
  pose proof (Slave_info_result _ _ _ _ _ Hi) as Hs1.
  assert (Hl : exists its, Slave_pools self w = (Ok (mkList CPool self1 its), w1)).
  { eexists. unfold Slave_pools.
    rewrite (bind_Ok _ _ _ _ _ (Slave_info_names_run _ _ _ _ _ _ _ Hi Hf)).
    unfold SlavePools_init, DeadlineList_init, ret. cbn [fst snd]. rewrite <- Hs1. reflexivity. }
  destruct Hl as [its Hl].
  unfold Slave_pools_set. rewrite (bind_Ok _ _ _ _ _ Hl), bind_on_list.
  rewrite Hs1 at 1 2 3. rewrite SlavePools_set_run.
  cbn [ret fst snd source]. autorewrite with world.
  split; [reflexivity|]. split; [reflexivity|]. split; [reflexivity|]. split.
  - apply dict_get_set_ne. discriminate.
  - intros w' Hne Hall. unfold patched, info.
    rewrite (Slave_pool_names_cached _ _ _ _ w' (dict_get_set_eq d "Pools" _)).
    rewrite (str_split_join "," names Hne Hall). reflexivity.
Qed.
End ProxyCalls.


(** ** [all], [exists], [create] and [delete] of groups and pools *)

Section ExistenceRuns.
Context {R : Type} {rs : RemoteService R}.

Lemma map_M_Pool_init (names : list string) (w : World R) :
  map_M (fun n => Pool_init (RStr n)) names w
  = (Ok (map (fun n => mkPool n (cache_read (Pool_SLAVES_CACHE w) n)) names), w).
Proof.
  induction names as [|n names IH]; [reflexivity|].
  cbn [map_M map]. unfold Pool_init at 1. run. rewrite (bind_Ok _ _ _ _ _ IH). reflexivity.
Qed.

Lemma map_M_Group_init (names : list string) (w : World R) :
  map_M (fun n => Group_init (RStr n)) names w
  = (Ok (map (fun n => mkGroup n (cache_read (Group_SLAVES_CACHE w) n)) names), w).
Proof.
  induction names as [|n names IH]; [reflexivity|].
  cbn [map_M map]. unfold Group_init at 1. run. rewrite (bind_Ok _ _ _ _ _ IH). reflexivity.
Qed.

(** Whether a list of names holds [n], ignoring case. *)
Lemma py_in_names (c : Cls) (n : string) (names : list string) :
  py_in (mkItem c n) (map (mkItem c) names)
  = existsb (fun x => String.eqb (str_lower n) (str_lower x)) names.
Proof.
  unfold py_in. induction names as [|x names IH]; [reflexivity|].
  cbn [map existsb]. rewrite IH, item_eq_names. reflexivity.
Qed.

Lemma Pool_exists_cached (P : Pool) (l : list string) (w : World R) :
  Pool_POOLS_CACHE w = Cached l ->
  Pool_exists P w
  = (Ok (existsb (fun x => String.eqb (str_lower (pool_name P)) (str_lower x)) l), w).
Proof.
  intros Hc. unfold Pool_exists, Pool_all, Pool__all. run. rewrite Hc. run.
  rewrite (bind_Ok _ _ _ _ _ (map_M_Pool_init l w)). cbn [ret].
  rewrite map_map. cbn [Pool_item pool_name]. rewrite <- (py_in_names CPool). reflexivity.
Qed.

Lemma Pool_exists_fresh (P : Pool) (w : World R) :
  Pool_POOLS_CACHE w = NOT_SET ->
  let l := fst (answer_listing GetPoolNames (remote w)) in
  Pool_exists P w
  = (Ok (existsb (fun x => String.eqb (str_lower (pool_name P)) (str_lower x)) l),
     with_pool_names (requested w GetPoolNames (snd (answer_listing GetPoolNames (remote w))))
                     (Cached l)).
Proof.
  intros Hc l. unfold Pool_exists, Pool_all, Pool__all. run. rewrite Hc. run.
  rewrite (bind_Ok _ _ _ _ _ (map_M_Pool_init _ _)). cbn [ret].
  rewrite map_map. cbn [Pool_item pool_name]. rewrite <- (py_in_names CPool). reflexivity.
Qed.

Lemma Group_exists_cached (G : Group) (l : list string) (w : World R) :
  Group_GROUPS_CACHE w = Cached l ->
  Group_exists G w
  = (Ok (existsb (fun x => String.eqb (str_lower (group_name G)) (str_lower x)) l), w).
Proof.
  intros Hc. unfold Group_exists, Group_all, Group__all. run. rewrite Hc. run.
  rewrite (bind_Ok _ _ _ _ _ (map_M_Group_init l w)). cbn [ret].
  rewrite map_map. cbn [Group_item group_name]. rewrite <- (py_in_names CGroup). reflexivity.
Qed.

Lemma Group_exists_fresh (G : Group) (w : World R) :
  Group_GROUPS_CACHE w = NOT_SET ->
  let l := fst (answer_listing GetGroupNames (remote w)) in
  Group_exists G w
  = (Ok (existsb (fun x => String.eqb (str_lower (group_name G)) (str_lower x)) l),
     with_group_names (requested w GetGroupNames (snd (answer_listing GetGroupNames (remote w))))
                      (Cached l)).
Proof.
  intros Hc l. unfold Group_exists, Group_all, Group__all. run. rewrite Hc. run.
  rewrite (bind_Ok _ _ _ _ _ (map_M_Group_init _ _)). cbn [ret].
  rewrite map_map. cbn [Group_item group_name]. rewrite <- (py_in_names CGroup). reflexivity.
Qed.

(** X12.  [exists()] of a group or a pool: true exactly when one of the names of
    the class equals the name ignoring case.  The names are those cached,
    or else those the farm lists now, which are then cached: a second call
    issues no request and gives the same answer.  An item of the base class
    never exists. *)
Theorem exists_is_membership_ignoring_case (w : World R) :
  let known (n : string) (l : list string) :=
    existsb (fun x => String.eqb (str_lower n) (str_lower x)) l in
  (forall G : Group,
      let l := match Group_GROUPS_CACHE w with
               | Cached l => l
               | NOT_SET => fst (answer_listing GetGroupNames (remote w))
               end in
      let w1 := snd (Group_exists G w) in
      fst (Group_exists G w) = Ok (known (group_name G) l) /\
      calls w1 = match Group_GROUPS_CACHE w with
                 | Cached _ => calls w
                 | NOT_SET => calls w ++ [Listing_ GetGroupNames]
                 end /\
      Group_exists G w1 = (Ok (known (group_name G) l), w1)) /\
  (forall P : Pool,
      let l := match Pool_POOLS_CACHE w with
               | Cached l => l
               | NOT_SET => fst (answer_listing GetPoolNames (remote w))
               end in
      let w1 := snd (Pool_exists P w) in
      fst (Pool_exists P w) = Ok (known (pool_name P) l) /\
      calls w1 = match Pool_POOLS_CACHE w with
                 | Cached _ => calls w
                 | NOT_SET => calls w ++ [Listing_ GetPoolNames]
                 end /\
      Pool_exists P w1 = (Ok (known (pool_name P) l), w1)) /\
  (forall i : DeadlineItem, DeadlineItem_exists i = false).
Proof.
  intros known. split; [|split].
  - intros G. destruct (Group_GROUPS_CACHE w) as [|l] eqn:Hc; intros l0 w1; subst l0 w1.
    + rewrite (Group_exists_fresh G w Hc). cbn [fst snd]. autorewrite with world.
      split; [reflexivity|]. split; [reflexivity|].
      apply Group_exists_cached. reflexivity.
    + rewrite (Group_exists_cached G l w Hc). cbn [fst snd].
      split; [reflexivity|]. split; [reflexivity|].
      apply Group_exists_cached. exact Hc.
  - intros P. destruct (Pool_POOLS_CACHE w) as [|l] eqn:Hc; intros l0 w1; subst l0 w1.
    + rewrite (Pool_exists_fresh P w Hc). cbn [fst snd]. autorewrite with world.
      split; [reflexivity|]. split; [reflexivity|].
      apply Pool_exists_cached. reflexivity.
    + rewrite (Pool_exists_cached P l w Hc). cbn [fst snd].
      split; [reflexivity|]. split; [reflexivity|].
      apply Pool_exists_cached. exact Hc.
  - reflexivity.
Qed.

Lemma existsb_snoc {A} (f : A -> bool) (l : list A) (x : A) :
  existsb f (l ++ [x]) = existsb f l || f x.
Proof. rewrite existsb_app. simpl. rewrite orb_false_r. reflexivity. Qed.

(** X13.  [create()] of a pool, then [exists()].  When the names of the pools
    were cached and the farm answered ["Success"], the name was appended
    to the cached names and [exists()] is true without any request.  When
    they were cached and the farm answered anything else, [exists()]
    answers from the cached names as they were.  When they were not
    cached, [create()] caches nothing and [exists()] asks the farm. *)
Theorem Pool_create_then_exists (P : Pool) (w : World R) :
  let add := AddPool (pool_name P) in
  let status := fst (answer_change add (remote w)) in
  let w1 := snd (Pool_create P w) in
  let known (l : list string) :=
    existsb (fun x => String.eqb (str_lower (pool_name P)) (str_lower x)) l in
  fst (Pool_create P w) = Ok (String.eqb status "Success") /\
  (forall l : list string,
      Pool_POOLS_CACHE w = Cached l ->
      Pool_exists P w1
      = (Ok (if String.eqb status "Success" then true else known l), w1)) /\
  (Pool_POOLS_CACHE w = NOT_SET ->
   fst (Pool_exists P w1) = Ok (known (fst (answer_listing GetPoolNames (remote w1)))) /\
   calls (snd (Pool_exists P w1)) = calls w ++ [Change_ add; Listing_ GetPoolNames]).
Proof.
  intros add status w1 known. subst add status w1 known.
  destruct (Pool_create_follows_status P w) as (Hr & Hcalls & Hcache).
  split; [exact Hr|]. split.
  - intros l Hc. rewrite Hc in Hcache.
    rewrite (Pool_exists_cached P _ _ Hcache).
    destruct (String.eqb _ "Success"); [|reflexivity].
    rewrite existsb_snoc, String.eqb_refl, orb_true_r. reflexivity.
  - intros Hc. rewrite Hc in Hcache.
    rewrite (Pool_exists_fresh P _ Hcache). cbn [fst snd]. autorewrite with world.
    rewrite Hcalls, <- app_assoc. split; reflexivity.
Qed.

Lemma names_remove_In (l : list string) (n : string) :
  In n l -> exists l', names_remove l n = Ok l' /\ length l = S (length l').
Proof.
  unfold names_remove. induction l as [|x l IH]; simpl; intros H; [contradiction|].
  destruct (String.eqb_spec x n) as [->|Hne].
  - exists l. split; reflexivity.
  - destruct H as [H|H]; [contradiction|]. destruct (IH H) as (l' & Hl & Hlen).
    exists (x :: l'). rewrite Hl. simpl. rewrite Hlen. split; reflexivity.
Qed.

Lemma names_remove_not_In (l : list string) (n : string) :
  ~ In n l -> names_remove l n = Raise ValueError.
Proof.
  unfold names_remove. induction l as [|x l IH]; simpl; intros H; [reflexivity|].
  destruct (String.eqb_spec x n) as [->|Hne]; [tauto|].
  rewrite IH by tauto. reflexivity.
Qed.

(** X14.  [delete(force=True)] of a pool or a group whose class has its names
    cached, when the farm answers ["Success"].  The name is taken out of
    the cached names as it is spelled in the object: when the cached names
    hold that spelling, its first occurrence goes and the call returns
    [True]; when they do not (they may hold the name in another case, for
    which [exists()] is true), the call raises [ValueError] after the farm
    has deleted, and the cached names stay as they were. *)
Theorem forced_delete_takes_the_cached_spelling (w : World R) :
  (forall (P : Pool) (l : list string),
      let request := DeletePool (pool_name P) in
      let run := Pool_delete P true w in
      Pool_POOLS_CACHE w = Cached l ->
      fst (answer_change request (remote w)) = "Success" ->
      calls (snd run) = calls w ++ [Change_ request] /\
      remote (snd run) = snd (answer_change request (remote w)) /\
      (In (pool_name P) l ->
       exists l', names_remove l (pool_name P) = Ok l' /\ length l = S (length l') /\
                  fst run = Ok true /\ Pool_POOLS_CACHE (snd run) = Cached l') /\
      (~ In (pool_name P) l ->
       fst run = Raise ValueError /\ Pool_POOLS_CACHE (snd run) = Cached l /\
       fst (Pool_exists P (snd run)) = fst (Pool_exists P w))) /\
  (forall (G : Group) (l : list string),
      let request := DeleteGroup (group_name G) in
      let run := Group_delete G true w in
      Group_GROUPS_CACHE w = Cached l ->
      fst (answer_change request (remote w)) = "Success" ->
      calls (snd run) = calls w ++ [Change_ request] /\
      remote (snd run) = snd (answer_change request (remote w)) /\
      (In (group_name G) l ->
       exists l', names_remove l (group_name G) = Ok l' /\ length l = S (length l') /\
                  fst run = Ok true /\ Group_GROUPS_CACHE (snd run) = Cached l') /\
      (~ In (group_name G) l ->
       fst run = Raise ValueError /\ Group_GROUPS_CACHE (snd run) = Cached l)).
Proof.
  split.
  - intros P l request run Hc Hs. subst request run.
    pose proof (Pool_delete_forced_follows_status P w) as H. cbv zeta in H.
    rewrite Hs, Hc in H. rewrite String.eqb_refl in H.
    assert (Hcalls : calls (snd (Pool_delete P true w))
                     = calls w ++ [Change_ (DeletePool (pool_name P))] /\
                     remote (snd (Pool_delete P true w))
                     = snd (answer_change (DeletePool (pool_name P)) (remote w))).
    { unfold Pool_delete. run. rewrite Hs, String.eqb_refl. run.
      rewrite Hc. destruct (names_remove l (pool_name P)); run; split; reflexivity. }
    destruct Hcalls as [Hcalls Hrem]. split; [exact Hcalls|]. split; [exact Hrem|]. split.
    + intros Hin. destruct (names_remove_In l _ Hin) as (l' & Hl & Hlen).
      exists l'. rewrite Hl in H. destruct H as [H1 H2]. repeat split; assumption.
    + intros Hnot. rewrite (names_remove_not_In l _ Hnot) in H. destruct H as [H1 H2].
      split; [exact H1|]. split; [exact H2|].
      rewrite (Pool_exists_cached P l w Hc).
      rewrite (Pool_exists_cached P l _ H2). reflexivity.
  - intros G l request run Hc Hs. subst request run.
    pose proof (Group_delete_forced_follows_status G w) as H. cbv zeta in H.
    rewrite Hs, Hc in H. rewrite String.eqb_refl in H.
    assert (Hcalls : calls (snd (Group_delete G true w))
                     = calls w ++ [Change_ (DeleteGroup (group_name G))] /\
                     remote (snd (Group_delete G true w))
                     = snd (answer_change (DeleteGroup (group_name G)) (remote w))).
    { unfold Group_delete. run. rewrite Hs, String.eqb_refl. run.
      rewrite Hc. destruct (names_remove l (group_name G)); run; split; reflexivity. }
    destruct Hcalls as [Hcalls Hrem]. split; [exact Hcalls|]. split; [exact Hrem|]. split.
    + intros Hin. destruct (names_remove_In l _ Hin) as (l' & Hl & Hlen).
      exists l'. rewrite Hl in H. destruct H as [H1 H2]. repeat split; assumption.
    + intros Hnot. rewrite (names_remove_not_In l _ Hnot) in H. exact H.
Qed.
End ExistenceRuns.

(** ** [==] on values *)






Lemma py_eq_VStr (v : PyVal) (s : string) : py_eq v (VStr s) = true <-> v = VStr s.
Proof.
  destruct v; simpl; try (split; [discriminate | discriminate]).
  rewrite String.eqb_eq. split; congruence.
Qed.

(** ** [_write_settings] on settings that hold the updates already *)





Section SettingsRuns.
Context {R : Type} {rs : RemoteService R}.


Lemma write_loop_app (rec : PyVal -> Target -> Obj -> Result bool * Obj) (t : Target)
    (a b : list (string * PyVal)) (u : bool) (top : Obj) :
  write_loop rec t (a ++ b) u top
  = match write_loop rec t a u top with
    | (Ok u', top') => write_loop rec t b u' top'
    | (Raise e, top') => (Raise e, top')
    end.
Proof.
  revert u top. induction a as [|[k v] a IH]; intros u top; [reflexivity|].
  cbn [app write_loop]. destruct t as [p|]; [|destruct b; reflexivity].
  destruct (obj_at top p) as [o|]; [|reflexivity].
  destruct (dict_get o k) as [n|]; [|reflexivity].
  destruct (is_dict v).
  - destruct (rec v (sub_target p k n) top) as [[b1|e] top1]; [apply IH | reflexivity].
  - destruct (py_ne (node_val n) v); apply IH.
Qed.

Lemma write_loop_keeps_keys (d : list (string * PyVal)) (k : string) :
  forall (u b : bool) (o o' : Obj),
    forallb (fun kv => negb (is_dict (snd kv))) d = true ->
    write_loop write_settings_rec (TObj []) d u o = (Ok b, o') ->
    dict_get o k = None -> dict_get o' k = None.
Proof.
  induction d as [|[k' v] d IH]; intros u b o o' Hflat Hrun Hk.
  - injection Hrun as _ <-. exact Hk.
  - simpl in Hflat. apply andb_true_iff in Hflat as [Hv Hflat]. apply negb_true_iff in Hv.
    cbn [write_loop obj_at] in Hrun. destruct (dict_get o k') as [n|] eqn:Hn; [|discriminate].
    rewrite Hv in Hrun. destruct (py_ne (node_val n) v).
    + apply (IH _ _ _ _ Hflat Hrun). cbn [obj_update].
      destruct (String.eqb_spec k k') as [->|Hne]; [congruence|].
      rewrite dict_get_entry_update_ne by (intros E; apply Hne; symmetry; exact E). exact Hk.
    + apply (IH _ _ _ _ Hflat Hrun Hk).
Qed.

(** X17.  [update_settings] with a keyword the settings do not have, after
    keywords [before] they do have (none of them a dictionary): the call
    raises [KeyError] for that keyword and issues no request, but the
    keywords before it are written to the settings of the slave already,
    and those after it are not looked at. *)
Theorem update_settings_stops_at_the_missing_key (n : string) (i : cell (option dict))
    (o : Obj) (l : list Obj) (before after : dict) (k : string) (v : PyVal) (w : World R) :
  let self := mkSlave n i (Cached (Some (o :: l))) in
  let kwargs := before ++ (k, v) :: after in
  NoDup (map fst before) ->
  forallb (fun kv => negb (is_dict (snd kv))) before = true ->
  (forall k', In k' (map fst before) -> dict_get o k' <> None) ->
  dict_get o k = None ->
  exists o' : Obj,
    write_settings before o = (Ok (existsb (fun kv => match dict_get o (fst kv) with
                                                      | Some x => py_ne (node_val x) (snd kv)
                                                      | None => false
                                                      end) before), o') /\
    holds (VDict before) o' /\
    write_settings kwargs o = (Raise (KeyError k), o') /\
    fst (Slave_update_settings self kwargs w) = Raise (KeyError k) /\
    calls (snd (Slave_update_settings self kwargs w)) = calls w.
Proof.
  intros self kwargs Hnd Hflat Hpres Hk. subst self kwargs.
  destruct (write_loop_flat before false o Hnd Hflat Hpres) as [o' Hw].
  cbn [orb] in Hw. exists o'.
  assert (Hbefore : write_settings before o = (Ok (existsb _ before), o')) by exact Hw.
  assert (Hall : write_settings (before ++ (k, v) :: after) o = (Raise (KeyError k), o')).
  { unfold write_settings. rewrite write_settings_rec_dict, write_loop_app, Hw.
    cbn [write_loop obj_at].
    rewrite (write_loop_keeps_keys before k _ _ o o' Hflat Hw Hk). reflexivity. }
  split; [exact Hbefore|]. split.
  - eapply (write_settings_holds before o o'); [| |exact Hbefore].
    + simpl. split; [exact Hnd|]. clear -Hflat.
      induction before as [|[k' x] d IH]; [exact I|].
      simpl in Hflat. apply andb_true_iff in Hflat as [Hx Hflat].
      split; [destruct x; try exact I; discriminate | exact (IH Hflat)].
    + clear -Hflat. induction before as [|[k' x] d IH]; [exact I|].
      simpl in Hflat. apply andb_true_iff in Hflat as [Hx Hflat].
      apply conforms_cons. split; [destruct x; try exact I; discriminate | exact (IH Hflat)].
  - split; [exact Hall|]. rewrite Slave_update_settings_cached. cbv zeta. rewrite Hall.
    cbn [fst snd]. autorewrite with world. split; reflexivity.
Qed.

(** X18.  The fallback of [_write_settings] on [settings is None]: a dictionary
    of updates given for a setting whose value is [None] is written into
    the top-level settings of the slave, key by key. *)
Theorem write_settings_into_None_goes_to_the_top (o : Obj) (k : string) (sub : dict) :
  dict_get o k = Some (NVal VNone) ->
  write_settings [(k, VDict sub)] o = write_settings sub o.
Proof.
  intros Hk. unfold write_settings. rewrite !write_settings_rec_dict.
  cbn [write_loop obj_at]. rewrite Hk. cbn [is_dict sub_target].
  rewrite write_settings_rec_dict.
  destruct (write_loop write_settings_rec (TObj []) sub false o) as [[b|e] o']; reflexivity.
Qed.

(** ** [ExtraInfo] *)

Lemma write_settings_extra (o : Obj) (item : ExtraKey) (n0 : Node) (v : PyVal) :
  is_dict v = false ->
  extra_node o item = Some n0 ->
  write_settings (extra_update item v) o
  = if py_ne (node_val n0) v then (Ok true, extra_store o item v) else (Ok false, o).
Proof.
  intros Hv Hn. destruct item as [c|k]; cbn [extra_node extra_update extra_store] in *.
  - apply write_settings_one; assumption.
  - destruct (dict_get o "ExDic") as [[x|es|x es]|] eqn:Hex; try discriminate.
    unfold write_settings. rewrite write_settings_rec_dict.
    cbn [write_loop obj_at]. rewrite Hex. cbn [is_dict sub_target app].
    rewrite write_settings_rec_dict. cbn [write_loop obj_at]. rewrite Hex.
    cbn [node_entries]. rewrite Hn, Hv.
    destruct (py_ne (node_val n0) v); reflexivity.
Qed.

Lemma write_settings_extra_missing (o : Obj) (item : ExtraKey) (v : PyVal) :
  extra_node o item = None ->
  match item with
  | ExColumn _ => True
  | ExEntry _ => exists es, dict_get o "ExDic" = Some (NDict es)
  end ->
  write_settings (extra_update item v) o = (Raise (KeyError (extra_key_name item)), o).
Proof.
  intros Hn Hex. destruct item as [c|k]; cbn [extra_node extra_update extra_key_name] in *.
  - unfold write_settings. rewrite write_settings_rec_dict. cbn [write_loop obj_at].
    rewrite Hn. reflexivity.
  - destruct Hex as [es Hex]. rewrite Hex in Hn.
    unfold write_settings. rewrite write_settings_rec_dict.
    cbn [write_loop obj_at]. rewrite Hex. cbn [is_dict sub_target app].
    rewrite write_settings_rec_dict. cbn [write_loop obj_at]. rewrite Hex.
    cbn [node_entries]. rewrite Hn. reflexivity.
Qed.

Lemma extra_node_store (o : Obj) (item : ExtraKey) (n0 : Node) (v : PyVal) :
  extra_node o item = Some n0 ->
  extra_node (extra_store o item v) item = Some (node_store n0 v).
Proof.
  intros Hn. destruct item as [c|k]; cbn [extra_node extra_store] in *.
  - rewrite dict_get_entry_update_eq, Hn. reflexivity.
  - destruct (dict_get o "ExDic") as [[x|es|x es]|] eqn:Hex; try discriminate.
    rewrite dict_get_entry_update_eq, Hex. cbn [option_map node_update_entries].
    rewrite dict_get_entry_update_eq, Hn. reflexivity.
Qed.

Lemma ExtraInfo_getitem_run (n : string) (i : cell (option dict)) (o : Obj) (l : list Obj)
    (item : ExtraKey) (n0 : Node) (w : World R) :
  let self := mkSlave n i (Cached (Some (o :: l))) in
  extra_node o item = Some n0 ->
  ExtraInfo_getitem self item w = (Ok (node_val n0, self), w).
Proof.
  intros self Hn. subst self. unfold ExtraInfo_getitem. rewrite bind_Slave_settings_cached.
  cbn [fst snd]. destruct item as [c|k]; cbn [extra_node] in Hn; unfold dict_getitem.
  - rewrite dict_get_dict_of_obj, Hn. reflexivity.
  - destruct (dict_get o "ExDic") as [[x|es|x es]|] eqn:Hex; try discriminate.
    rewrite dict_get_dict_of_obj, Hex. cbn [option_map node_val bind ret].
    change (map (fun '(k0, x) => (k0, node_val x)) es) with (dict_of_obj es).
    rewrite dict_get_dict_of_obj, Hn. reflexivity.
Qed.

(** X19.  [extra_info[item] = value] for a string [value], on a slave whose
    settings are at hand and have the entry (the column [Ex<i>], or the
    key under a dictionary [ExDic]).  When the entry held that string
    already nothing happens.  Otherwise the entry is overwritten and one
    [SaveSlaveSettings] request carries the settings; whatever the farm
    answers, reading [extra_info[item]] on the same object gives [value]
    back.  [del extra_info[item]] is the assignment of the empty string:
    the entry stays. *)
Theorem ExtraInfo_setitem_then_getitem (n : string) (i : cell (option dict)) (o : Obj)
    (l : list Obj) (item : ExtraKey) (n0 : Node) (value : string) (w : World R) :
  let self := mkSlave n i (Cached (Some (o :: l))) in
  let changed := py_ne (node_val n0) (VStr value) in
  let o' := if changed then extra_store o item (VStr value) else o in
  let self' := mkSlave n i (Cached (Some (o' :: l))) in
  let run := ExtraInfo_setitem self item (VStr value) w in
  extra_node o item = Some n0 ->
  ExtraInfo_getitem self item w = (Ok (node_val n0, self), w) /\
  (changed = false <-> node_val n0 = VStr value) /\
  fst run = Ok self' /\
  calls (snd run)
  = (if changed then calls w ++ [Change_ (SaveSlaveSettings (dict_of_obj o'))] else calls w) /\
  (forall w' : World R, ExtraInfo_getitem self' item w' = (Ok (VStr value, self'), w')) /\
  ExtraInfo_delitem self item w = ExtraInfo_setitem self item (VStr EmptyString) w.
Proof.
  intros self changed o' self' run Hn.
  assert (Hch : changed = false <-> node_val n0 = VStr value).
  { unfold changed, py_ne. rewrite negb_false_iff. apply py_eq_VStr. }
  split; [apply ExtraInfo_getitem_run; exact Hn|]. split; [exact Hch|].
  assert (Hrun : fst run = Ok self' /\
                 calls (snd run)
                 = (if changed
                    then calls w ++ [Change_ (SaveSlaveSettings (dict_of_obj o'))]
                    else calls w)).
  { subst run self self' o'. unfold ExtraInfo_setitem, bind.
    rewrite Slave_update_settings_cached. cbv zeta.
    rewrite (write_settings_extra o item n0 (VStr value) eq_refl Hn). fold changed.
    destruct changed; cbn [bind ret fst snd]; autorewrite with world; split; reflexivity. }
  destruct Hrun as [Hr Hc]. split; [exact Hr|]. split; [exact Hc|]. split; [|reflexivity].
  intros w'. subst self' o'. destruct changed eqn:Hchanged.
  - rewrite (ExtraInfo_getitem_run n i _ l item _ w' (extra_node_store o item n0 _ Hn)).
    rewrite node_val_store. reflexivity.
  - rewrite (ExtraInfo_getitem_run n i o l item n0 w' Hn).
    rewrite (proj1 Hch eq_refl). reflexivity.
Qed.

(** X20.  [extra_info[item] = value] when the settings have no such entry (no
    column [Ex<i>], or no such key in the dictionary [ExDic]): the call
    raises [KeyError], as reading the entry does, and no request goes
    out.  The proxy cannot add a key. *)
Theorem ExtraInfo_setitem_cannot_add_a_key (n : string) (i : cell (option dict)) (o : Obj)
    (l : list Obj) (item : ExtraKey) (value : PyVal) (w : World R) :
  let self := mkSlave n i (Cached (Some (o :: l))) in
  extra_node o item = None ->
  match item with
  | ExColumn _ => True
  | ExEntry _ => exists es, dict_get o "ExDic" = Some (NDict es)
  end ->
  fst (ExtraInfo_getitem self item w) = Raise (KeyError (extra_key_name item)) /\
  fst (ExtraInfo_setitem self item value w) = Raise (KeyError (extra_key_name item)) /\
  calls (snd (ExtraInfo_setitem self item value w)) = calls w.
Proof.
  intros self Hn Hex. subst self. split.
  - unfold ExtraInfo_getitem. rewrite bind_Slave_settings_cached. cbn [fst snd].
    destruct item as [c|k]; cbn [extra_node extra_key_name] in *; unfold dict_getitem.
    + rewrite dict_get_dict_of_obj, Hn. reflexivity.
    + destruct Hex as [es Hex]. rewrite Hex in Hn.
      rewrite dict_get_dict_of_obj, Hex. cbn [option_map node_val bind ret].
      change (map (fun '(k0, x) => (k0, node_val x)) es) with (dict_of_obj es).
      rewrite dict_get_dict_of_obj, Hn. reflexivity.
  - unfold ExtraInfo_setitem, bind. rewrite Slave_update_settings_cached. cbv zeta.
    rewrite (write_settings_extra_missing o item value Hn Hex).
    cbn [bind fst snd]. autorewrite with world. split; reflexivity.
Qed.
End SettingsRuns.


(** ** The proxy of a group: [GroupSlaves] *)

Section GroupRuns.
Context {R : Type} {rs : RemoteService R}.
Variable h : string -> Z.

Lemma Group__slaves_result (G G1 : Group) (members : list string) (w w1 : World R) :
  Group__slaves G w = (Ok (members, G1), w1) ->
  G1 = mkGroup (group_name G) (Cached members).
Proof.
  destruct G as [g [|l]]; unfold Group__slaves; cbn [group_name group_slaves_cache]; run;
    intros H; injection H as <- <- _; reflexivity.
Qed.

Lemma Group_slaves_run (G G1 : Group) (members : list string) (w w1 : World R) :
  Group__slaves G w = (Ok (members, G1), w1) ->
  Group_slaves G w = (Ok (mkList CSlave G1 (map (mkItem CSlave) members)), w1).
Proof.
  intros H. unfold Group_slaves. rewrite (bind_Ok _ _ _ _ _ H).
  unfold GroupSlaves_init, DeadlineList_init, ret. cbn [fst snd]. rewrite map_map. reflexivity.
Qed.

Lemma append_group_to_run (G : Group) (x : raw) (grps : string) (d : dict) (w : World R) :
  let s := raw_str x in
  let r1 := snd (answer_info s (remote w)) in
  let request := AddGroupToSlave s (group_name G) in
  cache_read (Slave_INFO_CACHE w) s = NOT_SET ->
  fst (answer_info s (remote w)) = d ->
  or_None d = Some d ->
  dict_get d "Grps" = Some (VStr grps) ->
  exists w',
    append_group_to G x w = (Ok tt, w') /\
    calls w' = calls w ++ [GetSlaveInfo s; Change_ request] /\
    remote w' = snd (answer_change request r1).
Proof.
  intros s r1 request Hc Hd Hn Hg. subst s r1 request.
  unfold append_group_to. rewrite bind_Slave_init. rewrite Hc.
  unfold Slave_groups, Slave_info_names. rewrite !bind_bind, bind_Slave_info_fresh.
  rewrite Hd, Hn. cbn [fst snd]. unfold dict_getitem. rewrite Hg.
  cbn [bind ret fst snd]. rewrite bind_on_list.
  unfold SlaveGroups_init, DeadlineList_init.
  rewrite SlaveGroups_append_run.
  eexists. split; [reflexivity|]. autorewrite with world.
  rewrite <- app_assoc. split; reflexivity.
Qed.

(** X21.  [self.slaves.append(slave)] on a group, for a slave whose info is
    fetched and has the field [Grps]: the slave is asked for its info and
    one [AddGroupToSlave] request goes out for it.  The member names the
    group object holds are not touched: read again, [self.slaves] is the
    list without the new slave, and no request is made to refresh it. *)
Theorem Group_slaves_append_leaves_the_group_stale (G G1 : Group) (members : list string)
    (slave : raw) (grps : string) (d : dict) (w w1 : World R) :
  let s := raw_str slave in
  let request := AddGroupToSlave s (group_name G) in
  let run := Group_slaves_append h G slave w in
  Group__slaves G w = (Ok (members, G1), w1) ->
  cache_read (Slave_INFO_CACHE w1) s = NOT_SET ->
  fst (answer_info s (remote w1)) = d ->
  or_None d = Some d ->
  dict_get d "Grps" = Some (VStr grps) ->
  fst run = Ok (mkGroup (group_name G) (Cached members)) /\
  calls (snd run) = calls w1 ++ [GetSlaveInfo s; Change_ request] /\
  remote (snd run) = snd (answer_change request (snd (answer_info s (remote w1)))) /\
  (forall w' : World R,
      Group_slaves (mkGroup (group_name G) (Cached members)) w'
      = (Ok (mkList CSlave (mkGroup (group_name G) (Cached members))
                    (map (mkItem CSlave) members)), w')).
Proof.
  intros s request run Hm Hc Hd Hn Hg. subst s request run.
  pose proof (Group__slaves_result _ _ _ _ _ Hm) as HG1.
  unfold Group_slaves_append.
  rewrite (bind_Ok _ _ _ _ _ (Group_slaves_run _ _ _ _ _ Hm)), bind_on_list.
  rewrite append_run. cbn [items item_type with_items source].
  cbn [trigger_add GroupSlaves_hooks]. mrun.
  destruct (append_group_to_run G1 (RItem (item_init CSlave slave)) grps d w1)
    as (w2 & Hrun & Hcalls & Hrem).
  { cbn [raw_str]. rewrite item_init_name. exact Hc. }
  { cbn [raw_str]. rewrite item_init_name. exact Hd. }
  { exact Hn. }
  { exact Hg. }
  rewrite (outside_Ok _ _ _ _ _ Hrun). cbn [ret fst snd source].
  cbn [raw_str] in Hcalls, Hrem. rewrite item_init_name in Hcalls, Hrem.
  rewrite HG1 in Hcalls, Hrem. cbn [group_name] in Hcalls, Hrem.
  split; [rewrite HG1; reflexivity|]. split; [exact Hcalls|]. split; [exact Hrem|].
  intros w3. apply Group_slaves_run. reflexivity.
Qed.

(** *** The sets the handler of [GroupSlaves] compares *)

Lemma contains_key (l : list DeadlineItem) (v : raw) :
  py_list_contains l v = true <-> In (str_lower (raw_str v)) (map item_lower l).
Proof.
  unfold py_list_contains. rewrite existsb_exists, in_map_iff. split.
  - intros (e & He & Heq). exists e. split; [|exact He].
    rewrite item_eq_names in Heq. apply String.eqb_eq in Heq. exact Heq.
  - intros (e & Heq & He). exists e. split; [exact He|].
    rewrite item_eq_names. apply String.eqb_eq. exact Heq.
Qed.

Lemma set_contains_key (c : Cls) (s : list DeadlineItem) (x : DeadlineItem) :
  Forall (fun e => cls e = c) s -> cls x = c ->
  (set_contains h s x = true <-> In (item_lower x) (map item_lower s)).
Proof.
  intros Hs Hx. rewrite <- (contains_key s (RItem x)).
  unfold set_contains, py_list_contains. rewrite !existsb_exists.
  rewrite List.Forall_forall in Hs.
  split; intros (e & He & Heq); exists e; (split; [exact He|]).
  - apply andb_true_iff in Heq as [_ Heq]. exact Heq.
  - apply andb_true_iff. split; [|exact Heq].
    apply Z.eqb_eq. unfold item_hash. f_equal. apply item_repr_eq.
    + rewrite Hx. apply Hs. exact He.
    + rewrite item_eq_names in Heq. apply String.eqb_eq in Heq. exact Heq.
Qed.

Lemma py_set_keys (c : Cls) (l : list DeadlineItem) :
  Forall (fun e => cls e = c) l ->
  Forall (fun e => cls e = c) (py_set h l) /\
  (forall k, In k (map item_lower (py_set h l)) <-> In k (map item_lower l)).
Proof.
  unfold py_set.
  assert (Hgen : forall acc : list DeadlineItem,
             Forall (fun e => cls e = c) acc ->
             Forall (fun e => cls e = c) l ->
             Forall (fun e => cls e = c)
                    (fold_left (fun s x => if set_contains h s x then s else s ++ [x]) l acc) /\
             (forall k,
                 In k (map item_lower
                           (fold_left (fun s x => if set_contains h s x then s else s ++ [x])
                                      l acc))
                 <-> In k (map item_lower acc) \/ In k (map item_lower l))).
  { induction l as [|e l IH]; intros acc Hacc Hl.
    - split; [exact Hacc|]. intros k. simpl. tauto.
    - apply Forall_cons in Hl as [He Hl]. cbn [fold_left].
      destruct (set_contains h acc e) eqn:Hin.
      + destruct (IH acc Hacc Hl) as [H1 H2]. split; [exact H1|].
        intros k. rewrite H2. cbn [map In].
        apply (set_contains_key c acc e Hacc He) in Hin.
        split; [tauto|]. intros [?|[<-|?]]; tauto.
      + assert (Hacc' : Forall (fun e0 => cls e0 = c) (acc ++ [e])).
        { apply Forall_app. split; [exact Hacc | repeat constructor; exact He]. }
        destruct (IH (acc ++ [e]) Hacc' Hl) as [H1 H2]. split; [exact H1|].
        intros k. rewrite H2, map_app, in_app_iff. cbn [map In]. tauto. }
  intros Hl. destruct (Hgen [] (List.Forall_nil _) Hl) as [H1 H2]. split; [exact H1|].
  intros k. rewrite H2. simpl. tauto.
Qed.

Lemma filter_none {A} (f : A -> bool) (l : list A) :
  (forall x, In x l -> f x = false) -> List.filter f l = [].
Proof.
  induction l as [|x l IH]; intros H; [reflexivity|].
  cbn [List.filter]. rewrite (H x (or_introl eq_refl)). apply IH.
  intros y Hy. apply H. right. exact Hy.
Qed.

Lemma set_difference_nil (c : Cls) (a b : list DeadlineItem) :
  Forall (fun e => cls e = c) a ->
  Forall (fun e => cls e = c) b ->
  (forall x, In x a -> In (item_lower x) (map item_lower b)) ->
  set_difference h (py_set h a) (py_set h b) = [].
Proof.
  intros Ha Hb Hsub.
  destruct (py_set_keys c a Ha) as [Hca Hka]. destruct (py_set_keys c b Hb) as [Hcb Hkb].
  unfold set_difference.
  assert (Hall : forall x, In x (py_set h a) -> negb (set_contains h (py_set h b) x) = false).
  { intros x Hx. apply negb_false_iff.
    rewrite List.Forall_forall in Hca.
    apply (set_contains_key c _ x Hcb (Hca x Hx)). apply Hkb.
    assert (Hk : In (item_lower x) (map item_lower a)).
    { apply Hka. apply in_map. exact Hx. }
    apply in_map_iff in Hk as (y & Hy & Hin). rewrite <- Hy. apply Hsub. exact Hin. }
  apply filter_none. exact Hall.
Qed.

(** X22.  [self.slaves = slaves] on a group when the names assigned are the
    members the group has, in whatever order, case and number of
    repetitions: the handler finds nothing to add and nothing to remove,
    yet one [SetGroupsForSlave] request goes out, with an empty list of
    slaves, and no slave is asked for anything. *)
Theorem Group_slaves_assignment_of_the_members (G G1 : Group) (members : list string)
    (slaves : list raw) (w w1 : World R) :
  let request := SetGroupsForSlave (ManyNames []) (OneName (group_name G)) in
  let run := Group_slaves_set h G slaves w in
  Group__slaves G w = (Ok (members, G1), w1) ->
  forallb (fun x => py_list_contains (map (mkItem CSlave) members) x) slaves = true ->
  forallb (fun m => py_list_contains (map (item_init CSlave) slaves) (RStr m)) members = true ->
  fst run = Ok (mkGroup (group_name G) (Cached members)) /\
  calls (snd run) = calls w1 ++ [Change_ request] /\
  remote (snd run) = snd (answer_change request (remote w1)).
Proof.
  intros request run Hm Hnew Hold. subst request run.
  pose proof (Group__slaves_result _ _ _ _ _ Hm) as HG1.
  assert (Hc1 : Forall (fun e => cls e = CSlave) (map (mkItem CSlave) members)).
  { apply Forall_map. apply Forall_true. reflexivity. }
  assert (Hc2 : Forall (fun e => cls e = CSlave) (map (item_init CSlave) slaves)).
  { apply Forall_map. apply Forall_true. reflexivity. }
  assert (Hadd : set_difference h (py_set h (map (item_init CSlave) slaves))
                                  (py_set h (map (mkItem CSlave) members)) = []).
  { apply (set_difference_nil CSlave); [exact Hc2 | exact Hc1 |].
    intros x Hx. apply in_map_iff in Hx as (y & <- & Hy).
    rewrite forallb_forall in Hnew. specialize (Hnew y Hy). apply contains_key in Hnew.
    unfold item_lower at 1. unfold item_str. rewrite item_init_name. exact Hnew. }
  assert (Hdel : set_difference h (py_set h (map (mkItem CSlave) members))
                                  (py_set h (map (item_init CSlave) slaves)) = []).
  { apply (set_difference_nil CSlave); [exact Hc1 | exact Hc2 |].
    intros x Hx. apply in_map_iff in Hx as (m & <- & Hin).
    rewrite forallb_forall in Hold. specialize (Hold m Hin). apply contains_key in Hold.
    exact Hold. }
  unfold Group_slaves_set.
  rewrite (bind_Ok _ _ _ _ _ (Group_slaves_run _ _ _ _ _ Hm)), bind_on_list.
  rewrite setitem_slice_all_run. cbn [items item_type with_items source].
  cbn [trigger_set GroupSlaves_hooks DeadlineList_hooks]. mrun.
  unfold with_items. cbn [item_type source items].
  rewrite Hadd, Hdel. cbn [map for_each].
  rewrite (outside_Ok _ _ _ _ _ (eq_refl : ret tt _ = (Ok tt, _))).
  cbn [ret fst snd source]. autorewrite with world. rewrite HG1. cbn [group_name].
  split; [reflexivity|]. split; reflexivity.
Qed.
End GroupRuns.


(** ** The cached names, unknown slaves, and the enabled flag *)

Section MoreRuns.
Context {R : Type} {rs : RemoteService R}.

(** X15.  [_all()] of the three classes asks the farm once: the names are kept
    in the class, and a second call answers with the same names and
    issues no request, whatever the farm would list by then. *)
Theorem all_names_are_fetched_once (w : World R) :
  (let first := Slave__all w in
   exists names,
     first = (Ok names, snd first) /\
     names = match Slave_SLAVES_CACHE w with
             | Cached l => l
             | NOT_SET => fst (answer_listing GetSlaveNames (remote w))
             end /\
     calls (snd first) = match Slave_SLAVES_CACHE w with
                         | Cached _ => calls w
                         | NOT_SET => calls w ++ [Listing_ GetSlaveNames]
                         end /\
     Slave__all (snd first) = (Ok names, snd first)) /\
  (let first := Group__all w in
   exists names,
     first = (Ok names, snd first) /\
     names = match Group_GROUPS_CACHE w with
             | Cached l => l
             | NOT_SET => fst (answer_listing GetGroupNames (remote w))
             end /\
     calls (snd first) = match Group_GROUPS_CACHE w with
                         | Cached _ => calls w
                         | NOT_SET => calls w ++ [Listing_ GetGroupNames]
                         end /\
     Group__all (snd first) = (Ok names, snd first)) /\
  (let first := Pool__all w in
   exists names,
     first = (Ok names, snd first) /\
     names = match Pool_POOLS_CACHE w with
             | Cached l => l
             | NOT_SET => fst (answer_listing GetPoolNames (remote w))
             end /\
     calls (snd first) = match Pool_POOLS_CACHE w with
                         | Cached _ => calls w
                         | NOT_SET => calls w ++ [Listing_ GetPoolNames]
                         end /\
     Pool__all (snd first) = (Ok names, snd first)).
Proof.
  split; [|split]; cbv zeta.
  - unfold Slave__all. run. destruct (Slave_SLAVES_CACHE w) as [|l] eqn:Hc; run.
    + eexists. split; [reflexivity|]. split; [reflexivity|]. cbn [snd]. run.
      split; [reflexivity|]. cbn [with_slave_names Slave_SLAVES_CACHE]. reflexivity.
    + exists l. split; [reflexivity|]. split; [reflexivity|]. split; [reflexivity|].
      cbn [snd]. rewrite Hc. reflexivity.
  - unfold Group__all. run. destruct (Group_GROUPS_CACHE w) as [|l] eqn:Hc; run.
    + eexists. split; [reflexivity|]. split; [reflexivity|]. cbn [snd]. run.
      split; [reflexivity|]. cbn [with_group_names Group_GROUPS_CACHE]. reflexivity.
    + exists l. split; [reflexivity|]. split; [reflexivity|]. split; [reflexivity|].
      cbn [snd]. rewrite Hc. reflexivity.
  - unfold Pool__all. run. destruct (Pool_POOLS_CACHE w) as [|l] eqn:Hc; run.
    + eexists. split; [reflexivity|]. split; [reflexivity|]. cbn [snd]. run.
      split; [reflexivity|]. cbn [with_pool_names Pool_POOLS_CACHE]. reflexivity.
    + exists l. split; [reflexivity|]. split; [reflexivity|]. split; [reflexivity|].
      cbn [snd]. rewrite Hc. reflexivity.
Qed.

(** X23.  A slave the farm does not know: the farm answers the info request
    with nothing, [info] is [None] (and stays so on that object without a
    second request), and [groups] and [pools] raise [TypeError]; when the
    farm answers the settings request with nothing, [settings], [enabled]
    and [update_settings] raise [TypeError] after that one request. *)
Theorem unknown_slave_reads_raise_TypeError (n : string) (w : World R) :
  let fresh := mkSlave n NOT_SET NOT_SET in
  let seen := mkSlave n (Cached None) NOT_SET in
  let w1 := requested w (GetSlaveInfo n) (snd (answer_info n (remote w))) in
  let w2 := requested w (GetSlaveSettings n) (snd (answer_settings n (remote w))) in
  (fst (answer_info n (remote w)) = [] ->
   Slave_info fresh w = (Ok (None, seen), w1) /\
   Slave_groups fresh w = (Raise TypeError, w1) /\
   Slave_pools fresh w = (Raise TypeError, w1) /\
   (forall w' : World R,
       Slave_info seen w' = (Ok (None, seen), w') /\
       Slave_groups seen w' = (Raise TypeError, w') /\
       Slave_pools seen w' = (Raise TypeError, w'))) /\
  (fst (answer_settings n (remote w)) = [] ->
   Slave_settings fresh w = (Raise TypeError, w2) /\
   Slave_enabled fresh w = (Raise TypeError, w2) /\
   (forall kwargs : dict,
       fst (Slave_update_settings fresh kwargs w) = Raise TypeError /\
       calls (snd (Slave_update_settings fresh kwargs w)) = calls w ++ [GetSlaveSettings n])).
Proof.
  intros fresh seen w1 w2. subst fresh seen w1 w2. split.
  - intros Hi.
    assert (H1 : Slave_info (mkSlave n NOT_SET NOT_SET) w
                 = (Ok (None, mkSlave n (Cached None) NOT_SET),
                    requested w (GetSlaveInfo n) (snd (answer_info n (remote w))))).
    { unfold Slave_info. cbn [_info slave_name _settings]. run. rewrite Hi. reflexivity. }
    split; [exact H1|]. split; [|split].
    + unfold Slave_groups, Slave_info_names. rewrite !bind_bind, (bind_Ok _ _ _ _ _ H1).
      reflexivity.
    + unfold Slave_pools, Slave_info_names. rewrite !bind_bind, (bind_Ok _ _ _ _ _ H1).
      reflexivity.
    + intros w'. repeat split.
  - intros Hs.
    assert (H2 : Slave_settings (mkSlave n NOT_SET NOT_SET) w
                 = (Raise TypeError,
                    requested w (GetSlaveSettings n) (snd (answer_settings n (remote w))))).
    { unfold Slave_settings. cbn [_info slave_name _settings]. run. rewrite Hs. reflexivity. }
    split; [exact H2|]. split.
    + unfold Slave_enabled. rewrite (bind_Raise _ _ _ _ _ H2). reflexivity.
    + intros kwargs. unfold Slave_update_settings, Slave__write_settings. run.
      match goal with
      | |- context [bind (Slave_settings ?s) ?k ?w0] =>
          assert (H3 : Slave_settings s w0
                       = (Raise TypeError,
                          requested w0 (GetSlaveSettings n)
                                    (snd (answer_settings n (remote w0)))))
      end.
      { unfold Slave_settings. cbn [_info slave_name _settings]. run. rewrite Hs. reflexivity. }
      rewrite (bind_Raise _ _ _ _ _ H3). cbn [fst snd]. autorewrite with world.
      split; reflexivity.
Qed.

Lemma py_eq_VBool_truthy (v : PyVal) (b : bool) : py_eq v (VBool b) = true -> py_truthy v = b.
Proof.
  destruct v as [| x | z | | |]; simpl; try discriminate.
  - destruct x, b; (reflexivity || discriminate).
  - intros H. apply Z.eqb_eq in H. subst z. destruct b; reflexivity.
Qed.

(** X24.  [enable()] and [disable()] on a slave whose settings are at hand and
    have the entry [Enable]: whatever the call returns, and so whatever
    the farm answers to the save, the same object then reads as enabled,
    or as disabled. *)
Theorem enable_and_disable_set_the_flag_locally (n : string) (i : cell (option dict))
    (o : Obj) (l : list Obj) (n0 : Node) (flag : bool) (w : World R) :
  let self := mkSlave n i (Cached (Some (o :: l))) in
  let run := if flag then Slave_enable self w else Slave_disable self w in
  dict_get o "Enable" = Some n0 ->
  exists (b : bool) (self' : Slave),
    fst run = Ok (b, self') /\
    (forall w' : World R,
        exists v : PyVal,
          Slave_enabled self' w' = (Ok (v, self'), w') /\
          py_eq v (VBool flag) = true /\
          py_truthy v = flag) /\
    (forall w' : World R, Slave_disabled self' w' = (Ok (negb flag, self'), w')).
Proof.
  intros self run Hn. subst self.
  assert (Hrun : run = Slave_update_settings (mkSlave n i (Cached (Some (o :: l))))
                                             [("Enable", VBool flag)] w).
  { subst run. destruct flag; reflexivity. }
  rewrite Hrun. rewrite Slave_update_settings_cached. cbv zeta.
  rewrite (write_settings_one "Enable" (VBool flag) o n0 eq_refl Hn).
  assert (Hread : forall (o' : Obj) (v : PyVal) (w' : World R),
             dict_get (dict_of_obj o') "Enable" = Some v ->
             py_eq v (VBool flag) = true ->
             let self' := mkSlave n i (Cached (Some (o' :: l))) in
             (exists v0, Slave_enabled self' w' = (Ok (v0, self'), w') /\
                         py_eq v0 (VBool flag) = true /\ py_truthy v0 = flag) /\
             Slave_disabled self' w' = (Ok (negb flag, self'), w')).
  { intros o' v w' Hv Heq self'. subst self'.
    assert (He : Slave_enabled (mkSlave n i (Cached (Some (o' :: l)))) w'
                 = (Ok (v, mkSlave n i (Cached (Some (o' :: l)))), w')).
    { unfold Slave_enabled. rewrite bind_Slave_settings_cached. cbn [fst snd].
      unfold dict_getitem. rewrite Hv. reflexivity. }
    split.
    - exists v. split; [exact He|]. split; [exact Heq | apply py_eq_VBool_truthy; exact Heq].
    - unfold Slave_disabled. rewrite (bind_Ok _ _ _ _ _ He). cbn [ret fst snd].
      rewrite (py_eq_VBool_truthy v flag Heq). reflexivity. }
  destruct (py_ne (node_val n0) (VBool flag)) eqn:Hne; cbn [fst snd].
  - eexists _, _. split; [reflexivity|].
    assert (Hv : dict_get (dict_of_obj (entry_update o "Enable"
                                          (fun x => node_store x (VBool flag)))) "Enable"
                 = Some (VBool flag)).
    { rewrite dict_get_dict_of_obj, dict_get_entry_update_eq, Hn. cbn [option_map].
      rewrite node_val_store. reflexivity. }
    assert (Heq : py_eq (VBool flag) (VBool flag) = true) by (destruct flag; reflexivity).
    split; intros w'; apply (Hread _ _ w' Hv Heq).
  - eexists _, _. split; [reflexivity|].
    assert (Hv : dict_get (dict_of_obj o) "Enable" = Some (node_val n0)).
    { rewrite dict_get_dict_of_obj, Hn. reflexivity. }
    assert (Heq : py_eq (node_val n0) (VBool flag) = true).
    { unfold py_ne in Hne. apply negb_false_iff in Hne. exact Hne. }
    split; intros w'; apply (Hread _ _ w' Hv Heq).
Qed.
End MoreRuns.


(** ** pools.py: the hooks of [SlavePools] *)

Section PoolHooks.
Context {R : Type} {rs : RemoteService R}.

Lemma SlavePools_append_run (s : string) (d : dict) (st : cell (option (list Obj)))
    (pools : list DeadlineItem) (x : raw) (w : World R) :
  let owner := mkSlave s (Cached (Some d)) st in
  let v := item_init CPool x in
  let request := AddPoolToSlave s (raw_str x) in
  DeadlineList_append SlavePools_hooks x (w, mkList CPool owner pools)
  = (Ok tt,
     (logged
        (requested
           (logged w (mkLog INFO "Adding %r to %r" [LRaw (RItem v); LRaw (RItem (Slave_item owner))]))
           request (snd (answer_change request (remote w))))
        (mkLog INFO (fst (answer_change request (remote w))) []),
      mkList CPool
        (mkSlave s (Cached (Some (dict_set d "Pools"
                                    (VStr (str_join "," (map item_str (pools ++ [v])))))))
                 st)
        (pools ++ [v]))).
Proof.
  intros owner v request. subst owner v request. rewrite append_run.
  cbn [items item_type with_items source].
  cbn [trigger_add SlavePools_hooks DeadlineList_hooks]. mrun.
  cbn [slave_name]. unfold with_items. cbn [item_type source items].
  change (item_str (item_init CPool x)) with (name (item_init CPool x)).
  rewrite !item_init_name, patch_info_run. reflexivity.
Qed.

Lemma SlavePools_remove_run (s : string) (d : dict) (st : cell (option (list Obj)))
    (pools rest : list DeadlineItem) (x : raw) (w : World R) :
  let owner := mkSlave s (Cached (Some d)) st in
  let request := RemovePoolFromSlave s (raw_str x) in
  py_list_remove pools (item_init CPool x) = Ok rest ->
  DeadlineList_remove SlavePools_hooks x (w, mkList CPool owner pools)
  = (Ok tt,
     (logged
        (requested
           (logged w (mkLog INFO "Removing %r from %r" [LRaw x; LRaw (RItem (Slave_item owner))]))
           request (snd (answer_change request (remote w))))
        (mkLog INFO (fst (answer_change request (remote w))) []),
      mkList CPool
        (mkSlave s (Cached (Some (dict_set d "Pools" (VStr (str_join "," (map item_str rest)))))) st)
        rest)).
Proof.
  intros owner request Hr. subst owner request. rewrite remove_run. cbn [items item_type].
  rewrite Hr. cbn [trigger_remove SlavePools_hooks DeadlineList_hooks]. mrun.
  cbn [slave_name]. unfold with_items. cbn [item_type source items].
  rewrite patch_info_run. reflexivity.
Qed.

(** X11.  [append] and [remove] on the pools of a slave whose info is at hand.
    [append(x)] puts [Pool(x)] last and issues one [AddPoolToSlave]
    request; [remove(x)] takes out the first pool equal to [Pool(x)]
    ignoring case and issues one [RemovePoolFromSlave] request naming the
    pool as [x] spells it, or raises [ValueError] with nothing done when
    there is none.  After either, the field [Pools] of the info is the
    names of the pools in the list, joined by commas, whatever the farm
    answered. *)
Theorem SlavePools_append_and_remove_patch_the_field (s : string) (d : dict)
    (st : cell (option (list Obj))) (pools : list DeadlineItem) (x : raw) (w : World R) :
  let owner := mkSlave s (Cached (Some d)) st in
  let P := mkList CPool owner pools in
  let v := item_init CPool x in
  let patched (l : list DeadlineItem) :=
    mkList CPool
      (mkSlave s (Cached (Some (dict_set d "Pools" (VStr (str_join "," (map item_str l)))))) st)
      l in
  (let run := DeadlineList_append SlavePools_hooks x (w, P) in
   fst run = Ok tt /\
   snd (snd run) = patched (pools ++ [v]) /\
   calls (fst (snd run)) = calls w ++ [Change_ (AddPoolToSlave s (raw_str x))]) /\
  (let run := DeadlineList_remove SlavePools_hooks x (w, P) in
   match py_list_remove pools v with
   | Ok rest =>
       fst run = Ok tt /\
       snd (snd run) = patched rest /\
       calls (fst (snd run)) = calls w ++ [Change_ (RemovePoolFromSlave s (raw_str x))]
   | Raise e => run = (Raise ValueError, (w, P))
   end).
Proof.
  intros owner P v patched. subst owner P v patched. cbv zeta. split.
  - rewrite SlavePools_append_run. cbn [fst snd]. autorewrite with world. repeat split.
  - destruct (py_list_remove pools (item_init CPool x)) as [rest|e] eqn:Hr.
    + rewrite (SlavePools_remove_run s d st pools rest x w Hr). cbn [fst snd].
      autorewrite with world. repeat split.
    + rewrite remove_run. cbn [items item_type]. rewrite Hr.
      unfold py_list_remove in Hr.
      destruct (existsb (fun e0 => item_eq e0 (RItem (item_init CPool x))) pools) eqn:Hex.
      * destruct (list_remove_first_found _ _ Hex) as (b & e0 & a & _ & _ & _ & Hok).
        rewrite Hok in Hr. discriminate Hr.
      * rewrite (list_remove_first_missing _ _ Hex) in Hr. injection Hr as <-. reflexivity.
Qed.
End PoolHooks.


(** ** What [update_settings] saves, and what an object fetches *)

Section SavingRuns.
Context {R : Type} {rs : RemoteService R}.

(** X25.  [update_settings] with keywords that all name settings of the slave,
    none of them a dictionary: a [SaveSlaveSettings] request goes out
    exactly when the value of some keyword differs from the setting, and
    it carries the settings with every keyword written; the call returns
    [True] when nothing differed, and otherwise exactly when the farm
    answers ["Success"] or ["No updates required"]. *)
Theorem update_settings_saves_when_a_value_differs (n : string) (i : cell (option dict))
    (o : Obj) (l : list Obj) (kwargs : dict) (w : World R) :
  let self := mkSlave n i (Cached (Some (o :: l))) in
  let differs := existsb (fun kv => match dict_get o (fst kv) with
                                    | Some x => py_ne (node_val x) (snd kv)
                                    | None => false
                                    end) kwargs in
  let run := Slave_update_settings self kwargs w in
  NoDup (map fst kwargs) ->
  forallb (fun kv => negb (is_dict (snd kv))) kwargs = true ->
  (forall k, In k (map fst kwargs) -> dict_get o k <> None) ->
  exists o' : Obj,
    let save := SaveSlaveSettings (dict_of_obj o') in
    let status := fst (answer_change save (remote w)) in
    write_settings kwargs o = (Ok differs, o') /\
    holds (VDict kwargs) o' /\
    fst run
    = Ok (if differs
          then existsb (String.eqb status) ["Success"; "No updates required"]
          else true,
          mkSlave n i (Cached (Some (o' :: l)))) /\
    calls (snd run) = (if differs then calls w ++ [Change_ save] else calls w).
Proof.
  intros self differs run Hnd Hflat Hpres. subst self run.
  destruct (write_loop_flat kwargs false o Hnd Hflat Hpres) as [o' Hw].
  cbn [orb] in Hw. fold differs in Hw. exists o'. cbv zeta.
  assert (Hws : write_settings kwargs o = (Ok differs, o')) by exact Hw.
  split; [exact Hws|]. split.
  - eapply (write_settings_holds kwargs o o'); [| |exact Hws].
    + simpl. split; [exact Hnd|]. clear -Hflat.
      induction kwargs as [|[k' x] d IH]; [exact I|].
      simpl in Hflat. apply andb_true_iff in Hflat as [Hx Hflat].
      split; [destruct x; try exact I; discriminate | exact (IH Hflat)].
    + clear -Hflat. induction kwargs as [|[k' x] d IH]; [exact I|].
      simpl in Hflat. apply andb_true_iff in Hflat as [Hx Hflat].
      apply conforms_cons. split; [destruct x; try exact I; discriminate | exact (IH Hflat)].
  - rewrite Slave_update_settings_cached. cbv zeta. rewrite Hws.
    destruct differs; cbn [fst snd]; autorewrite with world; split; reflexivity.
Qed.

(** X26.  [info] and [settings] are fetched once per object: the first read
    issues at most one request and every later read on the same object
    gives the same value without one. *)
Theorem info_and_settings_are_fetched_once_per_object (self : Slave) (w : World R) :
  (exists (i : option dict) (self1 : Slave) (w1 : World R),
      Slave_info self w = (Ok (i, self1), w1) /\
      (calls w1 = calls w \/ calls w1 = calls w ++ [GetSlaveInfo (slave_name self)]) /\
      forall w' : World R, Slave_info self1 w' = (Ok (i, self1), w')) /\
  (forall (o : Obj) (self1 : Slave) (w1 : World R),
      Slave_settings self w = (Ok (o, self1), w1) ->
      (calls w1 = calls w \/ calls w1 = calls w ++ [GetSlaveSettings (slave_name self)]) /\
      forall w' : World R, Slave_settings self1 w' = (Ok (o, self1), w')).
Proof.
  destruct self as [n [|i] st]; split.
  - eexists _, _, _. unfold Slave_info at 1. cbn [_info slave_name _settings]. run.
    split; [reflexivity|]. autorewrite with world. split; [right; reflexivity|].
    intros w'. reflexivity.
  - intros o self1 w1 H. destruct st as [|[[|o0 l0]|]].
    + unfold Slave_settings in H. cbn [_info slave_name _settings] in H. revert H. run.
      destruct (or_None (map obj_of_dict (fst (answer_settings n (remote w)))))
        as [[|o0 l0]|]; cbn [fst snd]; intros H; try discriminate H.
      injection H as <- <- <-. autorewrite with world. split; [right; reflexivity|].
      intros w'. reflexivity.
    + discriminate H.
    + injection H as <- <- <-. split; [left; reflexivity|]. intros w'. reflexivity.
    + discriminate H.
  - eexists _, _, _. split; [reflexivity|]. split; [left; reflexivity|].
    intros w'. reflexivity.
  - intros o self1 w1 H. destruct st as [|[[|o0 l0]|]].
    + unfold Slave_settings in H. cbn [_info slave_name _settings] in H. revert H. run.
      destruct (or_None (map obj_of_dict (fst (answer_settings n (remote w)))))
        as [[|o0 l0]|]; cbn [fst snd]; intros H; try discriminate H.
      injection H as <- <- <-. autorewrite with world. split; [right; reflexivity|].
      intros w'. reflexivity.
    + discriminate H.
    + injection H as <- <- <-. split; [left; reflexivity|]. intros w'. reflexivity.
    + discriminate H.
Qed.
End SavingRuns.

Lemma update_settings_saves_when_a_value_differs_witness :
  let o := obj_of_dict (farm_settings node_2) in
  let self := mkSlave "node-2" NOT_SET (Cached (Some [o])) in
  let kwargs := [("Name", VStr "node-2"); ("Enable", VBool true)] in
  let w := initial_world (small_farm true) in
  exists o' : Obj,
    write_settings kwargs o = (Ok true, o') /\
    holds (VDict kwargs) o' /\
    fst (Slave_update_settings self kwargs w)
    = Ok (true, mkSlave "node-2" NOT_SET (Cached (Some [o']))) /\
    calls (snd (Slave_update_settings self kwargs w))
    = [Change_ (SaveSlaveSettings (dict_of_obj o'))].
Proof.
  intros o self kwargs w.
  destruct (update_settings_saves_when_a_value_differs "node-2" NOT_SET o [] kwargs w)
    as (o' & H1 & H2 & H3 & H4).
  - apply NoDup_cons. split; [|apply NoDup_singleton].
    rewrite list_elem_of_In. simpl. intros [H|[]]. discriminate H.
  - reflexivity.
  - simpl. intros k [<-|[<-|[]]]; discriminate.
  - exists o'. split; [exact H1|]. split; [exact H2|].
    assert (Ho : o' = snd (write_settings kwargs o)) by (rewrite H1; reflexivity).
    split; [|exact H4]. subst o'. exact H3.
Defined.

Lemma info_and_settings_are_fetched_once_per_object_witness :
  let self := mkSlave "node-1" NOT_SET NOT_SET in
  let w := initial_world (small_farm true) in
  let o := obj_of_dict (farm_settings node_1) in
  let self1 := mkSlave "node-1" NOT_SET (Cached (Some [o])) in
  let w1 := requested w (GetSlaveSettings "node-1") (small_farm true) in
  Slave_settings self w = (Ok (o, self1), w1) /\
  Slave_settings self1 w1 = (Ok (o, self1), w1).
Proof.
  intros self w o self1 w1.
  assert (H : Slave_settings self w = (Ok (o, self1), w1)) by reflexivity.
  destruct (info_and_settings_are_fetched_once_per_object self w) as [_ Hs].
  destruct (Hs o self1 w1 H) as [_ Hagain].
  split; [exact H | exact (Hagain w1)].
Defined.


(** ** More runs against the small farm *)

Lemma Slave_groups_are_the_pieces_of_the_field_witness :
  let self := mkSlave "node-1" NOT_SET NOT_SET in
  let w := initial_world (small_farm true) in
  let d := farm_info node_1 in
  let w1 := requested w (GetSlaveInfo "node-1") (small_farm true) in
  Slave_info self w = (Ok (Some d, mkSlave "node-1" (Cached (Some d)) NOT_SET), w1) /\
  dict_get d "Grps" = Some (VStr "gpu,linux") /\
  exists l : DeadlineList Slave,
    Slave_groups self w = (Ok l, w1) /\
    items l = map (mkItem CGroup) (str_split "," "gpu,linux") /\
    str_join "," (map item_str (items l)) = "gpu,linux".
Proof.
  intros self w d w1.
  assert (Hi : Slave_info self w
               = (Ok (Some d, mkSlave "node-1" (Cached (Some d)) NOT_SET), w1)) by reflexivity.
  assert (Hf : dict_get d "Grps" = Some (VStr "gpu,linux")) by reflexivity.
  split; [exact Hi|]. split; [exact Hf|].
  destruct (Slave_groups_are_the_pieces_of_the_field self _ d "gpu,linux" w w1 Hi Hf)
    as (l & Hl & _ & Hitems & _ & _ & Hjoin & _).
  exists l. split; [exact Hl|]. split; [exact Hitems | exact Hjoin].
Defined.

Lemma Slave_groups_append_is_applied_locally_witness :
  let self := mkSlave "node-2" NOT_SET NOT_SET in
  let w := initial_world (small_farm false) in
  let d := farm_info node_2 in
  let w1 := requested w (GetSlaveInfo "node-2") (small_farm false) in
  let patched := mkSlave "node-2" (Cached (Some (dict_set d "Grps" (VStr "linux,gpu")))) NOT_SET in
  Slave_info self w = (Ok (Some d, mkSlave "node-2" (Cached (Some d)) NOT_SET), w1) /\
  dict_get d "Grps" = Some (VStr "linux") /\
  fst (Slave_groups_append self (RStr "gpu") w) = Ok patched /\
  calls (snd (Slave_groups_append self (RStr "gpu") w))
  = [GetSlaveInfo "node-2"; Change_ (AddGroupToSlave "node-2" "gpu")] /\
  Slave_group_names patched w = (Ok ["linux"; "gpu"], w).
Proof.
  intros self w d w1 patched.
  assert (Hi : Slave_info self w
               = (Ok (Some d, mkSlave "node-2" (Cached (Some d)) NOT_SET), w1)) by reflexivity.
  assert (Hf : dict_get d "Grps" = Some (VStr "linux")) by reflexivity.
  split; [exact Hi|]. split; [exact Hf|].
  destruct (Slave_groups_append_is_applied_locally self _ (RStr "gpu") d "linux" w w1 Hi Hf)
    as (H1 & H2 & _ & H4).
  split; [exact H1|]. split; [exact H2 | exact (H4 w)].
Defined.

Lemma Slave_groups_remove_names_the_group_as_passed_witness :
  let self := mkSlave "node-1" NOT_SET NOT_SET in
  let w := initial_world (small_farm true) in
  let d := farm_info node_1 in
  let w1 := requested w (GetSlaveInfo "node-1") (small_farm true) in
  let same (x : string) := String.eqb (str_lower x) (str_lower "GPU") in
  Slave_info self w = (Ok (Some d, mkSlave "node-1" (Cached (Some d)) NOT_SET), w1) /\
  dict_get d "Grps" = Some (VStr "gpu,linux") /\
  existsb same (str_split "," "gpu,linux") = true /\
  exists (before : list string) (x : string) (after : list string),
    str_split "," "gpu,linux" = before ++ x :: after /\
    same x = true /\
    existsb same before = false /\
    fst (Slave_groups_remove self (RStr "GPU") w)
    = Ok (mkSlave "node-1"
                  (Cached (Some (dict_set d "Grps" (VStr (str_join "," (before ++ after))))))
                  NOT_SET) /\
    calls (snd (Slave_groups_remove self (RStr "GPU") w))
    = calls w1 ++ [Change_ (RemoveGroupFromSlave "node-1" "GPU")].
Proof.
  intros self w d w1 same.
  assert (Hi : Slave_info self w
               = (Ok (Some d, mkSlave "node-1" (Cached (Some d)) NOT_SET), w1)) by reflexivity.
  assert (Hf : dict_get d "Grps" = Some (VStr "gpu,linux")) by reflexivity.
  split; [exact Hi|]. split; [exact Hf|]. split; [reflexivity|].
  destruct (Slave_groups_remove_names_the_group_as_passed
              self _ (RStr "GPU") d "gpu,linux" w w1 Hi Hf) as [_ Hyes].
  destruct (Hyes eq_refl) as (before & x & after & H1 & H2 & H3 & H4 & H5 & _).
  exists before, x, after. repeat split; assumption.
Defined.

Lemma Slave_groups_set_then_get_witness :
  let self := mkSlave "node-3" NOT_SET NOT_SET in
  let w := initial_world (small_farm false) in
  let d := farm_info node_3 in
  let w1 := requested w (GetSlaveInfo "node-3") (small_farm false) in
  let patched := mkSlave "node-3" (Cached (Some (dict_set d "Grps" (VStr "linux,cpu")))) NOT_SET in
  Slave_info self w = (Ok (Some d, mkSlave "node-3" (Cached (Some d)) NOT_SET), w1) /\
  dict_get d "Grps" = Some (VStr "gpu") /\
  fst (Slave_groups_set self [RStr "linux"; RStr "cpu"] w) = Ok patched /\
  calls (snd (Slave_groups_set self [RStr "linux"; RStr "cpu"] w))
  = [GetSlaveInfo "node-3";
     Change_ (SetGroupsForSlave (OneName "node-3") (ManyNames ["linux"; "cpu"]))] /\
  Slave_group_names patched w = (Ok ["linux"; "cpu"], w).
Proof.
  intros self w d w1 patched.
  assert (Hi : Slave_info self w
               = (Ok (Some d, mkSlave "node-3" (Cached (Some d)) NOT_SET), w1)) by reflexivity.
  assert (Hf : dict_get d "Grps" = Some (VStr "gpu")) by reflexivity.
  split; [exact Hi|]. split; [exact Hf|].
  destruct (Slave_groups_set_then_get self _ [RStr "linux"; RStr "cpu"] d "gpu" w w1 Hi Hf)
    as (H1 & H2 & _ & H4 & _).
  split; [exact H1|]. split; [exact H2|].
  apply (H4 w); [discriminate | repeat constructor].
Defined.

Lemma Slave_pools_set_then_get_witness :
  let self := mkSlave "node-1" NOT_SET NOT_SET in
  let w := initial_world (small_farm true) in
  let d := farm_info node_1 in
  let w1 := requested w (GetSlaveInfo "node-1") (small_farm true) in
  let patched := mkSlave "node-1" (Cached (Some (dict_set d "Pools" (VStr "day")))) NOT_SET in
  Slave_info self w = (Ok (Some d, mkSlave "node-1" (Cached (Some d)) NOT_SET), w1) /\
  dict_get d "Pools" = Some (VStr "night") /\
  fst (Slave_pools_set self [RStr "day"] w) = Ok patched /\
  calls (snd (Slave_pools_set self [RStr "day"] w))
  = [GetSlaveInfo "node-1"; Change_ (SetPoolsForSlave (OneName "node-1") (ManyNames ["day"]))] /\
  Slave_pool_names patched w = (Ok ["day"], w).
Proof.
  intros self w d w1 patched.
  assert (Hi : Slave_info self w
               = (Ok (Some d, mkSlave "node-1" (Cached (Some d)) NOT_SET), w1)) by reflexivity.
  assert (Hf : dict_get d "Pools" = Some (VStr "night")) by reflexivity.
  split; [exact Hi|]. split; [exact Hf|].
  destruct (Slave_pools_set_then_get self _ [RStr "day"] d "night" w w1 Hi Hf)
    as (H1 & H2 & _ & _ & H5).
  split; [exact H1|]. split; [exact H2|].
  apply (H5 w); [discriminate | repeat constructor].
Defined.

Lemma Pool_create_then_exists_witness :
  let P := mkPool "dusk" NOT_SET in
  let w := snd (Pool__all (initial_world (small_farm true))) in
  Pool_POOLS_CACHE w = Cached ["day"; "night"] /\
  Pool_exists P w = (Ok false, w) /\
  fst (Pool_create P w) = Ok true /\
  Pool_exists P (snd (Pool_create P w)) = (Ok true, snd (Pool_create P w)).
Proof.
  intros P w.
  destruct (Pool_create_then_exists P w) as (H1 & H2 & _).
  split; [reflexivity|]. split; [reflexivity|]. split; [exact H1|].
  exact (H2 ["day"; "night"] eq_refl).
Defined.

Lemma forced_delete_takes_the_cached_spelling_witness :
  let P := mkPool "DAY" NOT_SET in
  let w := snd (Pool__all (initial_world (small_farm true))) in
  Pool_POOLS_CACHE w = Cached ["day"; "night"] /\
  fst (answer_change (DeletePool "DAY") (remote w)) = "Success" /\
  fst (Pool_exists P w) = Ok true /\
  fst (Pool_delete P true w) = Raise ValueError /\
  calls (snd (Pool_delete P true w)) = calls w ++ [Change_ (DeletePool "DAY")] /\
  Pool_POOLS_CACHE (snd (Pool_delete P true w)) = Cached ["day"; "night"].
Proof.
  intros P w.
  destruct (forced_delete_takes_the_cached_spelling w) as [HP _].
  destruct (HP P ["day"; "night"] eq_refl eq_refl) as (H1 & _ & _ & H4).
  destruct H4 as (H5 & H6 & _).
  { simpl. intros [H|[H|[]]]; discriminate H. }
  split; [reflexivity|]. split; [reflexivity|]. split; [reflexivity|].
  split; [exact H5|]. split; [exact H1 | exact H6].
Defined.


Lemma update_settings_stops_at_the_missing_key_witness :
  let o := obj_of_dict (farm_settings node_2) in
  let self := mkSlave "node-2" NOT_SET (Cached (Some [o])) in
  let kwargs := [("Enable", VBool true); ("Pool", VStr "day"); ("Name", VStr "node-9")] in
  let w := initial_world (small_farm true) in
  dict_get o "Pool" = None /\
  write_settings kwargs o
  = (Raise (KeyError "Pool"),
     obj_of_dict [("Name", VStr "node-2"); ("Enable", VBool true);
                  ("ExDic", VDict [("Owner", VStr EmptyString)])]) /\
  fst (Slave_update_settings self kwargs w) = Raise (KeyError "Pool") /\
  calls (snd (Slave_update_settings self kwargs w)) = [].
Proof.
  intros o self kwargs w.
  destruct (update_settings_stops_at_the_missing_key
              "node-2" NOT_SET o [] [("Enable", VBool true)] [("Name", VStr "node-9")]
              "Pool" (VStr "day") w) as (o' & Hb & _ & Hall & Hr & Hc).
  - apply NoDup_singleton.
  - reflexivity.
  - simpl. intros k' [<-|[]]. discriminate.
  - reflexivity.
  - assert (Ho : o' = obj_of_dict [("Name", VStr "node-2"); ("Enable", VBool true);
                                   ("ExDic", VDict [("Owner", VStr EmptyString)])]).
    { assert (Hb' : write_settings [("Enable", VBool true)] o
                    = (Ok true, obj_of_dict [("Name", VStr "node-2"); ("Enable", VBool true);
                                             ("ExDic", VDict [("Owner", VStr EmptyString)])]))
        by reflexivity.
      rewrite Hb' in Hb. injection Hb as Ho. symmetry. exact Ho. }
    rewrite Ho in Hall.
    split; [reflexivity|]. split; [exact Hall|]. split; [exact Hr | exact Hc].
Defined.

Lemma write_settings_into_None_goes_to_the_top_witness :
  let o := [("Name", NVal (VStr "node-2")); ("ExDic", NVal VNone)] in
  dict_get o "ExDic" = Some (NVal VNone) /\
  write_settings [("ExDic", VDict [("Name", VStr "node-9")])] o
  = (Ok true, [("Name", NVal (VStr "node-9")); ("ExDic", NVal VNone)]).
Proof.
  intros o. split; [reflexivity|].
  rewrite (write_settings_into_None_goes_to_the_top o "ExDic" [("Name", VStr "node-9")] eq_refl).
  reflexivity.
Defined.

Lemma ExtraInfo_setitem_then_getitem_witness :
  let o := obj_of_dict (farm_settings node_2) in
  let self := mkSlave "node-2" NOT_SET (Cached (Some [o])) in
  let o' := extra_store o (ExEntry "Owner") (VStr "ops") in
  let self' := mkSlave "node-2" NOT_SET (Cached (Some [o'])) in
  let w := initial_world (small_farm false) in
  extra_node o (ExEntry "Owner") = Some (NVal (VStr EmptyString)) /\
  ExtraInfo_getitem self (ExEntry "Owner") w = (Ok (VStr EmptyString, self), w) /\
  fst (ExtraInfo_setitem self (ExEntry "Owner") (VStr "ops") w) = Ok self' /\
  calls (snd (ExtraInfo_setitem self (ExEntry "Owner") (VStr "ops") w))
  = [Change_ (SaveSlaveSettings (dict_of_obj o'))] /\
  ExtraInfo_getitem self' (ExEntry "Owner") w = (Ok (VStr "ops", self'), w).
Proof.
  intros o self o' self' w.
  destruct (ExtraInfo_setitem_then_getitem
              "node-2" NOT_SET o [] (ExEntry "Owner") (NVal (VStr EmptyString)) "ops" w eq_refl)
    as (H1 & _ & H3 & H4 & H5 & _).
  split; [reflexivity|]. split; [exact H1|]. split; [exact H3|]. split; [exact H4 | exact (H5 w)].
Defined.

Lemma ExtraInfo_setitem_cannot_add_a_key_witness :
  let o := obj_of_dict (farm_settings node_2) in
  let self := mkSlave "node-2" NOT_SET (Cached (Some [o])) in
  let w := initial_world (small_farm true) in
  extra_node o (ExEntry "Rack") = None /\
  extra_node o (ExColumn 3) = None /\
  fst (ExtraInfo_setitem self (ExEntry "Rack") (VStr "r7") w) = Raise (KeyError "Rack") /\
  fst (ExtraInfo_setitem self (ExColumn 3) (VStr "r7") w) = Raise (KeyError "Ex3") /\
  calls (snd (ExtraInfo_setitem self (ExEntry "Rack") (VStr "r7") w)) = [].
Proof.
  intros o self w.
  destruct (ExtraInfo_setitem_cannot_add_a_key
              "node-2" NOT_SET o [] (ExEntry "Rack") (VStr "r7") w eq_refl) as (_ & H2 & H3).
  { eexists. reflexivity. }
  destruct (ExtraInfo_setitem_cannot_add_a_key
              "node-2" NOT_SET o [] (ExColumn 3) (VStr "r7") w eq_refl I) as (_ & H4 & _).
  split; [reflexivity|]. split; [reflexivity|]. split; [exact H2|]. split; [exact H4 | exact H3].
Defined.

Lemma Group_slaves_append_leaves_the_group_stale_witness :
  let G := mkGroup "linux" NOT_SET in
  let w := initial_world (small_farm true) in
  let w1 := requested w (GetSlaveNamesInGroup "linux") (small_farm true) in
  let run := Group_slaves_append length_hash G (RStr "node-3") w in
  Group__slaves G w = (Ok (["node-1"; "node-2"], mkGroup "linux" (Cached ["node-1"; "node-2"])), w1) /\
  fst run = Ok (mkGroup "linux" (Cached ["node-1"; "node-2"])) /\
  calls (snd run)
  = [Listing_ (GetSlaveNamesInGroup "linux"); GetSlaveInfo "node-3";
     Change_ (AddGroupToSlave "node-3" "linux")] /\
  fst (answer_listing (GetSlaveNamesInGroup "linux") (remote (snd run)))
  = ["node-1"; "node-2"; "node-3"].
Proof.
  intros G w w1 run.
  assert (Hm : Group__slaves G w
               = (Ok (["node-1"; "node-2"], mkGroup "linux" (Cached ["node-1"; "node-2"])), w1))
    by reflexivity.
  destruct (Group_slaves_append_leaves_the_group_stale
              length_hash G _ ["node-1"; "node-2"] (RStr "node-3") "gpu" (farm_info node_3)
              w w1 Hm eq_refl eq_refl eq_refl eq_refl) as (H1 & H2 & H3 & _).
  split; [exact Hm|]. split; [exact H1|]. split; [exact H2|].
  fold run in H3. rewrite H3. reflexivity.
Defined.

Lemma Group_slaves_assignment_of_the_members_witness :
  let G := mkGroup "gpu" NOT_SET in
  let w := initial_world (small_farm true) in
  let w1 := requested w (GetSlaveNamesInGroup "gpu") (small_farm true) in
  let slaves := [RStr "NODE-3"; RStr "node-1"; RStr "Node-1"] in
  let run := Group_slaves_set length_hash G slaves w in
  Group__slaves G w = (Ok (["node-1"; "node-3"], mkGroup "gpu" (Cached ["node-1"; "node-3"])), w1) /\
  fst run = Ok (mkGroup "gpu" (Cached ["node-1"; "node-3"])) /\
  calls (snd run)
  = [Listing_ (GetSlaveNamesInGroup "gpu");
     Change_ (SetGroupsForSlave (ManyNames []) (OneName "gpu"))].
Proof.
  intros G w w1 slaves run.
  assert (Hm : Group__slaves G w
               = (Ok (["node-1"; "node-3"], mkGroup "gpu" (Cached ["node-1"; "node-3"])), w1))
    by reflexivity.
  destruct (Group_slaves_assignment_of_the_members
              length_hash G _ ["node-1"; "node-3"] slaves w w1 Hm eq_refl eq_refl)
    as (H1 & H2 & _).
  split; [exact Hm|]. split; [exact H1 | exact H2].
Defined.

Lemma unknown_slave_reads_raise_TypeError_witness :
  let fresh := mkSlave "node-9" NOT_SET NOT_SET in
  let w := initial_world (small_farm true) in
  fst (answer_info "node-9" (remote w)) = [] /\
  fst (answer_settings "node-9" (remote w)) = [] /\
  fst (Slave_info fresh w) = Ok (None, mkSlave "node-9" (Cached None) NOT_SET) /\
  fst (Slave_groups fresh w) = Raise TypeError /\
  fst (Slave_enabled fresh w) = Raise TypeError.
Proof.
  intros fresh w.
  destruct (unknown_slave_reads_raise_TypeError "node-9" w) as [Hi Hs].
  destruct (Hi eq_refl) as (H1 & H2 & _). destruct (Hs eq_refl) as (_ & H4 & _).
  split; [reflexivity|]. split; [reflexivity|].
  fold fresh in H1, H2, H4. rewrite H1, H2, H4. repeat split.
Defined.

Lemma enable_and_disable_set_the_flag_locally_witness :
  let o := obj_of_dict (farm_settings node_1) in
  let self := mkSlave "node-1" NOT_SET (Cached (Some [o])) in
  let w := initial_world (small_farm false) in
  dict_get o "Enable" = Some (NVal (VBool true)) /\
  fst (Slave_disabled self w) = Ok (false, self) /\
  exists (b : bool) (self' : Slave),
    fst (Slave_disable self w) = Ok (b, self') /\
    Slave_disabled self' w = (Ok (true, self'), w).
Proof.
  intros o self w.
  destruct (enable_and_disable_set_the_flag_locally
              "node-1" NOT_SET o [] (NVal (VBool true)) false w eq_refl)
    as (b & self' & H1 & _ & H3).
  split; [reflexivity|]. split; [reflexivity|].
  exists b, self'. split; [exact H1 | exact (H3 w)].
Defined.

